(** * disnake components: wire codec and row packing

    A shallow embedding of [disnake/components.py] (the component variants,
    their [to_dict] / [from_payload] codecs and [_component_factory]) and of
    [disnake/ui/action_row.py] (the UI [ActionRow] and [components_to_rows]),
    followed by the properties the specification states about them.

    Conventions.
    - A wire payload is a JSON tree; a JSON object is a finite map from
      strings to JSON values, so that equality of payloads is equality of
      Python dicts (independent of insertion order).
    - A Python exception is a value [Raise e] of the [result] type; the
      statements of a function body are sequenced with [x ← c; k].
    - Attributes that Python annotates [Optional[T]] are [option T], with
      [None] for Python's [None]. *)

From Stdlib Require Import ZArith Lia.
From stdpp Require Import gmap strings list fin_maps.

#[local] Set Warnings "-register-all".
#[local] Open Scope Z_scope.

(** ** JSON values and Python dicts *)

Inductive json :=
| JNull
| JBool (b : bool)
| JInt (n : Z)
| JStr (s : string)
| JList (l : list json)
| JObj (m : gmap string json).

Abbreviation dict := (gmap string json).

(** ** Exceptions

    [IllTyped] is not a Python exception.  The attribute records below are
    typed after the class annotations, and Python performs no check when a
    payload carries a value of another type than its [TypedDict] declares
    ([disnake/types/components.py]): it would store the raw object.  Such
    payloads lie outside the typed model and decoding them is reported as
    [IllTyped].  [NameError name] is raised when a function reads a global
    name that its module does not bind. *)

Inductive exn :=
| KeyError (key : string)
| ValueError
| TypeError
| AssertionError
| IllTyped
| NameError (name : string).

Inductive result (A : Type) :=
| Ok (a : A)
| Raise (e : exn).
Arguments Ok {A} a.
Arguments Raise {A} e.

#[export] Instance result_ret : MRet result := fun A a => Ok a.

#[export] Instance result_bind : MBind result := fun A B k c =>
  match c with
  | Ok a => k a
  | Raise e => Raise e
  end.

#[export] Instance result_fmap : FMap result := fun A B f c =>
  match c with
  | Ok a => Ok (f a)
  | Raise e => Raise e
  end.

(** The results of a list of computations, left to right, stopping at the
    first exception: the value of a list comprehension whose elements have
    been evaluated. *)
Fixpoint sequence {A} (l : list (result A)) : result (list A) :=
  match l with
  | [] => Ok []
  | c :: l' => y ← c; ys ← sequence l'; Ok (y :: ys)
  end.

(** ** Payload access *)

(** [payload[k]] *)
Definition getitem (payload : dict) (k : string) : result json :=
  match payload !! k with
  | Some v => Ok v
  | None => Raise (KeyError k)
  end.

(** [k in payload] *)
Definition contains (payload : dict) (k : string) : bool :=
  match payload !! k with Some _ => true | None => false end.

Definition as_str (v : json) : result string :=
  match v with JStr s => Ok s | _ => Raise IllTyped end.

Definition as_int (v : json) : result Z :=
  match v with JInt n => Ok n | _ => Raise IllTyped end.

Definition as_bool (v : json) : result bool :=
  match v with JBool b => Ok b | _ => Raise IllTyped end.

(** [payload.get(k)] read at type [Optional[str]]. *)
Definition get_opt_str (payload : dict) (k : string) : result (option string) :=
  match payload !! k with
  | None | Some JNull => Ok None
  | Some (JStr s) => Ok (Some s)
  | Some _ => Raise IllTyped
  end.

(** [payload.get(k)] read at type [Optional[int]]. *)
Definition get_opt_int (payload : dict) (k : string) : result (option Z) :=
  match payload !! k with
  | None | Some JNull => Ok None
  | Some (JInt n) => Ok (Some n)
  | Some _ => Raise IllTyped
  end.

(** [payload.get(k, d)] read at type [bool]. *)
Definition get_bool (payload : dict) (k : string) (d : bool) : result bool :=
  match payload !! k with
  | None => Ok d
  | Some v => as_bool v
  end.

(** [payload.get(k, d)] read at type [int]. *)
Definition get_int (payload : dict) (k : string) (d : Z) : result Z :=
  match payload !! k with
  | None => Ok d
  | Some v => as_int v
  end.

(** Truth value of a JSON value: [None], [False], [0], the empty string,
    the empty list and the empty dict are falsy. *)
Definition py_truthy (v : json) : bool :=
  match v with
  | JNull => false
  | JBool b => b
  | JInt n => negb (n =? 0)
  | JStr s => match s with EmptyString => false | String _ _ => true end
  | JList l => match l with [] => false | _ :: _ => true end
  | JObj m => match map_to_list m with [] => false | _ :: _ => true end
  end.

(** Truth value of a [str]. *)
Definition str_truthy (s : string) : bool :=
  match s with EmptyString => false | String _ _ => true end.

(** [if o: payload[k] = o], for [o] an [Optional[str]]. *)
Definition set_str (o : option string) (k : string) (payload : dict) : dict :=
  match o with
  | Some s => if str_truthy s then <[k := JStr s]> payload else payload
  | None => payload
  end.

(** [if o is not None: payload[k] = f(o)] *)
Definition set_some {A} (o : option A) (k : string) (f : A -> json) (payload : dict) : dict :=
  match o with Some a => <[k := f a]> payload | None => payload end.

(** ** Enumerations

    Modelled from the spec: [disnake/enums.py] is not among the sources.  An
    enumeration member is represented by its wire value (its [.value]), so
    that [try_enum(cls, v)] is the member of value [v], and [m.value] is [m].
    The tags are the integers of the factory's dispatch and of the
    [Literal] declarations in [disnake/types/components.py]. *)

Module ComponentType.
Definition action_row : Z := 1.
Definition button : Z := 2.
Definition string_select : Z := 3.
Definition text_input : Z := 4.
Definition user_select : Z := 5.
Definition role_select : Z := 6.
Definition mentionable_select : Z := 7.
Definition channel_select : Z := 8.
End ComponentType.

Module ButtonStyle.
Definition url : Z := 5.
End ButtonStyle.

Module TextInputStyle.
Definition short : Z := 1.
End TextInputStyle.

Definition try_enum (v : Z) : Z := v.

(** ** The emoji value object

    [disnake/partial_emoji.py] is not among the sources; the specification
    treats the emoji as an opaque value object with a wire form.  The codecs
    below are therefore written against this interface:
    [emoji_to_dict] is [PartialEmoji.to_dict], [emoji_from_dict] is
    [PartialEmoji.from_dict], [emoji_from_str] is [PartialEmoji.from_str],
    and [emoji_truthy] is the truth value Python gives the object in
    [if self.emoji:]. *)

Class PartialEmojiLike (E : Type) := {
  emoji_to_dict : E -> json;
  emoji_from_dict : json -> E;
  emoji_from_str : string -> E;
  emoji_truthy : E -> bool;
}.

(** What the round-trip properties need of the emoji codec: decoding the
    wire form of an emoji gives the emoji back. *)
Class PartialEmojiLaws (E : Type) `{PartialEmojiLike E} : Prop :=
  emoji_from_to : forall e : E, emoji_from_dict (emoji_to_dict e) = e.

(** [try: emoji = PartialEmoji.from_dict(payload["emoji"])
     except KeyError: emoji = None] *)
Definition emoji_of_payload `{PartialEmojiLike E} (payload : dict) : option E :=
  match payload !! "emoji" with
  | Some d => Some (emoji_from_dict d)
  | None => None
  end.

(** [if self.emoji: payload["emoji"] = self.emoji.to_dict()] *)
Definition set_emoji `{PartialEmojiLike E} (o : option E) (payload : dict) : dict :=
  match o with
  | Some e => if emoji_truthy e then <["emoji" := emoji_to_dict e]> payload else payload
  | None => payload
  end.

(** A unicode emoji, carried on the wire as its string: the instance used
    to run the codecs on concrete payloads. *)
#[export] Instance unicode_emoji : PartialEmojiLike string := {
  emoji_to_dict e := JStr e;
  emoji_from_dict d := match d with JStr s => s | _ => EmptyString end;
  emoji_from_str s := s;
  emoji_truthy _ := true;
}.

(** ** [SelectOption] *)

Module SelectOption.
Record t (E : Type) := {
  label : string;
  value : string;
  description : option string;
  emoji : option E;
  default : bool;
}.
Arguments label {E} _.
Arguments value {E} _.
Arguments description {E} _.
Arguments emoji {E} _.
Arguments default {E} _.

Section codec.
Context `{PartialEmojiLike E}.

(** [SelectOption.__init__], called with an emoji that already is a
    [PartialEmoji] (or [None]); [value = None] stands for [MISSING]. *)
Definition __init__ (label : string) (value : option string)
    (description : option string) (emoji : option E) (default : bool) : t E :=
  {| label := label;
     value := match value with None => label | Some v => v end;
     description := description;
     emoji := emoji;
     default := default |}.

Definition from_dict (data : dict) : result (t E) :=
  let emoji := emoji_of_payload data in
  label ← getitem data "label" ≫= as_str;
  value ← getitem data "value" ≫= as_str;
  description ← get_opt_str data "description";
  default ← get_bool data "default" false;
  Ok (__init__ label (Some value) description emoji default).

Definition to_dict (self : t E) : dict :=
  let payload : dict :=
    {[ "label" := JStr (label self);
       "value" := JStr (value self);
       "default" := JBool (default self) ]} in
  let payload := set_emoji (emoji self) payload in
  let payload := set_str (description self) "description" payload in
  payload.
End codec.
End SelectOption.

(** ** [Button] and [UrlButton] *)

Module UrlButton.
Record t (E : Type) := {
  url : string;
  disabled : bool;
  label : option string;
  emoji : option E;
}.
Arguments url {E} _.
Arguments disabled {E} _.
Arguments label {E} _.
Arguments emoji {E} _.

Section codec.
Context `{PartialEmojiLike E}.

Definition to_dict (self : t E) : dict :=
  let payload : dict :=
    {[ "type" := JInt ComponentType.button;
       "style" := JInt ButtonStyle.url;
       "url" := JStr (url self);
       "disabled" := JBool (disabled self) ]} in
  let payload := set_str (label self) "label" payload in
  let payload := set_emoji (emoji self) payload in
  payload.

Definition from_payload (payload : dict) : result (t E) :=
  let emoji := emoji_of_payload payload in
  url ← getitem payload "url" ≫= as_str;
  disabled ← get_bool payload "disabled" false;
  label ← get_opt_str payload "label";
  Ok {| url := url; disabled := disabled; label := label; emoji := emoji |}.
End codec.
End UrlButton.

Module Button.
Record t (E : Type) := {
  style : Z;
  custom_id : string;
  disabled : bool;
  label : option string;
  emoji : option E;
}.
Arguments style {E} _.
Arguments custom_id {E} _.
Arguments disabled {E} _.
Arguments label {E} _.
Arguments emoji {E} _.

Section codec.
Context `{PartialEmojiLike E}.

Definition to_dict (self : t E) : dict :=
  let payload : dict :=
    {[ "type" := JInt 2;
       "style" := JInt (style self);
       "custom_id" := JStr (custom_id self);
       "disabled" := JBool (disabled self) ]} in
  let payload := set_str (label self) "label" payload in
  let payload := set_emoji (emoji self) payload in
  payload.

Definition from_payload (payload : dict) : result (t E) :=
  let emoji := emoji_of_payload payload in
  style ← getitem payload "style" ≫= as_int;
  custom_id ← getitem payload "custom_id" ≫= as_str;
  disabled ← get_bool payload "disabled" false;
  label ← get_opt_str payload "label";
  Ok {| style := try_enum style; custom_id := custom_id;
        disabled := disabled; label := label; emoji := emoji |}.
End codec.
End Button.

(** ** Select menus *)

Module BaseSelectMenu.
Record t := {
  custom_id : string;
  placeholder : option string;
  min_values : Z;
  max_values : Z;
  disabled : bool;
}.

(** [type] is [self.type.value], the class constant of the subclass the
    method is called on. *)
Definition to_dict (type : Z) (self : t) : dict :=
  let payload : dict :=
    {[ "type" := JInt type;
       "custom_id" := JStr (custom_id self);
       "min_values" := JInt (min_values self);
       "max_values" := JInt (max_values self);
       "disabled" := JBool (disabled self) ]} in
  let payload := set_str (placeholder self) "placeholder" payload in
  payload.

Definition from_payload (payload : dict) : result t :=
  custom_id ← getitem payload "custom_id" ≫= as_str;
  placeholder ← get_opt_str payload "placeholder";
  min_values ← get_int payload "min_values" 1;
  max_values ← get_int payload "max_values" 1;
  disabled ← get_bool payload "disabled" false;
  Ok {| custom_id := custom_id; placeholder := placeholder;
        min_values := min_values; max_values := max_values;
        disabled := disabled |}.
End BaseSelectMenu.

Module StringSelectMenu.
Record t (E : Type) := {
  base : BaseSelectMenu.t;
  options : list (SelectOption.t E);
}.
Arguments base {E} _.
Arguments options {E} _.

Section codec.
Context `{PartialEmojiLike E}.

Definition to_dict (self : t E) : dict :=
  let payload := BaseSelectMenu.to_dict ComponentType.string_select (base self) in
  let payload := <["type" := JInt ComponentType.string_select]> payload in
  let payload :=
    <["options" := JList ((fun op => JObj (SelectOption.to_dict op)) <$> options self)]>
      payload in
  payload.

(** [SelectOption.from_dict(option)] for an element of the payload's
    [options] list. *)
Definition option_from_json (option : json) : result (SelectOption.t E) :=
  match option with
  | JObj data => SelectOption.from_dict data
  | _ => Raise IllTyped
  end.

Definition from_payload (payload : dict) : result (t E) :=
  self ← BaseSelectMenu.from_payload payload;
  options ← match payload !! "options" with
            | None => Ok []
            | Some (JList l) => mapM option_from_json l
            | Some _ => Raise IllTyped
            end;
  Ok {| base := self; options := options |}.
End codec.
End StringSelectMenu.

Module ChannelSelectMenu.
Record t := {
  base : BaseSelectMenu.t;
  channel_types : option (list Z);
}.

(** Truth value of an [Optional[List[ChannelType]]]. *)
Definition channel_types_truthy (o : option (list Z)) : bool :=
  match o with
  | Some (_ :: _) => true
  | Some [] | None => false
  end.

Definition to_dict (self : t) : dict :=
  let payload := BaseSelectMenu.to_dict ComponentType.channel_select (base self) in
  let payload := <["type" := JInt ComponentType.channel_select]> payload in
  let payload :=
    match channel_types self with
    | Some (t :: ts) => <["channel_types" := JList (JInt <$> (t :: ts))]> payload
    | Some [] | None => payload
    end in
  payload.

Definition from_payload (payload : dict) : result t :=
  let channel_types := payload !! "channel_types" in
  self ← BaseSelectMenu.from_payload payload;
  channel_types ← match channel_types with
                  | None => Ok None
                  | Some v =>
                      if py_truthy v then
                        match v with
                        | JList l => Some <$> mapM (fun t => try_enum <$> as_int t) l
                        | _ => Raise IllTyped
                        end
                      else Ok None
                  end;
  Ok {| base := self; channel_types := channel_types |}.
End ChannelSelectMenu.

(** ** [TextInput] *)

Module TextInput.
Record t := {
  custom_id : string;
  style : Z;
  label : string;
  min_length : option Z;
  max_length : option Z;
  required : bool;
  value : option string;
  placeholder : option string;
}.

Definition to_dict (self : t) : dict :=
  let payload : dict :=
    {[ "type" := JInt ComponentType.text_input;
       "style" := JInt (style self);
       "label" := JStr (label self);
       "custom_id" := JStr (custom_id self);
       "required" := JBool (required self) ]} in
  let payload := set_some (placeholder self) "placeholder" JStr payload in
  let payload := set_some (value self) "value" JStr payload in
  let payload := set_some (min_length self) "min_length" JInt payload in
  let payload := set_some (max_length self) "max_length" JInt payload in
  payload.

Definition from_payload (payload : dict) : result t :=
  style ← get_int payload "style" TextInputStyle.short;
  custom_id ← getitem payload "custom_id" ≫= as_str;
  label ← getitem payload "label" ≫= as_str;
  placeholder ← get_opt_str payload "placeholder";
  value ← get_opt_str payload "value";
  required ← get_bool payload "required" true;
  min_length ← get_opt_int payload "min_length";
  max_length ← get_opt_int payload "max_length";
  Ok {| custom_id := custom_id; style := try_enum style; label := label;
        min_length := min_length; max_length := max_length;
        required := required; value := value; placeholder := placeholder |}.
End TextInput.

(** ** The component variants and the factory *)

(** An instance of one of the concrete subclasses of [Component]. *)
Inductive Component (E : Type) :=
| ActionRow_ (children : list (Component E))
| UrlButton_ (self : UrlButton.t E)
| Button_ (self : Button.t E)
| StringSelectMenu_ (self : StringSelectMenu.t E)
| TextInput_ (self : TextInput.t)
| UserSelectMenu_ (self : BaseSelectMenu.t)
| RoleSelectMenu_ (self : BaseSelectMenu.t)
| MentionableSelectMenu_ (self : BaseSelectMenu.t)
| ChannelSelectMenu_ (self : ChannelSelectMenu.t).
Arguments ActionRow_ {E} children.
Arguments UrlButton_ {E} self.
Arguments Button_ {E} self.
Arguments StringSelectMenu_ {E} self.
Arguments TextInput_ {E} self.
Arguments UserSelectMenu_ {E} self.
Arguments RoleSelectMenu_ {E} self.
Arguments MentionableSelectMenu_ {E} self.
Arguments ChannelSelectMenu_ {E} self.

(** [v == n] for a JSON value [v] and an [int] literal [n]: Python's [bool]
    is a subclass of [int], with [True == 1] and [False == 0]. *)
Definition py_eq_int (v : json) (n : Z) : bool :=
  match v with
  | JInt z => z =? n
  | JBool b => (if b then 1 else 0) =? n
  | _ => false
  end.

(** Modelled from the spec: [assert_never], of [disnake/utils.py], is not
    among the sources.  The specification has the exhaustiveness check fire
    unconditionally, an unknown tag being surfaced as a hard failure; the call
    never returns, so the two statements that follow it in the factory are
    not reached. *)
Definition assert_never {A} (arg : json) : result A := Raise AssertionError.

Section factory.
Context `{PartialEmojiLike E}.

(** [self.to_dict()], dispatched on the class of [self]. *)
Fixpoint to_dict (self : Component E) : dict :=
  match self with
  | ActionRow_ children =>
      {[ "type" := JInt ComponentType.action_row;
         "components" := JList (map (fun child => JObj (to_dict child)) children) ]}
  | UrlButton_ b => UrlButton.to_dict b
  | Button_ b => Button.to_dict b
  | StringSelectMenu_ s => StringSelectMenu.to_dict s
  | TextInput_ t => TextInput.to_dict t
  | UserSelectMenu_ s => BaseSelectMenu.to_dict ComponentType.user_select s
  | RoleSelectMenu_ s => BaseSelectMenu.to_dict ComponentType.role_select s
  | MentionableSelectMenu_ s => BaseSelectMenu.to_dict ComponentType.mentionable_select s
  | ChannelSelectMenu_ s => ChannelSelectMenu.to_dict s
  end.

(** The body of [_component_factory]; [action_row] is the value of
    [ActionRow.from_payload(data)]. *)
Definition factory_body (action_row : result (Component E)) (data : dict)
    : result (Component E) :=
  component_type ← getitem data "type";
  if py_eq_int component_type 1 then action_row
  else if py_eq_int component_type 2 then
    if contains data "url" then UrlButton_ <$> UrlButton.from_payload data
    else Button_ <$> Button.from_payload data
  else if py_eq_int component_type 3 then
    StringSelectMenu_ <$> StringSelectMenu.from_payload data
  else if py_eq_int component_type 4 then
    TextInput_ <$> TextInput.from_payload data
  else if py_eq_int component_type 5 then
    UserSelectMenu_ <$> BaseSelectMenu.from_payload data
  else if py_eq_int component_type 6 then
    RoleSelectMenu_ <$> BaseSelectMenu.from_payload data
  else if py_eq_int component_type 7 then
    MentionableSelectMenu_ <$> BaseSelectMenu.from_payload data
  else if py_eq_int component_type 8 then
    ChannelSelectMenu_ <$> ChannelSelectMenu.from_payload data
  else assert_never component_type.

(** [[f(d) for d in v]] for the value [v] of the key [components]. *)
Definition decode_list (f : json -> result (Component E)) (v : json)
    : result (list (Component E)) :=
  match v with
  | JList l => sequence (map f l)
  | _ => Raise IllTyped
  end.

(** [_component_factory] and [ActionRow.from_payload] call each other.  The
    recursion is on the payload tree: the children of every value of the
    payload are decoded under the map, and [ActionRow.from_payload] reads
    the entry of the key [components], the empty tuple when it is absent
    ([_component_factory_unfold] below gives the equation in the shape of
    the source). *)
Fixpoint _component_factory (data : json) : result (Component E) :=
  match data with
  | JObj payload =>
      let decoded := decode_list _component_factory <$> payload in
      let action_row :=
        children ← default (Ok []) (decoded !! "components");
        Ok (ActionRow_ children) in
      factory_body action_row payload
  | _ => Raise IllTyped
  end.
End factory.

Module ActionRowComponent.
Section codec.
Context `{PartialEmojiLike E}.

Definition to_dict (children : list (Component E)) : dict :=
  to_dict (ActionRow_ children).

Definition from_payload (payload : dict) : result (Component E) :=
  children ← match payload !! "components" with
             | None => Ok []
             | Some (JList l) => mapM _component_factory l
             | Some _ => Raise IllTyped
             end;
  Ok (ActionRow_ children).
End codec.
End ActionRowComponent.

(** ** Round trip: decoding an encoding

    [to_dict] leaves out an [Optional[str]] attribute that is the empty
    string, an emoji that is falsy and an empty [channel_types] list, exactly
    as it leaves out [None]; decoding then reads [None].  The attributes that
    survive the round trip are the ones for which absence means [None]. *)

(** An [Optional[str]] that [set_str] does not confuse with [None]. *)
Definition str_kept (o : option string) : bool :=
  match o with Some s => str_truthy s | None => true end.

(** An [Optional[PartialEmoji]] that [set_emoji] does not confuse with
    [None]. *)
Definition emoji_kept `{PartialEmojiLike E} (o : option E) : bool :=
  match o with Some e => emoji_truthy e | None => true end.

Section kept.
Context `{PartialEmojiLike E}.

Definition option_kept (o : SelectOption.t E) : bool :=
  emoji_kept (SelectOption.emoji o) && str_kept (SelectOption.description o).

Definition select_kept (s : BaseSelectMenu.t) : bool :=
  str_kept (BaseSelectMenu.placeholder s).

Fixpoint kept (x : Component E) : bool :=
  match x with
  | ActionRow_ children => forallb kept children
  | UrlButton_ b => str_kept (UrlButton.label b) && emoji_kept (UrlButton.emoji b)
  | Button_ b => str_kept (Button.label b) && emoji_kept (Button.emoji b)
  | StringSelectMenu_ s =>
      select_kept (StringSelectMenu.base s)
      && forallb option_kept (StringSelectMenu.options s)
  | TextInput_ _ => true
  | UserSelectMenu_ s | RoleSelectMenu_ s | MentionableSelectMenu_ s => select_kept s
  | ChannelSelectMenu_ s =>
      select_kept (ChannelSelectMenu.base s)
      && match ChannelSelectMenu.channel_types s with Some [] => false | _ => true end
  end.

(** [type(x).from_payload(payload)]: the decoder of the class of [x]. *)
Definition from_payload_of (x : Component E) (payload : dict) : result (Component E) :=
  match x with
  | ActionRow_ _ => ActionRowComponent.from_payload payload
  | UrlButton_ _ => UrlButton_ <$> UrlButton.from_payload payload
  | Button_ _ => Button_ <$> Button.from_payload payload
  | StringSelectMenu_ _ => StringSelectMenu_ <$> StringSelectMenu.from_payload payload
  | TextInput_ _ => TextInput_ <$> TextInput.from_payload payload
  | UserSelectMenu_ _ => UserSelectMenu_ <$> BaseSelectMenu.from_payload payload
  | RoleSelectMenu_ _ => RoleSelectMenu_ <$> BaseSelectMenu.from_payload payload
  | MentionableSelectMenu_ _ => MentionableSelectMenu_ <$> BaseSelectMenu.from_payload payload
  | ChannelSelectMenu_ _ => ChannelSelectMenu_ <$> ChannelSelectMenu.from_payload payload
  end.
End kept.

(** ** Payload declarations

    The [TypedDict] declarations of [disnake/types/components.py], as
    predicates on a raw payload: [k: T] is [required_key], and
    [k: NotRequired[T]] is [not_required_key]. *)

Definition is_str (v : json) : bool :=
  match v with JStr _ => true | _ => false end.

Definition is_int (v : json) : bool :=
  match v with JInt _ => true | _ => false end.

Definition is_bool (v : json) : bool :=
  match v with JBool _ => true | _ => false end.

Definition is_literal (n : Z) (v : json) : bool :=
  match v with JInt z => z =? n | _ => false end.

(** [Literal[n1, n2, ...]] *)
Definition is_one_of (ns : list Z) (v : json) : bool :=
  match v with JInt z => bool_decide (z ∈ ns) | _ => false end.

(** [List[T]] *)
Definition is_list_of (T : json -> bool) (v : json) : bool :=
  match v with JList l => forallb T l | _ => false end.

(** A [TypedDict] [T] as the type of a value. *)
Definition is_dict (T : gmap string json -> bool) (v : json) : bool :=
  match v with JObj d => T d | _ => false end.

Definition required_key (payload : dict) (k : string) (T : json -> bool) : bool :=
  match payload !! k with Some v => T v | None => false end.

Definition not_required_key (payload : dict) (k : string) (T : json -> bool) : bool :=
  match payload !! k with Some v => T v | None => true end.

Definition _SelectMenuPayload (payload : dict) : bool :=
  required_key payload "custom_id" is_str
  && not_required_key payload "placeholder" is_str
  && not_required_key payload "min_values" is_int
  && not_required_key payload "max_values" is_int
  && not_required_key payload "disabled" is_bool.

(** [style: TextInputStyle] is read here as an [int], which is what the
    decoder takes; the literal set of the alias is [TextInputStyleT]
    below. *)
Definition TextInputPayload (payload : dict) : bool :=
  required_key payload "type" (is_literal 4)
  && required_key payload "custom_id" is_str
  && required_key payload "style" is_int
  && required_key payload "label" is_str
  && not_required_key payload "min_length" is_int
  && not_required_key payload "max_length" is_int
  && not_required_key payload "required" is_bool
  && not_required_key payload "value" is_str
  && not_required_key payload "placeholder" is_str.

(** An unknown tag compares unequal to every tag of the dispatch. *)
Definition unknown_tag (tag : json) : Prop :=
  forall n : Z, 1 <= n <= 8 -> py_eq_int tag n = false.


(** More declarations of [disnake/types/components.py].  [PartialEmoji], of
    [disnake/types/emoji.py], and [ChannelType], of
    [disnake/types/channel.py], are not among the sources: the first is
    taken as any value and the second as an [int]. *)

Definition any_json (v : json) : bool := true.

(** The aliases [ButtonStyle = Literal[1, 2, 3, 4]] and
    [TextInputStyle = Literal[1, 2]]. *)
Definition ButtonStyleT : json -> bool := is_one_of [1; 2; 3; 4].

Definition TextInputStyleT : json -> bool := is_one_of [1; 2].

Definition ButtonPayload (payload : dict) : bool :=
  required_key payload "type" (is_literal 2)
  && required_key payload "style" ButtonStyleT
  && not_required_key payload "label" is_str
  && not_required_key payload "emoji" any_json
  && required_key payload "custom_id" is_str
  && not_required_key payload "disabled" is_bool.

Definition UrlButtonPayload (payload : dict) : bool :=
  required_key payload "type" (is_literal 2)
  && required_key payload "style" (is_literal 5)
  && not_required_key payload "label" is_str
  && not_required_key payload "emoji" any_json
  && required_key payload "url" is_str
  && not_required_key payload "disabled" is_bool.

Definition SelectOptionPayload (payload : dict) : bool :=
  required_key payload "label" is_str
  && required_key payload "value" is_str
  && not_required_key payload "description" is_str
  && not_required_key payload "emoji" any_json
  && not_required_key payload "default" is_bool.

Definition BaseSelectMenuPayload (payload : dict) : bool :=
  _SelectMenuPayload payload
  && required_key payload "type" (is_one_of [3; 5; 6; 7; 8]).

Definition StringSelectMenuPayload (payload : dict) : bool :=
  _SelectMenuPayload payload
  && required_key payload "type" (is_literal 3)
  && required_key payload "options" (is_list_of (is_dict SelectOptionPayload)).

Definition UserSelectMenuPayload (payload : dict) : bool :=
  _SelectMenuPayload payload && required_key payload "type" (is_literal 5).

Definition RoleSelectMenuPayload (payload : dict) : bool :=
  _SelectMenuPayload payload && required_key payload "type" (is_literal 6).

Definition MentionableSelectMenuPayload (payload : dict) : bool :=
  _SelectMenuPayload payload && required_key payload "type" (is_literal 7).

Definition ChannelSelectMenuPayload (payload : dict) : bool :=
  _SelectMenuPayload payload
  && required_key payload "type" (is_literal 8)
  && not_required_key payload "channel_types" (is_list_of is_int).

(** [self.type.value]: the class attribute [type] of the class of [self]. *)
Definition type_of {E} (self : Component E) : Z :=
  match self with
  | ActionRow_ _ => ComponentType.action_row
  | UrlButton_ _ | Button_ _ => ComponentType.button
  | StringSelectMenu_ _ => ComponentType.string_select
  | TextInput_ _ => ComponentType.text_input
  | UserSelectMenu_ _ => ComponentType.user_select
  | RoleSelectMenu_ _ => ComponentType.role_select
  | MentionableSelectMenu_ _ => ComponentType.mentionable_select
  | ChannelSelectMenu_ _ => ComponentType.channel_select
  end.

(** *** What survives an encoding

    The value that an encoding stands for: an optional string that is empty,
    an emoji that is falsy and a channel list that is empty are written like
    [None]. *)

Definition normal_str (o : option string) : option string :=
  match o with
  | Some s => if str_truthy s then Some s else None
  | None => None
  end.

Section normal.
Context `{PartialEmojiLike E}.

Definition normal_emoji (o : option E) : option E :=
  match o with
  | Some e => if emoji_truthy e then Some e else None
  | None => None
  end.

Definition normal_option (o : SelectOption.t E) : SelectOption.t E :=
  {| SelectOption.label := SelectOption.label o;
     SelectOption.value := SelectOption.value o;
     SelectOption.description := normal_str (SelectOption.description o);
     SelectOption.emoji := normal_emoji (SelectOption.emoji o);
     SelectOption.default := SelectOption.default o |}.

Definition normal_select (s : BaseSelectMenu.t) : BaseSelectMenu.t :=
  {| BaseSelectMenu.custom_id := BaseSelectMenu.custom_id s;
     BaseSelectMenu.placeholder := normal_str (BaseSelectMenu.placeholder s);
     BaseSelectMenu.min_values := BaseSelectMenu.min_values s;
     BaseSelectMenu.max_values := BaseSelectMenu.max_values s;
     BaseSelectMenu.disabled := BaseSelectMenu.disabled s |}.

Fixpoint normal (x : Component E) : Component E :=
  match x with
  | ActionRow_ children => ActionRow_ (map normal children)
  | UrlButton_ b =>
      UrlButton_ {| UrlButton.url := UrlButton.url b;
                    UrlButton.disabled := UrlButton.disabled b;
                    UrlButton.label := normal_str (UrlButton.label b);
                    UrlButton.emoji := normal_emoji (UrlButton.emoji b) |}
  | Button_ b =>
      Button_ {| Button.style := Button.style b;
                 Button.custom_id := Button.custom_id b;
                 Button.disabled := Button.disabled b;
                 Button.label := normal_str (Button.label b);
                 Button.emoji := normal_emoji (Button.emoji b) |}
  | StringSelectMenu_ s =>
      StringSelectMenu_
        {| StringSelectMenu.base := normal_select (StringSelectMenu.base s);
           StringSelectMenu.options := map normal_option (StringSelectMenu.options s) |}
  | TextInput_ t => TextInput_ t
  | UserSelectMenu_ s => UserSelectMenu_ (normal_select s)
  | RoleSelectMenu_ s => RoleSelectMenu_ (normal_select s)
  | MentionableSelectMenu_ s => MentionableSelectMenu_ (normal_select s)
  | ChannelSelectMenu_ s =>
      ChannelSelectMenu_
        {| ChannelSelectMenu.base := normal_select (ChannelSelectMenu.base s);
           ChannelSelectMenu.channel_types :=
             match ChannelSelectMenu.channel_types s with
             | Some [] => None
             | o => o
             end |}
  end.
End normal.

(** ** Re-encoding a decoded payload *)

(** The defaults of the decoders that the encoders write back: a payload of
    tag [tag] that lacks one of these keys is decoded with the value given
    here, and [to_dict] writes the attribute whatever its value. *)
Definition documented_defaults (tag : Z) : dict :=
  if tag =? ComponentType.button then {[ "disabled" := JBool false ]}
  else if tag =? ComponentType.text_input then {[ "required" := JBool true ]}
  else if bool_decide (tag ∈ [ComponentType.string_select; ComponentType.user_select;
                              ComponentType.role_select;
                              ComponentType.mentionable_select;
                              ComponentType.channel_select])
  then {[ "min_values" := JInt 1; "max_values" := JInt 1;
          "disabled" := JBool false ]}
  else ∅.

(** A select option with the key [default], [False] when it is absent. *)
Definition option_with_defaults (option : json) : json :=
  match option with
  | JObj data => JObj (data ∪ {[ "default" := JBool false ]})
  | _ => option
  end.

(** The wire object [w] with the defaulted keys that it lacks: those of
    [documented_defaults] for its tag, [default] in the options of a string
    select, and the same in the children of a row.  Every key that [w] holds
    keeps its value. *)
Fixpoint with_defaults (w : json) : json :=
  match w with
  | JObj payload =>
      let children :=
        (fun v => match v with
                  | JList l => JList (map with_defaults l)
                  | _ => v
                  end) <$> payload in
      match payload !! "type" with
      | Some (JInt tag) =>
          let filled := payload ∪ documented_defaults tag in
          if tag =? ComponentType.action_row then
            match children !! "components" with
            | Some components => JObj (<["components" := components]> filled)
            | None => JObj filled
            end
          else if tag =? ComponentType.string_select then
            match payload !! "options" with
            | Some (JList options) =>
                JObj (<["options" := JList (map option_with_defaults options)]> filled)
            | _ => JObj filled
            end
          else JObj filled
      | _ => w
      end
  | _ => w
  end.

(** *** Valid wire objects

    A wire object that an encoding can reproduce: it follows the declaration
    of its tag, holds no key that the declaration does not name (a decoder
    accepts such keys and drops them), a string that the encoder omits when
    empty is not empty, and an emoji is the wire form of an emoji that the
    encoder writes. *)

(** The payload holds no key but [keys]. *)
Definition only_keys (keys : list string) (payload : dict) : Prop :=
  forall k, k ∉ keys -> payload !! k = None.

(** A [str] that [if self.label:] keeps. *)
Definition nonempty_str (v : json) : bool :=
  match v with JStr s => str_truthy s | _ => false end.

(** A list of [int] that [if self.channel_types:] keeps. *)
Definition nonempty_int_list (v : json) : bool :=
  match v with JList (t :: ts) => forallb is_int (t :: ts) | _ => false end.

Section validity.
Context `{PartialEmojiLike E}.

(** The wire form of an emoji that [if self.emoji:] keeps. *)
Definition emoji_wire (d : json) : Prop :=
  exists e : E, emoji_truthy e = true /\ d = emoji_to_dict e.

Definition optional_emoji (payload : dict) : Prop :=
  forall d, payload !! "emoji" = Some d -> emoji_wire d.

Definition valid_option (option : json) : Prop :=
  match option with
  | JObj data =>
      SelectOptionPayload data = true
      /\ not_required_key data "description" nonempty_str = true
      /\ optional_emoji data
      /\ only_keys ["label"; "value"; "description"; "emoji"; "default"] data
  | _ => False
  end.

Definition valid_button (w : dict) : Prop :=
  ButtonPayload w = true
  /\ not_required_key w "label" nonempty_str = true
  /\ optional_emoji w
  /\ only_keys ["type"; "style"; "label"; "emoji"; "custom_id"; "disabled"] w.

Definition valid_url_button (w : dict) : Prop :=
  UrlButtonPayload w = true
  /\ not_required_key w "label" nonempty_str = true
  /\ optional_emoji w
  /\ only_keys ["type"; "style"; "label"; "emoji"; "url"; "disabled"] w.

(** What the select menus share; [more] are the keys that the subclass
    adds. *)
Definition valid_select (tag : Z) (more : list string) (w : dict) : Prop :=
  w !! "type" = Some (JInt tag)
  /\ _SelectMenuPayload w = true
  /\ not_required_key w "placeholder" nonempty_str = true
  /\ only_keys (["type"; "custom_id"; "placeholder"; "min_values"; "max_values";
                 "disabled"] ++ more) w.

Definition valid_string_select (w : dict) : Prop :=
  valid_select ComponentType.string_select ["options"] w
  /\ exists options, w !! "options" = Some (JList options)
                     /\ Forall valid_option options.

Definition valid_channel_select (w : dict) : Prop :=
  valid_select ComponentType.channel_select ["channel_types"] w
  /\ not_required_key w "channel_types" nonempty_int_list = true.

Definition valid_text_input (w : dict) : Prop :=
  TextInputPayload w = true
  /\ only_keys ["type"; "custom_id"; "style"; "label"; "min_length"; "max_length";
                "required"; "value"; "placeholder"] w.

(** A valid wire object of one of the variants that hold no component. *)
Definition valid_leaf (w : dict) : Prop :=
  valid_button w
  \/ valid_url_button w
  \/ valid_string_select w
  \/ valid_text_input w
  \/ valid_select ComponentType.user_select [] w
  \/ valid_select ComponentType.role_select [] w
  \/ valid_select ComponentType.mentionable_select [] w
  \/ valid_channel_select w.

Inductive valid_wire : json -> Prop :=
| valid_action_row (w : dict) (components : list json) :
    w !! "type" = Some (JInt ComponentType.action_row) ->
    w !! "components" = Some (JList components) ->
    only_keys ["type"; "components"] w ->
    Forall valid_wire components ->
    valid_wire (JObj w)
| valid_component (w : dict) :
    valid_leaf w -> valid_wire (JObj w).
End validity.

Section reencoding.
Context `{PartialEmojiLike E}.

(** The wire object [v] decodes, and the encoding of the result is [v] with
    its defaults. *)
Definition reencoded (v : json) : Prop :=
  exists x : Component E,
    _component_factory v = Ok x /\ JObj (to_dict x) = with_defaults v.
End reencoding.

(** ** Instances and [==]

    A Python object has an identity, [id(x)].  A class that defines no
    [__eq__] inherits [object.__eq__], under which [a == b] holds exactly
    when [a is b].  [SelectOption] defines [__init__], [__repr__], [__str__],
    [from_dict] and [to_dict], and no [__eq__]. *)

Record instance (A : Type) := {
  id_ : nat;
  attributes : A;
}.
Arguments id_ {A} _.
Arguments attributes {A} _.

(** A constructor call: the new object takes the next free identity. *)
Definition construct {A} (attributes : A) (next_id : nat) : instance A * nat :=
  ({| id_ := next_id; attributes := attributes |}, S next_id).

Module object.
Definition __eq__ {A} (self other : instance A) : bool :=
  Nat.eqb (id_ self) (id_ other).
End object.

(** ** The UI layer ([disnake/ui]) *)

Module ButtonComponent := Button.
Module UrlButtonComponent := UrlButton.

(** A method that mutates [self] and may raise: the exception, if any, and
    the state of [self] when the method is left. *)
Definition method (S A : Type) : Type := S -> result A * S.

(** [l.insert(index, x)] of a Python list: a negative index counts from the
    end, and an index out of range is clamped. *)
Definition list_insert_py {A} (index : Z) (x : A) (l : list A) : list A :=
  let n := Z.of_nat (length l) in
  let i := if index <? 0 then index + n else index in
  let i := if i <? 0 then 0 else if i >? n then n else i in
  take (Z.to_nat i) l ++ x :: drop (Z.to_nat i) l.

(** [l.remove(x)] of a Python list: the first element equal to [x] is
    removed; [None] stands for the [ValueError] raised when there is none. *)
Fixpoint list_remove_py `{EqDecision A} (x : A) (l : list A) : option (list A) :=
  match l with
  | [] => None
  | y :: l' => if decide (y = x) then Some l' else (y ::.) <$> list_remove_py x l'
  end.

(** The position that the subscript [l[index]] of a list of length [n]
    reads: a negative index counts from the end; [None] stands for the
    [IndexError] of an index out of range. *)
Definition py_index (n : Z) (index : Z) : option nat :=
  let i := if index <? 0 then index + n else index in
  if (i <? 0) || (i >=? n) then None else Some (Z.to_nat i).

(** The exceptions of the methods that subscript the children:
    [IndexError], or one of [exn]. *)
Inductive list_exn :=
| IndexError
| Exn (e : exn).

Inductive outcome (A : Type) :=
| Returned (a : A)
| Raised (e : list_exn).
Arguments Returned {A} a.
Arguments Raised {A} e.

(** [typing.TYPE_CHECKING]: a constant of the Python standard library,
    [True] for a static type checker and [False] when the program runs. *)
Module typing.
Definition TYPE_CHECKING : bool := false.
End typing.

Module ui.

(** The abstract property [width] of [WrappedComponent]. *)
Module WrappedComponent.
Class t (W : Type) := { width : W -> Z }.
End WrappedComponent.

(** The emoji argument of the constructors: a [str], an [_EmojiTag] object
    given by the [PartialEmoji] its [_to_partial()] returns, or an object
    of another class. *)
Inductive emoji_arg (E : Type) :=
| emoji_str (s : string)
| emoji_tag (e : E)
| emoji_other.
Arguments emoji_str {E} s.
Arguments emoji_tag {E} e.
Arguments emoji_other {E}.

Definition normalize_emoji `{PartialEmojiLike E} (emoji : option (emoji_arg E))
    : result (option E) :=
  match emoji with
  | None => Ok None
  | Some (emoji_str s) => Ok (Some (emoji_from_str s))
  | Some (emoji_tag e) => Ok (Some e)
  | Some emoji_other => Raise TypeError
  end.

(** The setter of [Item.row]. *)
Definition check_row (value : option Z) : result (option Z) :=
  match value with
  | None => Ok None
  | Some v => if (5 >? v) && (v >=? 0) then Ok (Some v) else Raise ValueError
  end.

Module Button.
Record t (E : Type) := {
  _underlying : ButtonComponent.t E;
  _row : option Z;
  _provided_custom_id : bool;
}.
Arguments _underlying {E} _.
Arguments _row {E} _.
Arguments _provided_custom_id {E} _.

(** [Button.__init__]; [token] is the value of [os.urandom(16).hex()]. *)
Definition __init__ `{PartialEmojiLike E} (token : string)
    (style : Z) (label : option string) (disabled : bool)
    (custom_id : option string) (emoji : option (emoji_arg E))
    (row : option Z) : result (t E) :=
  let provided := match custom_id with Some _ => true | None => false end in
  let custom_id := match custom_id with Some c => c | None => token end in
  if style =? ButtonStyle.url then Raise ValueError
  else
    emoji ← normalize_emoji emoji;
    let underlying :=
      {| ButtonComponent.style := style;
         ButtonComponent.custom_id := custom_id;
         ButtonComponent.disabled := disabled;
         ButtonComponent.label := label;
         ButtonComponent.emoji := emoji |} in
    row ← check_row row;
    Ok {| _underlying := underlying; _row := row; _provided_custom_id := provided |}.

#[global] Instance wrapped {E} : WrappedComponent.t (t E) :=
  {| WrappedComponent.width _ := 1 |}.

(** [Button.from_component]: the constructor is called with the attributes
    of the component, its emoji being a [PartialEmoji] or [None]. *)
Definition from_component `{PartialEmojiLike E} (token : string)
    (button : ButtonComponent.t E) : result (t E) :=
  __init__ token (ButtonComponent.style button) (ButtonComponent.label button)
    (ButtonComponent.disabled button) (Some (ButtonComponent.custom_id button))
    (emoji_tag <$> ButtonComponent.emoji button) None.

(** The property [persistent] of [Item]. *)
Definition persistent {E} (self : t E) : bool := _provided_custom_id self.
End Button.

Module UrlButton.
Record t (E : Type) := {
  _underlying : UrlButtonComponent.t E;
  _row : option Z;
}.
Arguments _underlying {E} _.
Arguments _row {E} _.

Definition __init__ `{PartialEmojiLike E}
    (url : string) (label : option string) (disabled : bool)
    (emoji : option (emoji_arg E)) (row : option Z) : result (t E) :=
  emoji ← normalize_emoji emoji;
  let underlying :=
    {| UrlButtonComponent.url := url;
       UrlButtonComponent.disabled := disabled;
       UrlButtonComponent.label := label;
       UrlButtonComponent.emoji := emoji |} in
  row ← check_row row;
  Ok {| _underlying := underlying; _row := row |}.

#[global] Instance wrapped {E} : WrappedComponent.t (t E) :=
  {| WrappedComponent.width _ := 1 |}.

Definition from_component `{PartialEmojiLike E}
    (button : UrlButtonComponent.t E) : result (t E) :=
  __init__ (UrlButtonComponent.url button) (UrlButtonComponent.label button)
    (UrlButtonComponent.disabled button)
    (emoji_tag <$> UrlButtonComponent.emoji button) None.
End UrlButton.

(** An item that carries nothing but a name and its width: the instance on
    which the packing is run. *)
#[global] Instance named_item : WrappedComponent.t (string * Z) :=
  {| WrappedComponent.width item := item.2 |}.

(** An item known by its name, of width 1 like every item class. *)
#[global] Instance unit_item : WrappedComponent.t string :=
  {| WrappedComponent.width _ := 1 |}.

(** [X] is one of the component classes a row of [W] holds. *)
Class Holds (W X : Type) := hold : X -> W.

Module ActionRow.
Record t (W : Type) := { _children : list W }.
Arguments _children {W} _.

(** An argument of the constructor: a component, or an object that fails
    [isinstance(component, Componentish)]. *)
Inductive member (W : Type) :=
| Item (component : W)
| NotComponent.
Arguments Item {W} component.
Arguments NotComponent {W}.

Section methods.
Context `{WrappedComponent.t W}.

(** [ActionRow()] *)
Definition empty : t W := {| _children := [] |}.

Definition __len__ (self : t W) : Z := Z.of_nat (length (_children self)).

(** [sum(child.width for child in children)] *)
Definition total_width (children : list W) : Z :=
  foldr (fun child acc => WrappedComponent.width child + acc) 0 children.

Definition width (self : t W) : Z := total_width (_children self).

(** The capacity invariant of a row. *)
Definition capacity (self : t W) : Prop := width self <= 5.

Definition insert_item (index : Z) (item : W) : method (t W) unit :=
  fun self =>
    if width self + WrappedComponent.width item >? 5 then (Raise ValueError, self)
    else (Ok tt, {| _children := list_insert_py index item (_children self) |}).

Definition append_item (item : W) : method (t W) unit :=
  fun self => insert_item (__len__ self) item self.

(** The loop of [__init__]. *)
Fixpoint append_all (components : list (member W)) : method (t W) unit :=
  fun self =>
    match components with
    | [] => (Ok tt, self)
    | NotComponent :: _ => (Raise TypeError, self)
    | Item component :: rest =>
        match append_item component self with
        | (Ok _, self) => append_all rest self
        | (Raise e, self) => (Raise e, self)
        end
    end.

(** The constructor [ActionRow], called on the tuple [components]. *)
Definition __init__ (components : list (member W)) : result (t W) :=
  match append_all components empty with
  | (Ok _, self) => Ok self
  | (Raise e, _) => Raise e
  end.

(** The shape shared by the [add_*] helpers: build the item, then
    [insert_item] it at [index], or at [len(self)] when no index is given.
    An exception of the item's constructor leaves before [self] is
    touched. *)
Definition add_item {X} `{Holds W X} (index : option Z) (item : result X)
    : method (t W) unit :=
  fun self =>
    match item with
    | Ok x =>
        insert_item (match index with Some i => i | None => __len__ self end)
          (hold x) self
    | Raise e => (Raise e, self)
    end.

Definition add_button `{PartialEmojiLike E} `{Holds W (Button.t E)}
    (token : string) (index : option Z) (style : Z) (label : option string)
    (disabled : bool) (custom_id : option string)
    (emoji : option (emoji_arg E)) : method (t W) unit :=
  add_item index (Button.__init__ token style label disabled custom_id emoji None).

Definition add_url_button `{PartialEmojiLike E} `{Holds W (UrlButton.t E)}
    (index : option Z) (url : string) (label : option string)
    (disabled : bool) (emoji : option (emoji_arg E)) : method (t W) unit :=
  add_item index (UrlButton.__init__ url label disabled emoji None).
End methods.

Section removal.
Context {W : Type} `{EqDecision W}.

Definition clear_items : method (t W) unit :=
  fun self => (Ok tt, {| _children := [] |}).

(** [self._children.remove(item)]; the elements are compared with [==],
    which for the item classes is identity: the equality of [W]. *)
Definition remove_item (item : W) : method (t W) unit :=
  fun self =>
    match list_remove_py item (_children self) with
    | Some children => (Ok tt, {| _children := children |})
    | None => (Raise ValueError, self)
    end.

(** [self[index]] for an [int] index. *)
Definition __getitem__ (index : Z) (self : t W) : outcome W :=
  match py_index (Z.of_nat (length (_children self))) index with
  | Some i =>
      match _children self !! i with
      | Some component => Returned component
      | None => Raised IndexError
      end
  | None => Raised IndexError
  end.

(** [self.remove_item(component := self[index]); return component] *)
Definition pop (index : Z) (self : t W) : outcome W * t W :=
  match __getitem__ index self with
  | Returned component =>
      match remove_item component self with
      | (Ok _, self) => (Returned component, self)
      | (Raise e, self) => (Raised (Exn e), self)
      end
  | Raised e => (Raised e, self)
  end.

(** [walk_components]: the pairs the generator yields, in order. *)
Definition walk_components (action_rows : list (t W)) : list (t W * W) :=
  row ← action_rows; component ← _children row; [(row, component)].
End removal.
End ActionRow.

(** *** [components_to_rows] *)

(** An element of the sequence [components]. *)
Inductive entry (W : Type) :=
| Wrapped (component : W)
| Row (row : ActionRow.t W)
| Seq (components : list (ActionRow.member W))
| Other.
Arguments Wrapped {W} component.
Arguments Row {W} row.
Arguments Seq {W} components.
Arguments Other {W}.

(** The argument of [components_to_rows]: a single component or row, which
    fails [isinstance(components, Sequence)], or a sequence of entries. *)
Inductive NestedComponents (W : Type) :=
| a_component (component : W)
| an_action_row (row : ActionRow.t W)
| a_sequence (components : list (entry W)).
Arguments a_component {W} component.
Arguments an_action_row {W} row.
Arguments a_sequence {W} components.

(** The global names of [disnake/ui/action_row.py].

    [imported_names] are the names bound by the imports of lines 3-42 and
    [defined_names] the names bound by the assignments, the class and the
    two functions of the module.  The imports of the block
    [if TYPE_CHECKING:] (lines 44-50) are executed only under a type
    checker. *)
Definition imported_names : list string :=
  [ "annotations"; "TYPE_CHECKING"; "Any"; "ClassVar"; "Generator"; "Generic";
    "Iterator"; "List"; "Literal"; "Optional"; "Sequence"; "Tuple"; "Type";
    "TypeVar"; "Union"; "overload";
    "ActionRowComponent"; "ActionRowish"; "Componentish"; "NestedComponents";
    "ButtonComponent"; "ChannelSelectComponent"; "MentionableSelectComponent";
    "RoleSelectComponent"; "StringSelectComponent"; "UrlButtonComponent";
    "UserSelectComponent";
    "ButtonStyle"; "ChannelType"; "ComponentType"; "TextInputStyle";
    "MISSING"; "SequenceProxy"; "assert_never";
    "Button"; "UrlButton"; "WrappedComponent"; "WrappedComponentishT";
    "ChannelSelect"; "MentionableSelect"; "RoleSelect"; "StringSelect";
    "UserSelect"; "SelectOptionInput"; "V"; "TextInput" ].

Definition type_checking_names : list string :=
  [ "Self"; "Emoji"; "Message"; "PartialEmoji"; "ActionRowPayload";
    "ConstrainedComponentPayloadT" ].

Definition defined_names : list string :=
  [ "__all__"; "AnyButton"; "AnySelect"; "MessageComponent"; "ModalComponent";
    "StrictComponentT"; "UIComponentT"; "ButtonCompatibleActionRowT";
    "SelectCompatibleActionRowT"; "TextInputCompatibleActionRowT";
    "ActionRow"; "components_to_rows"; "components_to_dict" ].

Definition module_globals : list string :=
  imported_names
  ++ (if typing.TYPE_CHECKING then type_checking_names else [])
  ++ defined_names.

(** Reading the global [name] in a function body: [NameError] when the
    module does not bind it (none of the names read below is a builtin). *)
Definition load_global (name : string) : result unit :=
  if decide (name ∈ module_globals) then Ok tt else Raise (NameError name).

Section packing.
Context `{WrappedComponent.t W}.

(** [if not isinstance(components, Sequence): components = [components]] *)
Definition normalize (components : NestedComponents W) : list (entry W) :=
  match components with
  | a_component c => [Wrapped c]
  | an_action_row r => [Row r]
  | a_sequence cs => cs
  end.

(** The local variables [action_rows] and [auto_row]. *)
Definition locals : Type := list (ActionRow.t W) * ActionRow.t W.

(** One iteration of the loop. *)
Definition step (st : locals) (component : entry W) : result locals :=
  let '(action_rows, auto_row) := st in
  match component with
  | Wrapped c =>
      match ActionRow.append_item c auto_row with
      | (Ok _, auto_row) => Ok (action_rows, auto_row)
      | (Raise ValueError, auto_row) =>
          let action_rows := action_rows ++ [auto_row] in
          auto_row ← ActionRow.__init__ [ActionRow.Item c];
          Ok (action_rows, auto_row)
      | (Raise e, _) => Raise e
      end
  | _ =>
      let '(action_rows, auto_row) :=
        if ActionRow.width auto_row >? 0
        then (action_rows ++ [auto_row], ActionRow.empty)
        else (action_rows, auto_row) in
      match component with
      | Row r => Ok (action_rows ++ [r], auto_row)
      | Seq cs =>
          r ← ActionRow.__init__ cs;
          Ok (action_rows ++ [r], auto_row)
      | _ => Raise TypeError
      end
  end.

Fixpoint loop (components : list (entry W)) (st : locals) : result locals :=
  match components with
  | [] => Ok st
  | component :: rest => st ← step st component; loop rest st
  end.

(** Lines 859-887: the loop over [components] and the final seal, entered
    with [action_rows] empty and the row bound to [auto_row]. *)
Definition pack (auto_row : ActionRow.t W) (components : list (entry W))
    : result (list (ActionRow.t W)) :=
  '(action_rows, auto_row) ← loop components ([], auto_row);
  if ActionRow.width auto_row >? 0
  then Ok (action_rows ++ [auto_row])
  else Ok action_rows.

(** Line 857, [auto_row = ActionRow[ConstrainedComponentPayloadT]()], reads
    the globals [ActionRow] and [ConstrainedComponentPayloadT] before it
    subscripts the class and calls the result. *)
Definition components_to_rows (components : NestedComponents W)
    : result (list (ActionRow.t W)) :=
  let components := normalize components in
  _ ← load_global "ActionRow";
  _ ← load_global "ConstrainedComponentPayloadT";
  auto_row ← ActionRow.__init__ [];
  pack auto_row components.

(** The components of an entry, and of the input, in order. *)
Definition items_of (ms : list (ActionRow.member W)) : list W :=
  omap (fun m => match m with ActionRow.Item c => Some c
                           | ActionRow.NotComponent => None end) ms.

Definition flatten_entry (component : entry W) : list W :=
  match component with
  | Wrapped c => [c]
  | Row r => ActionRow._children r
  | Seq cs => items_of cs
  | Other => []
  end.

Definition flatten (components : list (entry W)) : list W :=
  concat (map flatten_entry components).

(** The plain components of the input, which the auto row takes. *)
Definition plain_items (components : list (entry W)) : list W :=
  omap (fun e => match e with Wrapped c => Some c | _ => None end) components.

(** The components held by the local variables, in order. *)
Definition content (st : locals) : list W :=
  concat (map ActionRow._children st.1) ++ ActionRow._children st.2.

(** A row all of whose components have a positive width. *)
Definition positive (row : ActionRow.t W) : Prop :=
  Forall (fun c => 0 < WrappedComponent.width c) (ActionRow._children row).

(** The rows the caller built and passes through. *)
Definition explicit_rows (components : list (entry W)) : list (ActionRow.t W) :=
  omap (fun e => match e with Row r => Some r | _ => None end) components.
End packing.

Section acceptance.
Context `{WrappedComponent.t W}.

(** The sequences that the constructor of [ActionRow] takes: components
    only, of a total width of at most 5. *)
Definition fits_a_row (components : list (ActionRow.member W)) : Prop :=
  (ActionRow.NotComponent ∉ components)
  /\ ActionRow.total_width (items_of components) <= 5.

(** Components of width 1, as every item class declares. *)
Definition unit_widths (l : list W) : Prop :=
  Forall (fun c => WrappedComponent.width c = 1) l.

(** The entries that [components_to_rows] takes. *)
Definition accepted (component : entry W) : Prop :=
  match component with
  | Wrapped c => WrappedComponent.width c <= 5
  | Row _ => True
  | Seq cs => fits_a_row cs
  | Other => False
  end.
End acceptance.

(** *** Encoding rows *)

(** The property [_underlying] of a wrapped component. *)
Class Underlying (W E : Type) := _underlying : W -> Component E.

#[global] Instance Button_underlying {E} : Underlying (Button.t E) E :=
  fun self => Button_ (Button._underlying self).

#[global] Instance UrlButton_underlying {E} : Underlying (UrlButton.t E) E :=
  fun self => UrlButton_ (UrlButton._underlying self).

Section encoding.
Context `{WrappedComponent.t W} `{PartialEmojiLike E} `{Underlying W E}.

(** [ActionRow._underlying] *)
Definition row_underlying (self : ActionRow.t W) : Component E :=
  ActionRow_ (map _underlying (ActionRow._children self)).

(** [ActionRow.to_dict] *)
Definition row_to_dict (self : ActionRow.t W) : dict :=
  to_dict (row_underlying self).

Definition components_to_dict (components : NestedComponents W)
    : result (list dict) :=
  rows ← components_to_rows components;
  Ok (map row_to_dict rows).
End encoding.

(** *** Sequences of calls on a row *)

(** A call of one of the mutating methods of [ActionRow]. *)
Inductive call (W : Type) :=
| call_insert_item (index : Z) (item : W)
| call_append_item (item : W)
| call_clear_items
| call_remove_item (item : W)
| call_pop (index : Z).
Arguments call_insert_item {W} index item.
Arguments call_append_item {W} item.
Arguments call_clear_items {W}.
Arguments call_remove_item {W} item.
Arguments call_pop {W} index.

Section calls.
Context `{WrappedComponent.t W} `{EqDecision W}.

(** The row after a call, whether the call raised or not. *)
Definition after_call (self : ActionRow.t W) (c : call W) : ActionRow.t W :=
  match c with
  | call_insert_item index item => (ActionRow.insert_item index item self).2
  | call_append_item item => (ActionRow.append_item item self).2
  | call_clear_items => (ActionRow.clear_items self).2
  | call_remove_item item => (ActionRow.remove_item item self).2
  | call_pop index => (ActionRow.pop index self).2
  end.

(** The row after a sequence of calls, the caller catching what they
    raise. *)
Definition after_calls (self : ActionRow.t W) (cs : list (call W)) : ActionRow.t W :=
  foldl after_call self cs.
End calls.
End ui.

(** ** [disnake/mixins.py] *)

Module mixins.
Section classes.
(** The classes of the objects compared, with [issubclass]. *)
Context {class : Type} `{EqDecision class} (issubclass : class -> class -> bool).

(** An object with an [id] attribute. *)
Record object := {
  __class__ : class;
  id : Z;
}.

(** [isinstance(other, cls)] *)
Definition isinstance (other : object) (cls : class) : bool :=
  issubclass (__class__ other) cls.

Definition __eq__ (self other : object) : bool :=
  isinstance other (__class__ self) && (id self =? id other).

Definition __ne__ (self other : object) : bool :=
  negb (isinstance other (__class__ self)) || negb (id self =? id other).

Definition __hash__ (self : object) : Z := Z.shiftr (id self) 22.

(** The operators [a == b] and [a != b].  Python tries the method of the
    right operand first when the class of [b] is a proper subclass of the
    class of [a], and the method of the left operand first otherwise; the
    two methods above return a [bool] for every argument, never
    [NotImplemented], so the method that is tried first gives the result. *)
Definition proper_subclass (k1 k2 : class) : bool :=
  negb (bool_decide (k1 = k2)) && issubclass k1 k2.

Definition eq_op (a b : object) : bool :=
  if proper_subclass (__class__ b) (__class__ a) then __eq__ b a else __eq__ a b.

Definition ne_op (a b : object) : bool :=
  if proper_subclass (__class__ b) (__class__ a) then __ne__ b a else __ne__ a b.
End classes.
End mixins.

(** ** Concrete values on which the codec is run *)

Definition sample_option : SelectOption.t string :=
  {| SelectOption.label := "Red"; SelectOption.value := "r";
     SelectOption.description := Some "a colour";
     SelectOption.emoji := Some "*"; SelectOption.default := false |}.

Definition sample_row : Component string :=
  ActionRow_
    [ Button_ {| Button.style := 1; Button.custom_id := "go";
                 Button.disabled := false; Button.label := Some "Go";
                 Button.emoji := None |};
      UrlButton_ {| UrlButton.url := "https://example.org";
                    UrlButton.disabled := true; UrlButton.label := None;
                    UrlButton.emoji := Some "*" |};
      StringSelectMenu_
        {| StringSelectMenu.base :=
             {| BaseSelectMenu.custom_id := "pick";
                BaseSelectMenu.placeholder := Some "choose";
                BaseSelectMenu.min_values := 1; BaseSelectMenu.max_values := 2;
                BaseSelectMenu.disabled := false |};
           StringSelectMenu.options := [sample_option] |};
      ChannelSelectMenu_
        {| ChannelSelectMenu.base :=
             {| BaseSelectMenu.custom_id := "chan";
                BaseSelectMenu.placeholder := None;
                BaseSelectMenu.min_values := 1; BaseSelectMenu.max_values := 1;
                BaseSelectMenu.disabled := false |};
           ChannelSelectMenu.channel_types := Some [0; 5] |} ].

Definition item (name : string) : string * Z := (name, 1).

Definition sample_explicit_row : ui.ActionRow.t (string * Z) :=
  {| ui.ActionRow._children := [item "c"; item "d"] |}.

Definition sample_input : ui.NestedComponents (string * Z) :=
  ui.a_sequence
    [ ui.Wrapped (item "a"); ui.Wrapped (item "b"); ui.Row sample_explicit_row;
      ui.Wrapped (item "e") ].

Definition sample_full_row : ui.ActionRow.t (string * Z) :=
  {| ui.ActionRow._children :=
       [item "a"; item "b"; item "c"; item "d"; item "e"] |}.

Definition sample_six_items : list (string * Z) :=
  [item "a"; item "b"; item "c"; item "d"; item "e"; item "f"].

(** Six plain items. *)
Definition sample_six : ui.NestedComponents (string * Z) :=
  ui.a_sequence (ui.Wrapped <$> sample_six_items).

(** A literal list of six items, passed as one group. *)
Definition sample_literal_six : ui.NestedComponents (string * Z) :=
  ui.a_sequence [ui.Seq (ui.ActionRow.Item <$> sample_six_items)].


(** A plain item, a literal list of two items and a plain item. *)
Definition sample_nested : ui.NestedComponents (string * Z) :=
  ui.a_sequence
    [ ui.Wrapped (item "a");
      ui.Seq [ui.ActionRow.Item (item "b"); ui.ActionRow.Item (item "c")];
      ui.Wrapped (item "d") ].

Definition sample_button : ui.Button.t string :=
  {| ui.Button._underlying :=
       {| Button.style := 1; Button.custom_id := "go"; Button.disabled := false;
          Button.label := Some "Go"; Button.emoji := None |};
     ui.Button._row := None;
     ui.Button._provided_custom_id := true |}.

(** A row on the wire: a button and a string select with one option, none
    of them carrying a defaulted key; and the same row with the defaults. *)
Definition sample_wire_row : dict :=
  {[ "type" := JInt 1;
     "components" :=
       JList
         [ JObj {[ "type" := JInt 2; "style" := JInt 1; "custom_id" := JStr "x" ]};
           JObj {[ "type" := JInt 3; "custom_id" := JStr "pick";
                   "options" :=
                     JList [ JObj {[ "label" := JStr "Red"; "value" := JStr "r" ]} ] ]} ] ]}.

Definition sample_wire_row_reencoded : dict :=
  {[ "type" := JInt 1;
     "components" :=
       JList
         [ JObj {[ "type" := JInt 2; "style" := JInt 1; "custom_id" := JStr "x";
                   "disabled" := JBool false ]};
           JObj {[ "type" := JInt 3; "custom_id" := JStr "pick";
                   "min_values" := JInt 1; "max_values" := JInt 1;
                   "disabled" := JBool false;
                   "options" :=
                     JList [ JObj {[ "label" := JStr "Red"; "value" := JStr "r";
                                     "default" := JBool false ]} ] ]} ] ]}.

(** Two classes, the second a subclass of the first. *)
Definition sample_issubclass (k1 k2 : bool) : bool := implb k2 k1.

(** * Properties *)

#[export] Instance unicode_emoji_laws : PartialEmojiLaws string.
Proof. intros e. reflexivity. Qed.

(** *** Equations of the factory *)

Lemma sequence_map {A B} (f : A -> result B) (l : list A) :
  sequence (map f l) = mapM f l.
Proof.
  induction l as [|x l IH]; simpl; [reflexivity|].
  rewrite IH. reflexivity.
Qed.

Lemma _component_factory_unfold `{PartialEmojiLike E} (payload : dict) :
  _component_factory (JObj payload)
  = factory_body (ActionRowComponent.from_payload payload) payload.
Proof.
  cbn [_component_factory]. f_equal.
  unfold ActionRowComponent.from_payload. rewrite lookup_fmap.
  destruct (payload !! "components") as [v|]; simpl; [|reflexivity].
  destruct v; simpl; try reflexivity.
  rewrite sequence_map. reflexivity.
Qed.

(** *** Tactics and list lemmas shared by the codec proofs *)

Ltac unfold_getters :=
  unfold getitem, get_bool, get_int, get_opt_str, get_opt_int,
    emoji_of_payload, contains, set_emoji, set_str, set_some.

(** A key is none of the keys of a list. *)
Ltac not_a_key :=
  rewrite !not_elem_of_cons; repeat split;
  first [discriminate | congruence | apply not_elem_of_nil].

Lemma Component_ind' {E} (P : Component E -> Prop) :
  (forall children, Forall P children -> P (ActionRow_ children)) ->
  (forall b, P (UrlButton_ b)) ->
  (forall b, P (Button_ b)) ->
  (forall s, P (StringSelectMenu_ s)) ->
  (forall t, P (TextInput_ t)) ->
  (forall s, P (UserSelectMenu_ s)) ->
  (forall s, P (RoleSelectMenu_ s)) ->
  (forall s, P (MentionableSelectMenu_ s)) ->
  (forall s, P (ChannelSelectMenu_ s)) ->
  forall x, P x.
Proof.
  intros Hrow Hurl Hbtn Hstr Htxt Husr Hrol Hmen Hchn.
  fix IH 1.
  intros [children|b|b|s|t|s|s|s|s];
    [|apply Hurl|apply Hbtn|apply Hstr|apply Htxt|apply Husr|apply Hrol
     |apply Hmen|apply Hchn].
  apply Hrow. induction children as [|c cs IHcs]; constructor.
  - apply IH.
  - exact IHcs.
Qed.

Lemma mapM_map_Ok {A B} (f : B -> result A) (g : A -> B) (l : list A) :
  Forall (fun x => f (g x) = Ok x) l -> mapM f (map g l) = Ok l.
Proof.
  induction 1 as [|x l Hx _ IH]; simpl; [reflexivity|].
  rewrite Hx. simpl. rewrite IH. reflexivity.
Qed.

Lemma forallb_Forall {A} (p : A -> bool) (l : list A) :
  forallb p l = true -> Forall (fun x => p x = true) l.
Proof.
  induction l as [|x l IH]; simpl; intros Hl; constructor;
    apply andb_prop in Hl; tauto.
Qed.

(** *** Round trip of each variant *)

Section roundtrip.
Context `{PartialEmojiLaws E}.

Lemma SelectOption_roundtrip (o : SelectOption.t E) :
  option_kept o = true ->
  SelectOption.from_dict (SelectOption.to_dict o) = Ok o.
Proof.
  unfold option_kept. intros [Hk Hd]%andb_prop. revert Hk Hd.
  destruct o as [label value [[|a s]|] [e|] dflt];
    cbn [SelectOption.emoji SelectOption.description str_kept emoji_kept
         str_truthy];
    intros Hk Hd; try discriminate;
    unfold SelectOption.to_dict, SelectOption.from_dict, SelectOption.__init__;
    unfold_getters;
    cbn [SelectOption.label SelectOption.value SelectOption.description
         SelectOption.emoji SelectOption.default str_truthy];
    rewrite ?Hk; simplify_map_eq; rewrite ?emoji_from_to; reflexivity.
Qed.

Lemma UrlButton_roundtrip (b : UrlButton.t E) :
  str_kept (UrlButton.label b) && emoji_kept (UrlButton.emoji b) = true ->
  UrlButton.from_payload (UrlButton.to_dict b) = Ok b.
Proof.
  destruct b as [url dis [[|a s]|] [e|]];
    cbn [UrlButton.label UrlButton.emoji str_kept emoji_kept str_truthy andb];
    intros Hk; try discriminate;
    unfold UrlButton.to_dict, UrlButton.from_payload; unfold_getters;
    cbn [UrlButton.label UrlButton.emoji UrlButton.url UrlButton.disabled
         str_truthy];
    rewrite ?Hk; simplify_map_eq; rewrite ?emoji_from_to; reflexivity.
Qed.

Lemma Button_roundtrip (b : Button.t E) :
  str_kept (Button.label b) && emoji_kept (Button.emoji b) = true ->
  Button.from_payload (Button.to_dict b) = Ok b.
Proof.
  destruct b as [style cid dis [[|a s]|] [e|]];
    cbn [Button.label Button.emoji str_kept emoji_kept str_truthy andb];
    intros Hk; try discriminate;
    unfold Button.to_dict, Button.from_payload; unfold_getters;
    cbn [Button.label Button.emoji Button.style Button.custom_id
         Button.disabled str_truthy];
    rewrite ?Hk; simplify_map_eq; rewrite ?emoji_from_to; reflexivity.
Qed.

Lemma BaseSelectMenu_roundtrip (type : Z) (s : BaseSelectMenu.t) :
  select_kept s = true ->
  BaseSelectMenu.from_payload (BaseSelectMenu.to_dict type s) = Ok s.
Proof.
  unfold select_kept.
  destruct s as [cid [[|a p]|] mn mx dis];
    cbn [BaseSelectMenu.placeholder str_kept str_truthy];
    intros Hk; try discriminate;
    unfold BaseSelectMenu.to_dict, BaseSelectMenu.from_payload; unfold_getters;
    cbn [BaseSelectMenu.placeholder BaseSelectMenu.custom_id
         BaseSelectMenu.min_values BaseSelectMenu.max_values
         BaseSelectMenu.disabled str_truthy];
    simplify_map_eq; reflexivity.
Qed.

(** Overwriting [type] or adding a key the base decoder does not read does
    not change what it decodes. *)
Lemma BaseSelectMenu_from_payload_insert (k : string) (v : json) (payload : dict) :
  k <> "custom_id" -> k <> "placeholder" -> k <> "min_values" ->
  k <> "max_values" -> k <> "disabled" ->
  BaseSelectMenu.from_payload (<[k := v]> payload)
  = BaseSelectMenu.from_payload payload.
Proof.
  intros. unfold BaseSelectMenu.from_payload; unfold_getters.
  rewrite !lookup_insert_ne by done. reflexivity.
Qed.

Lemma options_roundtrip (l : list (SelectOption.t E)) :
  forallb option_kept l = true ->
  mapM StringSelectMenu.option_from_json
    (map (fun op => JObj (SelectOption.to_dict op)) l) = Ok l.
Proof.
  intros Hl. apply mapM_map_Ok.
  eapply Forall_impl; [apply forallb_Forall, Hl|].
  intros o Ho. simpl. apply SelectOption_roundtrip, Ho.
Qed.

Lemma StringSelectMenu_roundtrip (s : StringSelectMenu.t E) :
  select_kept (StringSelectMenu.base s)
  && forallb option_kept (StringSelectMenu.options s) = true ->
  StringSelectMenu.from_payload (StringSelectMenu.to_dict s) = Ok s.
Proof.
  destruct s as [base opts]. cbn [StringSelectMenu.base StringSelectMenu.options].
  intros [Hb Ho]%andb_prop.
  unfold StringSelectMenu.to_dict, StringSelectMenu.from_payload.
  cbn [StringSelectMenu.base StringSelectMenu.options].
  rewrite !BaseSelectMenu_from_payload_insert by done.
  rewrite BaseSelectMenu_roundtrip by exact Hb. cbn [mbind result_bind].
  rewrite lookup_insert_eq. unfold fmap, list_fmap.
  fold (map (fun op : SelectOption.t E => JObj (SelectOption.to_dict op)) opts).
  rewrite options_roundtrip by exact Ho. reflexivity.
Qed.
Lemma channel_types_roundtrip (l : list Z) :
  mapM (fun t => try_enum <$> as_int t) (JInt <$> l) = Ok l.
Proof.
  induction l as [|t l IH]; [reflexivity|].
  cbn [fmap list_fmap mapM as_int result_fmap mbind result_bind try_enum] in *.
  rewrite IH. reflexivity.
Qed.

Lemma ChannelSelectMenu_roundtrip (s : ChannelSelectMenu.t) :
  select_kept (ChannelSelectMenu.base s)
  && match ChannelSelectMenu.channel_types s with Some [] => false | _ => true end
  = true ->
  ChannelSelectMenu.from_payload (ChannelSelectMenu.to_dict s) = Ok s.
Proof.
  destruct s as [base types].
  cbn [ChannelSelectMenu.base ChannelSelectMenu.channel_types].
  intros [Hb Ht]%andb_prop.
  unfold ChannelSelectMenu.to_dict, ChannelSelectMenu.from_payload.
  cbn [ChannelSelectMenu.base ChannelSelectMenu.channel_types].
  destruct types as [[|t ts]|]; try discriminate.
  - rewrite !BaseSelectMenu_from_payload_insert by done.
    rewrite BaseSelectMenu_roundtrip by exact Hb. cbn [mbind result_bind].
    rewrite lookup_insert_eq.
    change (JList (JInt <$> t :: ts)) with (JList (JInt t :: (JInt <$> ts))).
    cbv iota.
    change (JInt t :: (JInt <$> ts)) with (JInt <$> t :: ts).
    rewrite channel_types_roundtrip. reflexivity.
  - rewrite !BaseSelectMenu_from_payload_insert by done.
    rewrite BaseSelectMenu_roundtrip by exact Hb. cbn [mbind result_bind].
    rewrite lookup_insert_ne by done.
    assert (BaseSelectMenu.to_dict ComponentType.channel_select base
            !! "channel_types" = None) as ->; [|reflexivity].
    unfold BaseSelectMenu.to_dict; unfold_getters.
    destruct (BaseSelectMenu.placeholder base) as [[|a p]|];
      cbn [str_truthy]; simplify_map_eq; reflexivity.
Qed.

Lemma TextInput_roundtrip (t : TextInput.t) :
  TextInput.from_payload (TextInput.to_dict t) = Ok t.
Proof.
  destruct t as [cid style label [mn|] [mx|] req [v|] [p|]]; reflexivity.
Qed.

(** *** The factory on an encoding: dispatch to the decoder of the class *)

Ltac factory_on_encoding :=
  rewrite _component_factory_unfold; unfold factory_body; unfold_getters;
  repeat match goal with
    | |- context [str_truthy ?s] => destruct s; cbn [str_truthy]
    | |- context [emoji_truthy ?e] => destruct (emoji_truthy e)
    end;
  simplify_map_eq; reflexivity.

Lemma factory_UrlButton (b : UrlButton.t E) :
  _component_factory (JObj (UrlButton.to_dict b))
  = UrlButton_ <$> UrlButton.from_payload (UrlButton.to_dict b).
Proof.
  destruct b as [url dis [l|] [e|]]; unfold UrlButton.to_dict;
    cbn [UrlButton.label UrlButton.emoji UrlButton.url UrlButton.disabled];
    factory_on_encoding.
Qed.

Lemma factory_Button (b : Button.t E) :
  _component_factory (JObj (Button.to_dict b))
  = Button_ <$> Button.from_payload (Button.to_dict b).
Proof.
  destruct b as [style cid dis [l|] [e|]]; unfold Button.to_dict;
    cbn [Button.label Button.emoji Button.style Button.custom_id Button.disabled];
    factory_on_encoding.
Qed.

Lemma BaseSelectMenu_to_dict_type (type : Z) (s : BaseSelectMenu.t) :
  BaseSelectMenu.to_dict type s !! "type" = Some (JInt type).
Proof.
  destruct s as [cid [[|a p]|] mn mx dis]; unfold BaseSelectMenu.to_dict;
    unfold_getters; cbn [BaseSelectMenu.placeholder str_truthy];
    simplify_map_eq; reflexivity.
Qed.

Lemma StringSelectMenu_to_dict_type (s : StringSelectMenu.t E) :
  StringSelectMenu.to_dict s !! "type" = Some (JInt ComponentType.string_select).
Proof.
  unfold StringSelectMenu.to_dict.
  rewrite lookup_insert_ne by done. apply lookup_insert_eq.
Qed.

Lemma ChannelSelectMenu_to_dict_type (s : ChannelSelectMenu.t) :
  ChannelSelectMenu.to_dict s !! "type" = Some (JInt ComponentType.channel_select).
Proof.
  unfold ChannelSelectMenu.to_dict.
  destruct (ChannelSelectMenu.channel_types s) as [[|t ts]|];
    rewrite ?(lookup_insert_ne _ "channel_types") by done;
    apply lookup_insert_eq.
Qed.

Lemma factory_BaseSelectMenu (s : BaseSelectMenu.t) :
  _component_factory (E:=E) (JObj (BaseSelectMenu.to_dict ComponentType.user_select s))
  = UserSelectMenu_ <$> BaseSelectMenu.from_payload
      (BaseSelectMenu.to_dict ComponentType.user_select s)
  /\ _component_factory (E:=E) (JObj (BaseSelectMenu.to_dict ComponentType.role_select s))
  = RoleSelectMenu_ <$> BaseSelectMenu.from_payload
      (BaseSelectMenu.to_dict ComponentType.role_select s)
  /\ _component_factory (E:=E)
       (JObj (BaseSelectMenu.to_dict ComponentType.mentionable_select s))
  = MentionableSelectMenu_ <$> BaseSelectMenu.from_payload
      (BaseSelectMenu.to_dict ComponentType.mentionable_select s).
Proof.
  repeat split; rewrite _component_factory_unfold; unfold factory_body, getitem;
    rewrite BaseSelectMenu_to_dict_type; reflexivity.
Qed.

Lemma factory_StringSelectMenu (s : StringSelectMenu.t E) :
  _component_factory (JObj (StringSelectMenu.to_dict s))
  = StringSelectMenu_ <$> StringSelectMenu.from_payload (StringSelectMenu.to_dict s).
Proof.
  rewrite _component_factory_unfold. unfold factory_body, getitem.
  rewrite StringSelectMenu_to_dict_type. reflexivity.
Qed.

Lemma factory_TextInput (t : TextInput.t) :
  _component_factory (E:=E) (JObj (TextInput.to_dict t))
  = TextInput_ <$> TextInput.from_payload (TextInput.to_dict t).
Proof.
  rewrite _component_factory_unfold.
  destruct t as [cid style label [mn|] [mx|] req [v|] [p|]]; reflexivity.
Qed.

Lemma factory_ChannelSelectMenu (s : ChannelSelectMenu.t) :
  _component_factory (E:=E) (JObj (ChannelSelectMenu.to_dict s))
  = ChannelSelectMenu_ <$> ChannelSelectMenu.from_payload (ChannelSelectMenu.to_dict s).
Proof.
  rewrite _component_factory_unfold. unfold factory_body, getitem.
  rewrite ChannelSelectMenu_to_dict_type. reflexivity.
Qed.
End roundtrip.

(** *** The factory on the encoding of a component *)

Lemma factory_roundtrip `{PartialEmojiLaws E} (x : Component E) :
  kept x = true -> _component_factory (JObj (to_dict x)) = Ok x.
Proof.
  induction x as [children IH|b|b|s|t|s|s|s|s] using Component_ind';
    cbn [kept to_dict]; intros Hk.
  - rewrite _component_factory_unfold.
    unfold factory_body, ActionRowComponent.from_payload, getitem.
    simplify_map_eq. cbn [py_eq_int Z.eqb Pos.eqb].
    rewrite mapM_map_Ok; [reflexivity|].
    apply forallb_Forall in Hk. rewrite Forall_forall in *.
    intros c Hc. apply IH; [exact Hc|]. apply Hk, Hc.
  - rewrite factory_UrlButton, UrlButton_roundtrip by exact Hk. reflexivity.
  - rewrite factory_Button, Button_roundtrip by exact Hk. reflexivity.
  - rewrite factory_StringSelectMenu, StringSelectMenu_roundtrip by exact Hk.
    reflexivity.
  - rewrite factory_TextInput, TextInput_roundtrip. reflexivity.
  - destruct (factory_BaseSelectMenu (E:=E) s) as (-> & _ & _).
    rewrite BaseSelectMenu_roundtrip by exact Hk. reflexivity.
  - destruct (factory_BaseSelectMenu (E:=E) s) as (_ & -> & _).
    rewrite BaseSelectMenu_roundtrip by exact Hk. reflexivity.
  - destruct (factory_BaseSelectMenu (E:=E) s) as (_ & _ & ->).
    rewrite BaseSelectMenu_roundtrip by exact Hk. reflexivity.
  - rewrite factory_ChannelSelectMenu, ChannelSelectMenu_roundtrip by exact Hk.
    reflexivity.
Qed.

Lemma ActionRowComponent_roundtrip `{PartialEmojiLaws E} (children : list (Component E)) :
  forallb kept children = true ->
  ActionRowComponent.from_payload (to_dict (ActionRow_ children))
  = Ok (ActionRow_ children).
Proof.
  intros Hk. unfold ActionRowComponent.from_payload. cbn [to_dict].
  simplify_map_eq.
  rewrite mapM_map_Ok; [reflexivity|].
  apply forallb_Forall in Hk. eapply Forall_impl; [exact Hk|].
  intros c Hc. apply factory_roundtrip, Hc.
Qed.

(** C1, as stated, fails: a [Button] whose label is the empty string is
    encoded without a [label] key, and decodes to a [Button] whose label is
    [None]. *)
Lemma decode_encode_empty_label :
  let x := {| Button.style := 1; Button.custom_id := "x";
              Button.disabled := false; Button.label := Some "";
              Button.emoji := @None string |} in
  Button.from_payload (Button.to_dict x) <> Ok x.
Proof. vm_compute. discriminate. Qed.

(** C1, amended: for every component [x] and select option [o] whose
    optional string attributes, emoji and [channel_types] are either [None]
    or truthy (non-empty), decoding the encoding with the decoder of the
    class gives the value back, attribute for attribute; a [TextInput]
    needs no condition. *)
Theorem decode_encode_roundtrip `{PartialEmojiLaws E}
    (x : Component E) (o : SelectOption.t E) :
  kept x = true -> option_kept o = true ->
  from_payload_of x (to_dict x) = Ok x
  /\ SelectOption.from_dict (SelectOption.to_dict o) = Ok o.
Proof.
  intros Hx Ho. split; [|apply SelectOption_roundtrip, Ho].
  destruct x as [children|b|b|s|t|s|s|s|s]; cbn [from_payload_of to_dict kept] in *.
  - apply ActionRowComponent_roundtrip, Hx.
  - rewrite UrlButton_roundtrip by exact Hx. reflexivity.
  - rewrite Button_roundtrip by exact Hx. reflexivity.
  - rewrite StringSelectMenu_roundtrip by exact Hx. reflexivity.
  - rewrite TextInput_roundtrip. reflexivity.
  - rewrite BaseSelectMenu_roundtrip by exact Hx. reflexivity.
  - rewrite BaseSelectMenu_roundtrip by exact Hx. reflexivity.
  - rewrite BaseSelectMenu_roundtrip by exact Hx. reflexivity.
  - rewrite ChannelSelectMenu_roundtrip by exact Hx. reflexivity.
Qed.

Lemma decode_encode_roundtrip_witness :
  kept sample_row = true /\ option_kept sample_option = true
  /\ from_payload_of sample_row (to_dict sample_row) = Ok sample_row
  /\ SelectOption.from_dict (SelectOption.to_dict sample_option) = Ok sample_option.
Proof.
  split; [reflexivity|]. split; [reflexivity|].
  apply (decode_encode_roundtrip sample_row sample_option); reflexivity.
Defined.

(** ** Dispatch of the factory *)

Lemma factory_unknown_tag `{PartialEmojiLike E} (data : dict) (tag : json) :
  data !! "type" = Some tag -> unknown_tag tag ->
  _component_factory (E:=E) (JObj data) = Raise AssertionError.
Proof.
  intros Htag Hun. rewrite _component_factory_unfold.
  unfold factory_body, getitem. rewrite Htag. cbn [mbind result_bind].
  rewrite !Hun by lia. reflexivity.
Qed.

(** C4: the factory decodes a tag-2 payload without a [url] key with the
    decoder of [Button] and a tag-2 payload with a [url] key with the decoder
    of [UrlButton]; on every payload whose tag is none of 1..8 it raises
    (the exhaustiveness check), and returns no component. *)
Theorem factory_disambiguation `{PartialEmojiLike E} (data : dict) :
  (data !! "type" = Some (JInt 2) -> data !! "url" = None ->
   _component_factory (E:=E) (JObj data) = Button_ <$> Button.from_payload data)
  /\ (data !! "type" = Some (JInt 2) -> is_Some (data !! "url") ->
      _component_factory (E:=E) (JObj data)
      = UrlButton_ <$> UrlButton.from_payload data)
  /\ (forall tag, data !! "type" = Some tag -> unknown_tag tag ->
      _component_factory (E:=E) (JObj data) = Raise AssertionError).
Proof.
  repeat split.
  - intros Htag Hurl. rewrite _component_factory_unfold.
    unfold factory_body, getitem, contains. rewrite Htag, Hurl. reflexivity.
  - intros Htag [u Hurl]. rewrite _component_factory_unfold.
    unfold factory_body, getitem, contains. rewrite Htag, Hurl. reflexivity.
  - intros tag. apply factory_unknown_tag.
Qed.

Lemma factory_disambiguation_witness :
  _component_factory (E:=string)
    (JObj {[ "type" := JInt 2; "style" := JInt 1; "custom_id" := JStr "x" ]})
  = Ok (Button_ {| Button.style := 1; Button.custom_id := "x";
                   Button.disabled := false; Button.label := None;
                   Button.emoji := None |})
  /\ _component_factory (E:=string)
       (JObj {[ "type" := JInt 2; "style" := JInt 5; "url" := JStr "u" ]})
     = Ok (UrlButton_ {| UrlButton.url := "u"; UrlButton.disabled := false;
                         UrlButton.label := None; UrlButton.emoji := None |})
  /\ _component_factory (E:=string) (JObj {[ "type" := JInt 99 ]})
     = Raise AssertionError.
Proof.
  split; [|split].
  - destruct (factory_disambiguation (E:=string)
      {[ "type" := JInt 2; "style" := JInt 1; "custom_id" := JStr "x" ]})
      as (Hb & _ & _).
    rewrite Hb; reflexivity.
  - destruct (factory_disambiguation (E:=string)
      {[ "type" := JInt 2; "style" := JInt 5; "url" := JStr "u" ]})
      as (_ & Hu & _).
    rewrite Hu; [reflexivity|reflexivity|].
    exists (JStr "u"). reflexivity.
  - destruct (factory_disambiguation (E:=string) {[ "type" := JInt 99 ]})
      as (_ & _ & Hx).
    apply (Hx (JInt 99)); [reflexivity|].
    intros n Hn. cbn [py_eq_int]. lia.
Defined.

(** ** Defaults of the decoders *)


Lemma required_int (payload : dict) (k : string) :
  required_key payload k is_int = true ->
  exists n, getitem payload k ≫= as_int = Ok n.
Proof.
  unfold required_key, getitem.
  destruct (payload !! k) as [[]|]; try discriminate. eauto.
Qed.






Lemma get_opt_int_absent (payload : dict) (k : string) (r : result (option Z)) :
  payload !! k = None -> get_opt_int payload k = r -> r = Ok None.
Proof. unfold get_opt_int. intros -> <-. reflexivity. Qed.



Lemma bind_Ok {A B} (c : result A) (k : A -> result B) (b : B) :
  c ≫= k = Ok b -> exists a, c = Ok a /\ k a = Ok b.
Proof. destruct c as [a|e]; [eauto|discriminate]. Qed.

Lemma fmap_Ok {A B} (f : A -> B) (c : result A) (b : B) :
  f <$> c = Ok b -> exists a, c = Ok a /\ b = f a.
Proof. destruct c as [a|e]; [|discriminate]. intros [= <-]. eauto. Qed.

(** Split a successful run of a decoder into the successful runs of its
    statements. *)
Ltac invert_binds H :=
  repeat match type of H with
    | _ ≫= _ = Ok _ =>
        let a := fresh "a" in let Ha := fresh "Ha" in
        apply bind_Ok in H as (a & Ha & H)
    end.









(** ** Encoding a decoded payload *)

(** C3, as stated, fails: a button payload without the optional [disabled]
    key decodes, and the encoding of the result carries [disabled], so it is
    not the payload. *)
Lemma encode_decode_adds_disabled :
  let w : dict := {[ "type" := JInt 2; "style" := JInt 1; "custom_id" := JStr "x" ]} in
  exists x : Component string,
    _component_factory (JObj w) = Ok x
    /\ w !! "disabled" = None
    /\ to_dict x !! "disabled" = Some (JBool false)
    /\ to_dict x <> w.
Proof.
  eexists. split; [reflexivity|]. split; [reflexivity|]. split; [reflexivity|].
  intros Heq. apply (f_equal (fun m : dict => m !! "disabled")) in Heq.
  discriminate Heq.
Qed.

(** What the conditions on a valid wire object are for: the decoder takes a
    payload with an empty label, with a [null] label or with a key that the
    declaration does not name, and the encoding of the result holds none of
    them. *)
Lemma invalid_wire_is_not_reproduced :
  let w : dict :=
    {[ "type" := JInt 2; "style" := JInt 1; "custom_id" := JStr "x";
       "disabled" := JBool false ]} in
  let decode_encode (w' : dict) : result dict :=
    to_dict <$> _component_factory (E:=string) (JObj w') in
  decode_encode (<["label" := JStr ""]> w) = Ok w
  /\ decode_encode (<["label" := JNull]> w) = Ok w
  /\ decode_encode (<["flags" := JInt 64]> w) = Ok w.
Proof. repeat split. Qed.

(** *** Re-encoding a valid wire object *)

Lemma required_key_str (w : dict) (k : string) :
  required_key w k is_str = true -> exists s, w !! k = Some (JStr s).
Proof. unfold required_key. destruct (w !! k) as [[]|]; try discriminate. eauto. Qed.

Lemma required_key_int (w : dict) (k : string) :
  required_key w k is_int = true -> exists n, w !! k = Some (JInt n).
Proof. unfold required_key. destruct (w !! k) as [[]|]; try discriminate. eauto. Qed.

Lemma required_key_literal (w : dict) (k : string) (n : Z) :
  required_key w k (is_literal n) = true -> w !! k = Some (JInt n).
Proof.
  unfold required_key. destruct (w !! k) as [[]|]; try discriminate.
  cbn [is_literal]. intros ->%Z.eqb_eq. reflexivity.
Qed.

Lemma required_key_one_of (w : dict) (k : string) (ns : list Z) :
  required_key w k (is_one_of ns) = true -> exists n, w !! k = Some (JInt n).
Proof. unfold required_key. destruct (w !! k) as [[]|]; try discriminate. eauto. Qed.

Lemma optional_key_str (w : dict) (k : string) :
  not_required_key w k is_str = true ->
  w !! k = None \/ exists s, w !! k = Some (JStr s).
Proof. unfold not_required_key. destruct (w !! k) as [[]|]; try discriminate; eauto. Qed.

Lemma optional_key_int (w : dict) (k : string) :
  not_required_key w k is_int = true ->
  w !! k = None \/ exists n, w !! k = Some (JInt n).
Proof. unfold not_required_key. destruct (w !! k) as [[]|]; try discriminate; eauto. Qed.

Lemma optional_key_bool (w : dict) (k : string) :
  not_required_key w k is_bool = true ->
  w !! k = None \/ exists b, w !! k = Some (JBool b).
Proof. unfold not_required_key. destruct (w !! k) as [[]|]; try discriminate; eauto. Qed.

Lemma optional_key_nonempty_str (w : dict) (k : string) :
  not_required_key w k nonempty_str = true ->
  w !! k = None \/ exists a s, w !! k = Some (JStr (String a s)).
Proof.
  unfold not_required_key. destruct (w !! k) as [[| | |[|a s]| |]|]; try discriminate; eauto.
Qed.

Lemma optional_key_emoji `{PartialEmojiLaws E} (w : dict) :
  optional_emoji (E:=E) w ->
  w !! "emoji" = None
  \/ exists e : E, emoji_truthy e = true /\ w !! "emoji" = Some (emoji_to_dict e).
Proof.
  unfold optional_emoji. destruct (w !! "emoji") as [d|]; [|auto].
  intros Hd. destruct (Hd d eq_refl) as (e & He & ->). eauto.
Qed.

(** Split the conjunction of a declaration into its keys. *)
Ltac split_declaration :=
  repeat match goal with
    | Hd : _ && _ = true |- _ => apply andb_prop in Hd as [? ?]
    end.

(** The lookups that a declaration gives, one equation for each key. *)
Ltac declared_lookups :=
  repeat match goal with
    | Hk : required_key _ _ is_str = true |- _ =>
        apply required_key_str in Hk as [? Hk]
    | Hk : required_key _ _ is_int = true |- _ =>
        apply required_key_int in Hk as [? Hk]
    | Hk : required_key _ _ (is_literal _) = true |- _ =>
        apply required_key_literal in Hk
    | Hk : required_key _ _ ButtonStyleT = true |- _ =>
        apply required_key_one_of in Hk as [? Hk]
    | Hk : not_required_key _ _ is_str = true |- _ =>
        apply optional_key_str in Hk as [Hk|[? Hk]]
    | Hk : not_required_key _ _ is_int = true |- _ =>
        apply optional_key_int in Hk as [Hk|[? Hk]]
    | Hk : not_required_key _ _ is_bool = true |- _ =>
        apply optional_key_bool in Hk as [Hk|[? Hk]]
    | Hk : not_required_key _ _ nonempty_str = true |- _ =>
        apply optional_key_nonempty_str in Hk as [Hk|(? & ? & Hk)]
    | Hk : optional_emoji _ |- _ =>
        apply optional_key_emoji in Hk as [Hk|(? & ? & Hk)]
    end.

(** Case analysis on a key: each of [keys], or none of them. *)
Ltac key_cases k keys :=
  match keys with
  | [] => idtac
  | ?k0 :: ?rest =>
      destruct (decide (k = k0)) as [->|?]; [|key_cases k rest]
  end.

Ltac rewrite_lookups :=
  repeat match goal with
    | Hk : ?w !! ?k = _ |- context [?w !! ?k] => rewrite Hk
    end.

Section reencode.
Context `{PartialEmojiLaws E}.


Lemma Button_reencodes (w : dict) :
  valid_button (E:=E) w ->
  exists b : Button.t E,
    Button.from_payload w = Ok b
    /\ Button.to_dict b = w ∪ documented_defaults ComponentType.button.
Proof.
  intros (Hdecl & Hlabel & Hemoji & Honly).
  unfold ButtonPayload in Hdecl. split_declaration.
  match goal with Hk : not_required_key _ "label" is_str = true |- _ => clear Hk end.
  match goal with Hk : not_required_key _ "emoji" any_json = true |- _ => clear Hk end.
  declared_lookups.
  all: unfold Button.from_payload, emoji_of_payload, getitem, get_bool, get_opt_str;
    rewrite_lookups; cbn [mbind result_bind as_str as_int as_bool];
    eexists; (split; [reflexivity|]);
    rewrite ?emoji_from_to;
    unfold Button.to_dict;
    cbn [Button.label Button.emoji Button.style Button.custom_id Button.disabled
         set_str set_emoji str_truthy];
    try match goal with He : emoji_truthy _ = true |- _ => rewrite He end.
  all: apply map_eq; intros k;
    key_cases k ["type"; "style"; "label"; "emoji"; "custom_id"; "disabled"].
  all: try (rewrite lookup_union; rewrite_lookups; reflexivity).
  all: rewrite lookup_union, (Honly k) by not_a_key.
  all: unfold documented_defaults; cbn [Z.eqb ComponentType.button Pos.eqb].
  all: rewrite ?lookup_insert_ne, ?lookup_singleton_ne by done; reflexivity.
Qed.

Lemma UrlButton_reencodes (w : dict) :
  valid_url_button (E:=E) w ->
  exists b : UrlButton.t E,
    UrlButton.from_payload w = Ok b
    /\ UrlButton.to_dict b = w ∪ documented_defaults ComponentType.button.
Proof.
  intros (Hdecl & Hlabel & Hemoji & Honly).
  unfold UrlButtonPayload in Hdecl. split_declaration.
  match goal with Hk : not_required_key _ "label" is_str = true |- _ => clear Hk end.
  match goal with Hk : not_required_key _ "emoji" any_json = true |- _ => clear Hk end.
  declared_lookups.
  all: unfold UrlButton.from_payload, emoji_of_payload, getitem, get_bool, get_opt_str;
    rewrite_lookups; cbn [mbind result_bind as_str as_int as_bool];
    eexists; (split; [reflexivity|]);
    rewrite ?emoji_from_to;
    unfold UrlButton.to_dict;
    cbn [UrlButton.label UrlButton.emoji UrlButton.url UrlButton.disabled
         set_str set_emoji str_truthy];
    try match goal with He : emoji_truthy _ = true |- _ => rewrite He end.
  all: apply map_eq; intros k;
    key_cases k ["type"; "style"; "label"; "emoji"; "url"; "disabled"].
  all: try (rewrite lookup_union; rewrite_lookups; reflexivity).
  all: rewrite lookup_union, (Honly k) by not_a_key.
  all: unfold documented_defaults; cbn [Z.eqb ComponentType.button Pos.eqb].
  all: rewrite ?lookup_insert_ne, ?lookup_singleton_ne by done; reflexivity.
Qed.

Lemma TextInput_reencodes (w : dict) :
  valid_text_input w ->
  exists t : TextInput.t,
    TextInput.from_payload w = Ok t
    /\ TextInput.to_dict t = w ∪ documented_defaults ComponentType.text_input.
Proof.
  intros (Hdecl & Honly).
  unfold TextInputPayload in Hdecl. split_declaration.
  declared_lookups.
  all: unfold TextInput.from_payload, getitem, get_bool, get_int, get_opt_str,
      get_opt_int;
    rewrite_lookups; cbn [mbind result_bind as_str as_int as_bool];
    eexists; (split; [reflexivity|]);
    unfold TextInput.to_dict;
    cbn [TextInput.custom_id TextInput.style TextInput.label TextInput.min_length
         TextInput.max_length TextInput.required TextInput.value
         TextInput.placeholder set_some].
  all: apply map_eq; intros k;
    key_cases k ["type"; "custom_id"; "style"; "label"; "min_length"; "max_length";
                 "required"; "value"; "placeholder"].
  all: try (rewrite lookup_union; rewrite_lookups; reflexivity).
  all: rewrite lookup_union, (Honly k) by not_a_key.
  all: unfold documented_defaults;
    cbn [Z.eqb ComponentType.button ComponentType.text_input Pos.eqb].
  all: rewrite ?lookup_insert_ne, ?lookup_singleton_ne by done; reflexivity.
Qed.

Lemma select_defaults_eq :
  documented_defaults ComponentType.string_select
  = {[ "min_values" := JInt 1; "max_values" := JInt 1; "disabled" := JBool false ]}.
Proof. reflexivity. Qed.

Lemma BaseSelectMenu_reencodes (tag : Z) (more : list string) (w : dict) :
  valid_select tag more w ->
  exists s : BaseSelectMenu.t,
    BaseSelectMenu.from_payload w = Ok s
    /\ forall k, k ∉ more ->
       BaseSelectMenu.to_dict tag s !! k
       = (w ∪ documented_defaults ComponentType.string_select) !! k.
Proof.
  intros (Htype & Hdecl & Hplaceholder & Honly).
  unfold _SelectMenuPayload in Hdecl. split_declaration.
  match goal with Hk : not_required_key _ "placeholder" is_str = true |- _ => clear Hk end.
  declared_lookups.
  all: unfold BaseSelectMenu.from_payload, getitem, get_bool, get_int, get_opt_str;
    rewrite_lookups; cbn [mbind result_bind as_str as_int as_bool];
    eexists; (split; [reflexivity|]);
    unfold BaseSelectMenu.to_dict;
    cbn [BaseSelectMenu.custom_id BaseSelectMenu.placeholder
         BaseSelectMenu.min_values BaseSelectMenu.max_values
         BaseSelectMenu.disabled set_str str_truthy].
  all: intros k Hk;
    key_cases k ["type"; "custom_id"; "placeholder"; "min_values"; "max_values";
                 "disabled"].
  all: try (rewrite lookup_union; rewrite_lookups; reflexivity).
  all: rewrite lookup_union, (Honly k)
    by (cbn [app]; rewrite !not_elem_of_cons; repeat split; assumption).
  all: rewrite select_defaults_eq.
  all: rewrite ?lookup_insert_ne, ?lookup_singleton_ne by done; reflexivity.
Qed.

(** The select menus that add no key. *)
Lemma plain_select_reencodes (tag : Z) (w : dict) :
  tag ∈ [ComponentType.user_select; ComponentType.role_select;
         ComponentType.mentionable_select] ->
  valid_select tag [] w ->
  exists s : BaseSelectMenu.t,
    BaseSelectMenu.from_payload w = Ok s
    /\ BaseSelectMenu.to_dict tag s = w ∪ documented_defaults tag.
Proof.
  intros Htag Hw. destruct (BaseSelectMenu_reencodes _ _ _ Hw) as (s & Hs & Hk).
  exists s. split; [exact Hs|]. apply map_eq. intros k.
  rewrite Hk by apply not_elem_of_nil.
  rewrite !elem_of_cons in Htag.
  destruct Htag as [->|[->|[->|Hnil]]]; [reflexivity..|].
  apply elem_of_nil in Hnil. contradiction.
Qed.

Lemma option_reencodes (option : json) :
  valid_option (E:=E) option ->
  exists o : SelectOption.t E,
    StringSelectMenu.option_from_json option = Ok o
    /\ JObj (SelectOption.to_dict o) = option_with_defaults option.
Proof.
  destruct option as [| | | | |data]; try contradiction.
  intros (Hdecl & Hdescription & Hemoji & Honly).
  unfold SelectOptionPayload in Hdecl. split_declaration.
  match goal with Hk : not_required_key _ "description" is_str = true |- _ => clear Hk end.
  match goal with Hk : not_required_key _ "emoji" any_json = true |- _ => clear Hk end.
  declared_lookups.
  all: unfold StringSelectMenu.option_from_json, SelectOption.from_dict,
      emoji_of_payload, getitem, get_bool, get_opt_str;
    rewrite_lookups; cbn [mbind result_bind as_str as_int as_bool];
    eexists; (split; [reflexivity|]);
    rewrite ?emoji_from_to;
    unfold SelectOption.to_dict, SelectOption.__init__, option_with_defaults;
    cbn [SelectOption.label SelectOption.value SelectOption.description
         SelectOption.emoji SelectOption.default set_str set_emoji str_truthy];
    try match goal with He : emoji_truthy _ = true |- _ => rewrite He end.
  all: f_equal; apply map_eq; intros k;
    key_cases k ["label"; "value"; "description"; "emoji"; "default"].
  all: try (rewrite lookup_union; rewrite_lookups; reflexivity).
  all: rewrite lookup_union, (Honly k) by not_a_key.
  all: rewrite ?lookup_insert_ne, ?lookup_singleton_ne by done; reflexivity.
Qed.

Lemma options_reencode (options : list json) :
  Forall (valid_option (E:=E)) options ->
  exists os : list (SelectOption.t E),
    mapM StringSelectMenu.option_from_json options = Ok os
    /\ (fun o => JObj (SelectOption.to_dict o)) <$> os
       = map option_with_defaults options.
Proof.
  induction 1 as [|option options Hoption _ (os & Hos & Henc)].
  - exists []. split; reflexivity.
  - destruct (option_reencodes _ Hoption) as (o & Ho & Heq).
    exists (o :: os). cbn [mapM]. rewrite Ho. cbn [mbind result_bind].
    rewrite Hos. split; [reflexivity|].
    cbn [fmap list_fmap map]. rewrite Heq. f_equal. exact Henc.
Qed.

Lemma StringSelectMenu_reencodes (w : dict) :
  valid_string_select (E:=E) w ->
  exists (s : StringSelectMenu.t E) (options : list json),
    StringSelectMenu.from_payload w = Ok s
    /\ w !! "options" = Some (JList options)
    /\ StringSelectMenu.to_dict s
       = <["options" := JList (map option_with_defaults options)]>
           (w ∪ documented_defaults ComponentType.string_select).
Proof.
  intros (Hw & options & Hoptions & Hvalid).
  pose proof Hw as (Htype & _).
  destruct (BaseSelectMenu_reencodes _ _ _ Hw) as (base & Hbase & Hk).
  destruct (options_reencode _ Hvalid) as (os & Hos & Henc).
  exists {| StringSelectMenu.base := base; StringSelectMenu.options := os |}, options.
  unfold StringSelectMenu.from_payload. rewrite Hbase. cbn [mbind result_bind].
  rewrite Hoptions, Hos. split; [reflexivity|]. split; [reflexivity|].
  unfold StringSelectMenu.to_dict.
  cbn [StringSelectMenu.base StringSelectMenu.options]. rewrite Henc.
  apply map_eq. intros k.
  destruct (decide (k = "options")) as [->|Hne].
  - rewrite !lookup_insert_eq. reflexivity.
  - rewrite !(lookup_insert_ne _ "options") by congruence.
    destruct (decide (k = "type")) as [->|Hne'].
    + rewrite lookup_insert_eq, lookup_union, Htype. reflexivity.
    + rewrite lookup_insert_ne by congruence. apply Hk.
      rewrite not_elem_of_cons. split; [exact Hne|apply not_elem_of_nil].
Qed.

Lemma nonempty_int_list_inv (w : dict) (k : string) :
  not_required_key w k nonempty_int_list = true ->
  w !! k = None
  \/ exists t ts, w !! k = Some (JList (JInt <$> t :: ts)).
Proof.
  unfold not_required_key. destruct (w !! k) as [v|]; [|auto].
  destruct v as [| | | |[|t ts]|]; try discriminate.
  cbn [nonempty_int_list]. intros Hints. right.
  assert (exists zs, t :: ts = JInt <$> zs) as [[|z zs] Hzs].
  { revert Hints. generalize (t :: ts). intros l.
    induction l as [|v l IH]; [exists []; reflexivity|].
    cbn [forallb]. intros [Hv Hl]%andb_prop.
    destruct v; try discriminate. destruct (IH Hl) as [zs ->].
    eexists (_ :: zs). reflexivity. }
  - discriminate.
  - exists z, zs. rewrite Hzs. reflexivity.
Qed.

Lemma ChannelSelectMenu_reencodes (w : dict) :
  valid_channel_select w ->
  exists s : ChannelSelectMenu.t,
    ChannelSelectMenu.from_payload w = Ok s
    /\ ChannelSelectMenu.to_dict s
       = w ∪ documented_defaults ComponentType.channel_select.
Proof.
  intros (Hw & Htypes). pose proof Hw as (Htype & _).
  destruct (BaseSelectMenu_reencodes _ _ _ Hw) as (base & Hbase & Hk).
  assert (forall k, k <> "channel_types" ->
            (<["type" := JInt ComponentType.channel_select]>
               (BaseSelectMenu.to_dict ComponentType.channel_select base)) !! k
            = (w ∪ documented_defaults ComponentType.channel_select) !! k) as Hrest.
  { intros k Hne. destruct (decide (k = "type")) as [->|Hne'].
    - rewrite lookup_insert_eq, lookup_union, Htype. reflexivity.
    - rewrite lookup_insert_ne by congruence. apply Hk.
      rewrite not_elem_of_cons. split; [exact Hne|apply not_elem_of_nil]. }
  assert (BaseSelectMenu.to_dict ComponentType.channel_select base
            !! "channel_types" = None) as Hnone.
  { unfold BaseSelectMenu.to_dict, set_str.
    destruct (BaseSelectMenu.placeholder base) as [[|a p]|]; reflexivity. }
  apply nonempty_int_list_inv in Htypes as [Habsent|(t & ts & Hpresent)].
  - exists {| ChannelSelectMenu.base := base; ChannelSelectMenu.channel_types := None |}.
    unfold ChannelSelectMenu.from_payload. rewrite Hbase, Habsent.
    split; [reflexivity|].
    unfold ChannelSelectMenu.to_dict.
    cbn [ChannelSelectMenu.base ChannelSelectMenu.channel_types].
    apply map_eq. intros k. destruct (decide (k = "channel_types")) as [->|Hne].
    + rewrite lookup_insert_ne, Hnone, lookup_union, Habsent by done. reflexivity.
    + apply Hrest, Hne.
  - exists {| ChannelSelectMenu.base := base;
              ChannelSelectMenu.channel_types := Some (t :: ts) |}.
    unfold ChannelSelectMenu.from_payload. rewrite Hbase, Hpresent.
    cbn [mbind result_bind].
    change (py_truthy (JList (JInt <$> t :: ts))) with true. cbv iota.
    rewrite channel_types_roundtrip. split; [reflexivity|].
    unfold ChannelSelectMenu.to_dict.
    cbn [ChannelSelectMenu.base ChannelSelectMenu.channel_types].
    apply map_eq. intros k. destruct (decide (k = "channel_types")) as [->|Hne].
    + rewrite lookup_insert_eq, lookup_union, Hpresent. reflexivity.
    + rewrite lookup_insert_ne by congruence. apply Hrest, Hne.
Qed.
End reencode.

Lemma with_defaults_unfold (w : dict) :
  with_defaults (JObj w)
  = match w !! "type" with
    | Some (JInt tag) =>
        let filled := w ∪ documented_defaults tag in
        if tag =? ComponentType.action_row then
          match w !! "components" with
          | Some (JList l) =>
              JObj (<["components" := JList (map with_defaults l)]> filled)
          | Some v => JObj (<["components" := v]> filled)
          | None => JObj filled
          end
        else if tag =? ComponentType.string_select then
          match w !! "options" with
          | Some (JList options) =>
              JObj (<["options" := JList (map option_with_defaults options)]> filled)
          | _ => JObj filled
          end
        else JObj filled
    | _ => JObj w
    end.
Proof.
  cbn [with_defaults]. rewrite lookup_fmap.
  destruct (w !! "type") as [[]|]; try reflexivity.
  destruct (_ =? ComponentType.action_row); [|reflexivity].
  destruct (w !! "components") as [[]|]; reflexivity.
Qed.

(** Every key that [w] holds keeps its value, the lists of components and
    of options apart, and a key that [w] lacks is given its documented
    default, if it has one. *)
Lemma with_defaults_lookup (w w' : dict) (tag : Z) (k : string) :
  w !! "type" = Some (JInt tag) ->
  with_defaults (JObj w) = JObj w' ->
  k ∉ ["components"; "options"] \/ w !! k = None ->
  w' !! k = (w ∪ documented_defaults tag) !! k.
Proof.
  intros Htype. rewrite with_defaults_unfold, Htype. cbv zeta.
  intros Hw' Hk.
  assert (k = "components" -> w !! "components" = None) as Hcomponents.
  { intros ->. destruct Hk as [Hk|Hk]; [|exact Hk].
    exfalso. apply Hk. left. }
  assert (k = "options" -> w !! "options" = None) as Hoptions.
  { intros ->. destruct Hk as [Hk|Hk]; [|exact Hk].
    exfalso. apply Hk. right. left. }
  destruct (tag =? ComponentType.action_row).
  - destruct (w !! "components") as [v|] eqn:Hc.
    + assert (k <> "components") as Hne by (intros Hk'; apply Hcomponents in Hk'; congruence).
      destruct v; injection Hw' as <-; rewrite lookup_insert_ne by congruence;
        reflexivity.
    + injection Hw' as <-. reflexivity.
  - destruct (tag =? ComponentType.string_select); [|injection Hw' as <-; reflexivity].
    destruct (w !! "options") as [v|] eqn:Ho.
    + assert (k <> "options") as Hne by (intros Hk'; apply Hoptions in Hk'; congruence).
      destruct v; injection Hw' as <-; rewrite ?lookup_insert_ne by congruence;
        reflexivity.
    + injection Hw' as <-. reflexivity.
Qed.

Lemma valid_wire_ind' `{PartialEmojiLike E} (P : json -> Prop) :
  (forall (w : dict) (components : list json),
     w !! "type" = Some (JInt ComponentType.action_row) ->
     w !! "components" = Some (JList components) ->
     only_keys ["type"; "components"] w ->
     Forall P components -> P (JObj w)) ->
  (forall w : dict, valid_leaf (E:=E) w -> P (JObj w)) ->
  forall v, valid_wire (E:=E) v -> P v.
Proof.
  intros Hrow Hleaf. fix IH 2.
  intros v [w components Htype Hcomponents Honly Hvalid|w Hw]; [|apply Hleaf, Hw].
  apply (Hrow w components Htype Hcomponents Honly).
  clear Hcomponents.
  induction Hvalid as [|c cs Hc _ IHcs]; constructor.
  - apply IH, Hc.
  - exact IHcs.
Qed.

Section reencode_wire.
Context `{PartialEmojiLaws E}.

Lemma valid_button_tag (w : dict) :
  valid_button (E:=E) w ->
  w !! "type" = Some (JInt ComponentType.button) /\ w !! "url" = None.
Proof.
  intros (Hdecl & _ & _ & Honly). split; [|apply Honly; not_a_key].
  unfold ButtonPayload in Hdecl. split_declaration.
  apply required_key_literal. assumption.
Qed.

Lemma valid_url_button_tag (w : dict) :
  valid_url_button (E:=E) w ->
  w !! "type" = Some (JInt ComponentType.button) /\ contains w "url" = true.
Proof.
  intros (Hdecl & _). unfold UrlButtonPayload in Hdecl. split_declaration.
  split; [apply required_key_literal; assumption|].
  match goal with Hk : required_key _ "url" _ = true |- _ =>
    apply required_key_str in Hk as [url Hurl] end.
  unfold contains. rewrite Hurl. reflexivity.
Qed.

Lemma valid_text_input_tag (w : dict) :
  valid_text_input w -> w !! "type" = Some (JInt ComponentType.text_input).
Proof.
  intros (Hdecl & _). unfold TextInputPayload in Hdecl. split_declaration.
  apply required_key_literal. assumption.
Qed.

Ltac dispatch Htype :=
  rewrite _component_factory_unfold, with_defaults_unfold; unfold factory_body, getitem;
  rewrite Htype; cbn [mbind result_bind].

Lemma leaf_reencoded (w : dict) : valid_leaf (E:=E) w -> reencoded (E:=E) (JObj w).
Proof.
  unfold reencoded.
  intros [Hw|[Hw|[Hw|[Hw|[Hw|[Hw|[Hw|Hw]]]]]]].
  - destruct (valid_button_tag _ Hw) as [Htype Hurl].
    destruct (Button_reencodes _ Hw) as (b & Hb & Henc).
    exists (Button_ b). dispatch Htype. unfold contains. rewrite Hurl, Hb.
    split; [reflexivity|]. cbn [to_dict]. rewrite Henc. reflexivity.
  - destruct (valid_url_button_tag _ Hw) as [Htype Hurl].
    destruct (UrlButton_reencodes _ Hw) as (b & Hb & Henc).
    exists (UrlButton_ b). dispatch Htype. rewrite Hurl, Hb.
    split; [reflexivity|]. cbn [to_dict]. rewrite Henc. reflexivity.
  - pose proof Hw as ((Htype & _) & _).
    destruct (StringSelectMenu_reencodes _ Hw) as (s & options & Hs & Hoptions & Henc).
    exists (StringSelectMenu_ s). dispatch Htype. rewrite Hs, Hoptions.
    split; [reflexivity|]. cbn [to_dict]. rewrite Henc. reflexivity.
  - pose proof (valid_text_input_tag _ Hw) as Htype.
    destruct (TextInput_reencodes _ Hw) as (t & Ht & Henc).
    exists (TextInput_ t). dispatch Htype. rewrite Ht.
    split; [reflexivity|]. cbn [to_dict]. rewrite Henc. reflexivity.
  - pose proof Hw as (Htype & _).
    destruct (plain_select_reencodes ComponentType.user_select w) as (s & Hs & Henc);
      [set_solver|exact Hw|].
    exists (UserSelectMenu_ s). dispatch Htype. rewrite Hs.
    split; [reflexivity|]. cbn [to_dict]. rewrite Henc. reflexivity.
  - pose proof Hw as (Htype & _).
    destruct (plain_select_reencodes ComponentType.role_select w) as (s & Hs & Henc);
      [set_solver|exact Hw|].
    exists (RoleSelectMenu_ s). dispatch Htype. rewrite Hs.
    split; [reflexivity|]. cbn [to_dict]. rewrite Henc. reflexivity.
  - pose proof Hw as (Htype & _).
    destruct (plain_select_reencodes ComponentType.mentionable_select w)
      as (s & Hs & Henc); [set_solver|exact Hw|].
    exists (MentionableSelectMenu_ s). dispatch Htype. rewrite Hs.
    split; [reflexivity|]. cbn [to_dict]. rewrite Henc. reflexivity.
  - pose proof Hw as ((Htype & _) & _).
    destruct (ChannelSelectMenu_reencodes _ Hw) as (s & Hs & Henc).
    exists (ChannelSelectMenu_ s). dispatch Htype. rewrite Hs.
    split; [reflexivity|]. cbn [to_dict]. rewrite Henc. reflexivity.
Qed.

Lemma children_reencoded (components : list json) :
  Forall (reencoded (E:=E)) components ->
  exists children : list (Component E),
    mapM _component_factory components = Ok children
    /\ map (fun child => JObj (to_dict child)) children
       = map with_defaults components.
Proof.
  induction 1 as [|c cs (x & Hx & Henc) _ (xs & Hxs & Hencs)].
  - exists []. split; reflexivity.
  - exists (x :: xs). cbn [mapM]. rewrite Hx. cbn [mbind result_bind].
    rewrite Hxs. split; [reflexivity|]. cbn [map]. rewrite Henc, Hencs. reflexivity.
Qed.

Lemma valid_wire_reencoded (v : json) : valid_wire (E:=E) v -> reencoded (E:=E) v.
Proof.
  apply valid_wire_ind'; [|apply leaf_reencoded].
  intros w components Htype Hcomponents Honly Hchildren.
  destruct (children_reencoded _ Hchildren) as (children & Hdecode & Henc).
  exists (ActionRow_ children). dispatch Htype.
  unfold ActionRowComponent.from_payload. rewrite Hcomponents, Hdecode.
  split; [reflexivity|]. cbn [to_dict]. rewrite Henc. f_equal.
  apply map_eq. intros k. key_cases k ["components"; "type"].
  - rewrite lookup_insert_eq. reflexivity.
  - rewrite (lookup_insert_ne _ "components"), lookup_union, Htype by done.
    reflexivity.
  - rewrite !lookup_insert_ne, lookup_singleton_ne by done.
    rewrite lookup_union, (Honly k) by not_a_key.
    change (documented_defaults ComponentType.action_row) with (∅ : dict).
    rewrite lookup_empty. reflexivity.
Qed.

Lemma valid_wire_tag (w : dict) :
  valid_wire (E:=E) (JObj w) -> exists tag, w !! "type" = Some (JInt tag).
Proof.
  inversion 1 as [w' cs Htype|w' Hw]; subst; [eauto|].
  destruct Hw as [Hw|[Hw|[Hw|[Hw|[Hw|[Hw|[Hw|Hw]]]]]]].
  - apply valid_button_tag in Hw as [? _]. eauto.
  - apply valid_url_button_tag in Hw as [? _]. eauto.
  - destruct Hw as ((? & _) & _). eauto.
  - apply valid_text_input_tag in Hw. eauto.
  - destruct Hw as (? & _). eauto.
  - destruct Hw as (? & _). eauto.
  - destruct Hw as (? & _). eauto.
  - destruct Hw as ((? & _) & _). eauto.
Qed.

(** C3, amended: a valid wire object [w] of a known tag decodes, and the
    encoding of the result is [w] with the defaulted keys that it lacks
    (disabled; min_values and max_values; required; default in an option)
    written with their defaults: every key that [w] holds is reproduced with
    its value (the lists of components and of options element by element),
    and a key that [w] lacks is absent from the encoding unless it is one of
    the defaulted keys of the tag. *)
Theorem encode_decode_reencodes (w : dict) :
  valid_wire (E:=E) (JObj w) ->
  exists (x : Component E) (tag : Z),
    w !! "type" = Some (JInt tag)
    /\ _component_factory (JObj w) = Ok x
    /\ JObj (to_dict x) = with_defaults (JObj w)
    /\ (forall k v, k ∉ ["components"; "options"] ->
        w !! k = Some v -> to_dict x !! k = Some v)
    /\ (forall k, w !! k = None -> to_dict x !! k = documented_defaults tag !! k).
Proof.
  intros Hw. destruct (valid_wire_tag w Hw) as [tag Htype].
  destruct (valid_wire_reencoded _ Hw) as (x & Hx & Henc).
  exists x, tag. split; [exact Htype|]. split; [exact Hx|]. split; [exact Henc|].
  symmetry in Henc. split.
  - intros k v Hk Hv.
    rewrite (with_defaults_lookup w (to_dict x) tag k Htype Henc) by (left; exact Hk).
    rewrite lookup_union, Hv. destruct (documented_defaults tag !! k); reflexivity.
  - intros k Hk.
    rewrite (with_defaults_lookup w (to_dict x) tag k Htype Henc) by (right; exact Hk).
    rewrite lookup_union, Hk. destruct (documented_defaults tag !! k); reflexivity.
Qed.
End reencode_wire.

(** The keys of a concrete payload are among the declared ones. *)
Ltac declared_only :=
  intros k Hk; rewrite !not_elem_of_cons in Hk;
  rewrite ?lookup_insert_ne, ?lookup_singleton_ne by (intros <-; tauto);
  reflexivity.

Lemma encode_decode_reencodes_witness :
  exists x : Component string,
    _component_factory (JObj sample_wire_row) = Ok x
    /\ to_dict x = sample_wire_row_reencoded.
Proof.
  destruct (encode_decode_reencodes (E:=string) sample_wire_row)
    as (x & tag & _ & Hx & Henc & _).
  - eapply valid_action_row; [reflexivity|reflexivity|unfold sample_wire_row; declared_only|].
    constructor; [|constructor; [|constructor]].
    + apply valid_component. left. split; [reflexivity|]. split; [reflexivity|].
      split; [intros d [=]|declared_only].
    + apply valid_component. right. right. left.
      split.
      * split; [reflexivity|]. split; [reflexivity|]. split; [reflexivity|].
        cbn [app]. declared_only.
      * eexists. split; [reflexivity|]. constructor; [|constructor].
        split; [reflexivity|]. split; [reflexivity|].
        split; [intros d [=]|declared_only].
  - exists x. split; [exact Hx|]. injection Henc as ->. reflexivity.
Defined.

(** ** Action rows *)

Section rows.
Import ui.
Context `{WrappedComponent.t W}.


Lemma total_width_app (l1 l2 : list W) :
  ActionRow.total_width (l1 ++ l2) = ActionRow.total_width l1 + ActionRow.total_width l2.
Proof. induction l1 as [|x l1 IH]; simpl; [reflexivity|]. rewrite IH. lia. Qed.

Lemma width_children (self : ActionRow.t W) :
  ActionRow.width self = ActionRow.total_width (ActionRow._children self).
Proof. reflexivity. Qed.

Lemma total_width_insert (index : Z) (x : W) (l : list W) :
  ActionRow.total_width (list_insert_py index x l)
  = ActionRow.total_width l + WrappedComponent.width x.
Proof.
  unfold list_insert_py.
  set (i := Z.to_nat _).
  rewrite <- (take_drop i l) at 3.
  rewrite !total_width_app. simpl. lia.
Qed.

Lemma list_insert_py_end (x : W) (l : list W) :
  list_insert_py (Z.of_nat (length l)) x l = l ++ [x].
Proof.
  unfold list_insert_py. cbv zeta.
  assert ((Z.of_nat (length l) <? 0) = false) as Hlt by (apply Z.ltb_ge; lia).
  assert ((Z.of_nat (length l) >? Z.of_nat (length l)) = false) as Hgt
    by (rewrite Z.gtb_ltb; apply Z.ltb_ge; lia).
  rewrite Hlt. cbv iota. rewrite Hlt, Hgt.
  rewrite Nat2Z.id, firstn_all, drop_all. reflexivity.
Qed.

Lemma insert_item_full (index : Z) (item : W) (self : ActionRow.t W) :
  ActionRow.width self + WrappedComponent.width item > 5 ->
  ActionRow.insert_item index item self = (Raise ValueError, self).
Proof.
  intros Hfull. unfold ActionRow.insert_item.
  destruct (Z.gtb_spec (ActionRow.width self + WrappedComponent.width item) 5); [reflexivity|lia].
Qed.

Lemma insert_item_fits (index : Z) (item : W) (self : ActionRow.t W) :
  ActionRow.width self + WrappedComponent.width item <= 5 ->
  ActionRow.insert_item index item self
  = (Ok tt, {| ActionRow._children :=
                 list_insert_py index item (ActionRow._children self) |}).
Proof.
  intros Hfits. unfold ActionRow.insert_item.
  destruct (Z.gtb_spec (ActionRow.width self + WrappedComponent.width item) 5); [lia|reflexivity].
Qed.

(** [insert_item] keeps a row within capacity, whether it raises or not. *)
Lemma insert_item_capacity (index : Z) (item : W) (self : ActionRow.t W) :
  ActionRow.capacity self ->
  ActionRow.capacity (ActionRow.insert_item index item self).2.
Proof.
  intros Hcap. unfold ActionRow.insert_item.
  destruct (Z.gtb_spec (ActionRow.width self + WrappedComponent.width item) 5)
    as [Hfull|Hfits]; cbn [snd]; [exact Hcap|].
  unfold ActionRow.capacity. rewrite width_children. cbn [ActionRow._children].
  rewrite total_width_insert. rewrite width_children in Hfits. lia.
Qed.

Lemma append_item_fits (item : W) (self : ActionRow.t W) :
  ActionRow.width self + WrappedComponent.width item <= 5 ->
  ActionRow.append_item item self
  = (Ok tt, {| ActionRow._children := ActionRow._children self ++ [item] |}).
Proof.
  intros Hfits. unfold ActionRow.append_item, ActionRow.__len__.
  rewrite insert_item_fits by exact Hfits. rewrite list_insert_py_end. reflexivity.
Qed.

Lemma append_item_full (item : W) (self : ActionRow.t W) :
  ActionRow.width self + WrappedComponent.width item > 5 ->
  ActionRow.append_item item self = (Raise ValueError, self).
Proof. intros Hfull. apply insert_item_full, Hfull. Qed.

(** What [append_all] does to a row within ActionRow.capacity. *)
Lemma append_all_spec (components : list (ActionRow.member W)) (self : ActionRow.t W) :
  ActionRow.capacity self ->
  match ActionRow.append_all components self with
  | (Ok _, self') =>
      ActionRow.capacity self'
      /\ ActionRow._children self'
         = ActionRow._children self ++ items_of components
      /\ components = ActionRow.Item <$> items_of components
  | (Raise e, _) =>
      (e = ValueError \/ e = TypeError)
      /\ (e = TypeError -> In ActionRow.NotComponent components)
  end.
Proof.
  revert self. induction components as [|[c|] rest IH]; intros self Hcap.
  - cbn. rewrite app_nil_r. auto.
  - cbn [ActionRow.append_all].
    destruct (Z_le_gt_dec (ActionRow.width self + WrappedComponent.width c) 5) as [Hfits|Hfull].
    + rewrite append_item_fits by exact Hfits.
      set (self' := {| ActionRow._children := ActionRow._children self ++ [c] |}).
      assert (ActionRow.capacity self') as Hcap'.
      { unfold ActionRow.capacity, self'. rewrite width_children. cbn [ActionRow._children].
        rewrite total_width_app. cbn. rewrite width_children in Hfits. lia. }
      specialize (IH self' Hcap').
      destruct (ActionRow.append_all rest self') as [[[]|e] self''].
      * destruct IH as (Hc & Hch & Hrest). split; [exact Hc|]. split.
        -- rewrite Hch. unfold self'. cbn. rewrite <- app_assoc. reflexivity.
        -- cbn. f_equal. exact Hrest.
      * destruct IH as (He & Hnc). split; [exact He|]. intros Ht. right. auto.
    + rewrite append_item_full by exact Hfull. split; [auto|]. discriminate.
  - cbn. split; [auto|]. auto.
Qed.

Lemma capacity_empty : ActionRow.capacity ActionRow.empty.
Proof. unfold ActionRow.capacity. cbn. lia. Qed.

Lemma init_spec (components : list (ActionRow.member W)) (r : ActionRow.t W) :
  ActionRow.__init__ components = Ok r ->
  ActionRow.capacity r /\ ActionRow._children r = items_of components.
Proof.
  unfold ActionRow.__init__. intros Hr.
  pose proof (append_all_spec components ActionRow.empty capacity_empty) as Hspec.
  destruct (ActionRow.append_all components ActionRow.empty) as [[[]|e] self];
    [|discriminate].
  injection Hr as <-. destruct Hspec as (Hc & Hch & _). auto.
Qed.

Lemma init_single (c : W) :
  WrappedComponent.width c <= 5 ->
  ActionRow.__init__ [ActionRow.Item c] = Ok {| ActionRow._children := [c] |}.
Proof.
  intros Hc. unfold ActionRow.__init__. cbn [ActionRow.append_all].
  rewrite append_item_fits by (cbn; lia). reflexivity.
Qed.

Lemma init_single_full (c : W) :
  WrappedComponent.width c > 5 ->
  ActionRow.__init__ [ActionRow.Item c] = Raise ValueError.
Proof.
  intros Hc. unfold ActionRow.__init__. cbn [ActionRow.append_all].
  rewrite append_item_full by (cbn; lia). reflexivity.
Qed.
End rows.

(** ** Packing *)

Ltac list_eq :=
  rewrite ?map_app, ?concat_app; cbn [map concat];
  rewrite ?app_nil_r, <- ?app_assoc; reflexivity.

Section packing_proofs.
Import ui.
Context `{WrappedComponent.t W}.


Lemma step_Wrapped_fits (rows : list (ActionRow.t W)) (auto : ActionRow.t W) (c : W) :
  ActionRow.width auto + WrappedComponent.width c <= 5 ->
  step (rows, auto) (Wrapped c)
  = Ok (rows, {| ActionRow._children := ActionRow._children auto ++ [c] |}).
Proof. intros Hfits. cbn [step]. rewrite append_item_fits by exact Hfits. reflexivity. Qed.

Lemma step_Wrapped_full (rows : list (ActionRow.t W)) (auto : ActionRow.t W) (c : W) :
  ActionRow.width auto + WrappedComponent.width c > 5 ->
  step (rows, auto) (Wrapped c)
  = (r ← ActionRow.__init__ [ActionRow.Item c]; Ok (rows ++ [auto], r)).
Proof. intros Hfull. cbn [step]. rewrite append_item_full by exact Hfull. reflexivity. Qed.

Lemma width_gtb (auto : ActionRow.t W) :
  (ActionRow.width auto >? 0) = true <-> 0 < ActionRow.width auto.
Proof. rewrite Z.gtb_ltb. apply Z.ltb_lt. Qed.

Lemma step_capacity (st st' : locals) (e : entry W) :
  step st e = Ok st' ->
  Forall ActionRow.capacity st.1 -> ActionRow.capacity st.2 ->
  (forall r, e = Row r -> ActionRow.capacity r) ->
  Forall ActionRow.capacity st'.1 /\ ActionRow.capacity st'.2.
Proof.
  destruct st as [rows auto]. cbn [fst snd]. intros Hstep Hrows Hauto He.
  destruct e as [c|r|cs|].
  - destruct (Z_le_gt_dec (ActionRow.width auto + WrappedComponent.width c) 5)
      as [Hfits|Hfull].
    + rewrite step_Wrapped_fits in Hstep by exact Hfits. injection Hstep as <-.
      cbn [fst snd]. split; [exact Hrows|].
      unfold ActionRow.capacity. rewrite width_children. cbn [ActionRow._children].
      rewrite total_width_app. cbn. rewrite width_children in Hfits. lia.
    + rewrite step_Wrapped_full in Hstep by exact Hfull.
      apply bind_Ok in Hstep as (r & Hr & Hstep). injection Hstep as <-.
      cbn [fst snd]. apply init_spec in Hr as [Hr _].
      split; [|exact Hr]. apply Forall_app. split; [exact Hrows|].
      constructor; [exact Hauto|constructor].
  - cbn [step] in Hstep.
    destruct (ActionRow.width auto >? 0); injection Hstep as <-; cbn [fst snd];
      (split; [|first [exact Hauto|exact capacity_empty]]);
      rewrite ?Forall_app; repeat split; auto using Forall_nil, Forall_cons.
  - cbn [step] in Hstep.
    destruct (ActionRow.width auto >? 0);
      apply bind_Ok in Hstep as (r & Hr & Hstep); injection Hstep as <-;
      apply init_spec in Hr as [Hr _]; cbn [fst snd];
      (split; [|first [exact Hauto|exact capacity_empty]]);
      rewrite ?Forall_app; repeat split; auto using Forall_nil, Forall_cons.
  - cbn [step] in Hstep. destruct (ActionRow.width auto >? 0); discriminate.
Qed.

Lemma loop_capacity (components : list (entry W)) (st st' : locals) :
  loop components st = Ok st' ->
  Forall ActionRow.capacity st.1 -> ActionRow.capacity st.2 ->
  Forall ActionRow.capacity (explicit_rows components) ->
  Forall ActionRow.capacity st'.1 /\ ActionRow.capacity st'.2.
Proof.
  revert st. induction components as [|e rest IH]; intros st Hloop Hrows Hauto Hexp.
  - injection Hloop as <-. auto.
  - cbn [loop] in Hloop. apply bind_Ok in Hloop as (st1 & Hstep & Hloop).
    destruct (step_capacity _ _ _ Hstep Hrows Hauto) as [Hrows1 Hauto1].
    { intros r ->. cbn in Hexp. apply Forall_cons in Hexp. tauto. }
    apply (IH st1 Hloop Hrows1 Hauto1).
    destruct e; cbn in Hexp; try exact Hexp. apply Forall_cons in Hexp. tauto.
Qed.

Lemma total_width_cons (c : W) (l : list W) :
  ActionRow.total_width (c :: l) = WrappedComponent.width c + ActionRow.total_width l.
Proof. reflexivity. Qed.

Lemma total_width_nonneg (l : list W) :
  Forall (fun c => 0 < WrappedComponent.width c) l -> 0 <= ActionRow.total_width l.
Proof.
  induction 1 as [|c l Hc _ IH]; [reflexivity|].
  rewrite total_width_cons. lia.
Qed.

(** A row of components of positive width is empty when its width is not
    positive. *)
Lemma positive_row_empty (l : list W) :
  Forall (fun c => 0 < WrappedComponent.width c) l ->
  ActionRow.total_width l <= 0 -> l = [].
Proof.
  intros Hpos. destruct Hpos as [|c l Hc Hl]; [reflexivity|].
  apply total_width_nonneg in Hl. rewrite total_width_cons. lia.
Qed.

Lemma step_content (st st' : locals) (e : entry W) :
  step st e = Ok st' ->
  positive st.2 ->
  (forall c, e = Wrapped c -> 0 < WrappedComponent.width c) ->
  content st' = content st ++ flatten_entry e /\ positive st'.2.
Proof.
  destruct st as [rows auto]. unfold content, positive. cbn [fst snd].
  intros Hstep Hpos He.
  assert ((ActionRow.width auto >? 0) = false -> ActionRow._children auto = []) as Hempty.
  { intros Hw. apply positive_row_empty; [exact Hpos|].
    rewrite <- width_children. rewrite Z.gtb_ltb in Hw. apply Z.ltb_ge in Hw. exact Hw. }
  destruct e as [c|r|cs|].
  - specialize (He c eq_refl).
    destruct (Z_le_gt_dec (ActionRow.width auto + WrappedComponent.width c) 5)
      as [Hfits|Hfull].
    + rewrite step_Wrapped_fits in Hstep by exact Hfits. injection Hstep as <-.
      cbn [fst snd flatten_entry ActionRow._children]. split; [list_eq|].
      apply Forall_app. split; [exact Hpos|]. constructor; [exact He|constructor].
    + rewrite step_Wrapped_full in Hstep by exact Hfull.
      apply bind_Ok in Hstep as (r & Hr & Hstep). injection Hstep as <-.
      apply init_spec in Hr as [_ Hr].
      cbn [fst snd flatten_entry]. rewrite Hr. cbn [items_of omap].
      split; [list_eq|]. constructor; [exact He|constructor].
  - cbn [step] in Hstep.
    destruct (ActionRow.width auto >? 0) eqn:Hw; injection Hstep as <-;
      cbn [fst snd flatten_entry ActionRow._children ActionRow.empty].
    + split; [list_eq|constructor].
    + split; [|exact Hpos]. rewrite (Hempty eq_refl). list_eq.
  - cbn [step] in Hstep.
    destruct (ActionRow.width auto >? 0) eqn:Hw;
      apply bind_Ok in Hstep as (r & Hr & Hstep); injection Hstep as <-;
      apply init_spec in Hr as [_ Hr];
      cbn [fst snd flatten_entry ActionRow._children ActionRow.empty];
      rewrite <- Hr.
    + split; [list_eq|constructor].
    + split; [|exact Hpos]. rewrite (Hempty eq_refl). list_eq.
  - cbn [step] in Hstep. destruct (ActionRow.width auto >? 0); discriminate.
Qed.

Lemma loop_content (components : list (entry W)) (st st' : locals) :
  loop components st = Ok st' ->
  positive st.2 ->
  Forall (fun c => 0 < WrappedComponent.width c) (plain_items components) ->
  content st' = content st ++ flatten components /\ positive st'.2.
Proof.
  revert st. induction components as [|e rest IH]; intros st Hloop Hpos Hplain.
  - injection Hloop as <-. unfold flatten. cbn. rewrite app_nil_r. auto.
  - cbn [loop] in Hloop. apply bind_Ok in Hloop as (st1 & Hstep & Hloop).
    destruct (step_content _ _ _ Hstep Hpos) as [Hc1 Hpos1].
    { intros c ->. cbn in Hplain. apply Forall_cons in Hplain. tauto. }
    destruct (IH st1 Hloop Hpos1) as [Hc Hpos'].
    { destruct e; cbn in Hplain; try exact Hplain. apply Forall_cons in Hplain. tauto. }
    split; [|exact Hpos']. rewrite Hc, Hc1. unfold flatten. list_eq.
Qed.
End packing_proofs.

Section packing_loop.
Import ui.
Context `{WrappedComponent.t W}.

(** The construction of the first auto row, line 857, reads the global name
    [ConstrainedComponentPayloadT], which the module binds only under
    [TYPE_CHECKING]: whatever its argument, a call of [components_to_rows]
    raises [NameError] before the loop is entered. *)
Lemma components_to_rows_NameError (components : NestedComponents W) :
  components_to_rows components = Raise (NameError "ConstrainedComponentPayloadT").
Proof. reflexivity. Qed.

(** X19: the loop and the final seal of [components_to_rows] (lines
    859-887), entered with an auto row within capacity, return only rows of
    a total width of at most 5, the rows that the caller built and passed in
    being rows within capacity (the invariant that the constructor and
    [insert_item] establish). *)
Theorem pack_capacity (auto_row : ActionRow.t W) (components : list (entry W))
    (rows : list (ActionRow.t W)) :
  ActionRow.capacity auto_row ->
  Forall ActionRow.capacity (explicit_rows components) ->
  pack auto_row components = Ok rows ->
  Forall ActionRow.capacity rows.
Proof.
  intros Hstart Hexp. unfold pack. intros Hrows.
  apply bind_Ok in Hrows as ([action_rows auto] & Hloop & Hrows).
  destruct (loop_capacity _ _ _ Hloop) as [Hacc Hauto];
    [constructor|exact Hstart|exact Hexp|].
  cbn [fst snd] in *.
  destruct (ActionRow.width auto >? 0); injection Hrows as <-; [|exact Hacc].
  apply Forall_app. split; [exact Hacc|]. constructor; [exact Hauto|constructor].
Qed.

(** X20: the loop and the final seal of [components_to_rows] (lines
    859-887) keep the order: the children of the rows returned, concatenated
    in order, are the components of the starting auto row followed by the
    components of the input in order (a plain component itself, the children
    of a row, the elements of a sequence), every plain component having a
    positive width. *)
Theorem pack_preserves_order (auto_row : ActionRow.t W)
    (components : list (entry W)) (rows : list (ActionRow.t W)) :
  positive auto_row ->
  Forall (fun c => 0 < WrappedComponent.width c) (plain_items components) ->
  pack auto_row components = Ok rows ->
  concat (map ActionRow._children rows)
  = ActionRow._children auto_row ++ flatten components.
Proof.
  intros Hstart Hplain Hrows. unfold pack in Hrows.
  apply bind_Ok in Hrows as ([action_rows auto] & Hloop & Hrows).
  destruct (loop_content _ _ _ Hloop) as [Hc Hpos]; [exact Hstart|exact Hplain|].
  unfold content in Hc. cbn [fst snd map concat app] in Hc.
  rewrite <- Hc.
  destruct (ActionRow.width auto >? 0) eqn:Hw; injection Hrows as <-.
  - list_eq.
  - rewrite (positive_row_empty (ActionRow._children auto)), app_nil_r;
      [reflexivity|exact Hpos|].
    rewrite <- width_children. rewrite Z.gtb_ltb in Hw. apply Z.ltb_ge in Hw. exact Hw.
Qed.
End packing_loop.

Section packing_edges.
Import ui.
Context `{WrappedComponent.t W}.

Lemma step_Row_seals (rows : list (ActionRow.t W)) (auto r : ActionRow.t W) :
  0 < ActionRow.width auto ->
  step (rows, auto) (Row r) = Ok ((rows ++ [auto]) ++ [r], ActionRow.empty).
Proof.
  intros Hw. apply width_gtb in Hw. cbn [step]. rewrite Hw. reflexivity.
Qed.

Lemma step_Seq_seals (rows : list (ActionRow.t W)) (auto : ActionRow.t W)
    (cs : list (ActionRow.member W)) :
  0 < ActionRow.width auto ->
  step (rows, auto) (Seq cs)
  = (r ← ActionRow.__init__ cs; Ok ((rows ++ [auto]) ++ [r], ActionRow.empty)).
Proof.
  intros Hw. apply width_gtb in Hw. cbn [step]. rewrite Hw. reflexivity.
Qed.

Ltac row_width :=
  unfold ActionRow.width, ActionRow.total_width;
  cbn [foldr ActionRow._children ActionRow.empty app]; lia.

(** X21: in the loop of [components_to_rows] (lines 859-887) an explicit
    row, or a literal sequence, is never merged into the auto row: a
    non-empty auto row is sealed first, whatever width it has left.  On
    [[item, item, row, item]], with items of width 1 and an empty row to
    start from, the result is the auto row of the first two items, the row
    itself, and an auto row of the last item. *)
Theorem pack_seals_before_explicit_group (a b c : W) (r : ActionRow.t W) :
  WrappedComponent.width a = 1 ->
  WrappedComponent.width b = 1 ->
  WrappedComponent.width c = 1 ->
  pack ActionRow.empty [Wrapped a; Wrapped b; Row r; Wrapped c]
  = Ok [ {| ActionRow._children := [a; b] |}; r; {| ActionRow._children := [c] |} ]
  /\ (forall rows auto, 0 < ActionRow.width auto ->
      step (rows, auto) (Row r) = Ok ((rows ++ [auto]) ++ [r], ActionRow.empty))
  /\ (forall rows auto cs, 0 < ActionRow.width auto ->
      step (rows, auto) (Seq cs)
      = (r' ← ActionRow.__init__ cs;
         Ok ((rows ++ [auto]) ++ [r'], ActionRow.empty))).
Proof.
  intros Ha Hb Hc. split; [|split; [intros; apply step_Row_seals; assumption
                                   |intros; apply step_Seq_seals; assumption]].
  unfold pack. cbn [loop].
  rewrite step_Wrapped_fits by row_width. cbn [mbind result_bind].
  rewrite step_Wrapped_fits by row_width. cbn [mbind result_bind].
  rewrite step_Row_seals by row_width. cbn [mbind result_bind].
  rewrite step_Wrapped_fits by row_width.
  cbn [mbind result_bind app ActionRow._children ActionRow.empty].
  assert ((ActionRow.width {| ActionRow._children := [c] |} >? 0) = true) as ->
    by (apply width_gtb; row_width).
  reflexivity.
Qed.

Lemma append_all_overflow (l : list W) (self : ActionRow.t W) :
  ActionRow.capacity self ->
  ActionRow.width self + ActionRow.total_width l > 5 ->
  exists self', ActionRow.append_all (ActionRow.Item <$> l) self
                = (Raise ValueError, self').
Proof.
  revert self. induction l as [|c l IH]; intros self Hcap Hover.
  - unfold ActionRow.capacity in Hcap. cbn in Hover. lia.
  - cbn [fmap list_fmap ActionRow.append_all].
    destruct (Z_le_gt_dec (ActionRow.width self + WrappedComponent.width c) 5)
      as [Hfits|Hfull].
    + rewrite append_item_fits by exact Hfits.
      apply IH.
      * unfold ActionRow.capacity. rewrite width_children. cbn [ActionRow._children].
        rewrite total_width_app. cbn. rewrite width_children in Hfits. lia.
      * rewrite width_children. cbn [ActionRow._children].
        rewrite total_width_app. rewrite total_width_cons in Hover.
        rewrite width_children in Hover. cbn. lia.
    + rewrite append_item_full by exact Hfull. eauto.
Qed.

Lemma init_overflow (l : list W) :
  ActionRow.total_width l > 5 -> ActionRow.__init__ (ActionRow.Item <$> l) = Raise ValueError.
Proof.
  intros Hover. unfold ActionRow.__init__.
  destruct (append_all_overflow l ActionRow.empty) as [self' ->];
    [apply capacity_empty|cbn; lia|reflexivity].
Qed.

Lemma step_Seq_overflow (st : locals) (l : list W) :
  ActionRow.total_width l > 5 -> step st (Seq (ActionRow.Item <$> l)) = Raise ValueError.
Proof.
  intros Hover. destruct st as [rows auto]. cbn [step].
  rewrite init_overflow by exact Hover.
  destruct (ActionRow.width auto >? 0); reflexivity.
Qed.

(** X22: in the loop of [components_to_rows] (lines 859-887) a plain
    component that does not fit the auto row seals it and starts a new auto
    row holding that component alone, without an error (six components of
    width 1 give a row of five and a row of one); a literal sequence whose
    total width exceeds 5 raises [ValueError]. *)
Theorem pack_overflow_new_row_or_error (i1 i2 i3 i4 i5 i6 : W) :
  Forall (fun c => WrappedComponent.width c = 1) [i1; i2; i3; i4; i5; i6] ->
  pack ActionRow.empty (Wrapped <$> [i1; i2; i3; i4; i5; i6])
  = Ok [ {| ActionRow._children := [i1; i2; i3; i4; i5] |};
         {| ActionRow._children := [i6] |} ]
  /\ pack ActionRow.empty [Seq (ActionRow.Item <$> [i1; i2; i3; i4; i5; i6])]
     = Raise ValueError
  /\ (forall rows auto c,
      ActionRow.width auto + WrappedComponent.width c > 5 ->
      WrappedComponent.width c <= 5 ->
      step (rows, auto) (Wrapped c)
      = Ok (rows ++ [auto], {| ActionRow._children := [c] |}))
  /\ (forall st l, ActionRow.total_width l > 5 ->
      step st (Seq (ActionRow.Item <$> l)) = Raise ValueError).
Proof.
  intros Hw.
  repeat match goal with
    | Hf : Forall _ (_ :: _) |- _ => apply Forall_cons in Hf as [? Hf]
    end.
  split; [|split; [|split]].
  - unfold pack. cbn [fmap list_fmap loop].
    do 5 (rewrite step_Wrapped_fits by row_width; cbn [mbind result_bind app ActionRow._children]).
    rewrite step_Wrapped_full by row_width.
    rewrite init_single by lia.
    cbn [mbind result_bind app ActionRow._children].
    assert ((ActionRow.width {| ActionRow._children := [i6] |} >? 0) = true) as ->
      by (apply width_gtb; row_width).
    reflexivity.
  - unfold pack. cbn [loop].
    rewrite step_Seq_overflow; [reflexivity|]. row_width.
  - intros rows auto c Hfull Hc. rewrite step_Wrapped_full by exact Hfull.
    rewrite init_single by exact Hc. reflexivity.
  - apply step_Seq_overflow.
Qed.

Lemma add_item_full {X} `{Holds W X} (self : ActionRow.t W) (i : option Z)
    (x : result X) :
  (forall x', x = Ok x' ->
     ActionRow.width self + WrappedComponent.width (hold x') > 5) ->
  exists e, ActionRow.add_item i x self = (Raise e, self).
Proof.
  intros Hx. destruct x as [x'|e]; cbn [ActionRow.add_item]; [|eauto].
  rewrite insert_item_full by (apply Hx; reflexivity). eauto.
Qed.

(** C10: an insertion that would take the row past width 5 raises
    [ValueError] and leaves the row as it was, at every index; so do
    [append_item] and the [add_*] helpers, which insert the item they build
    (an exception of the item's constructor leaves the row as it was, too).
    More generally, whenever [insert_item] raises, the row is unchanged. *)
Theorem failed_insert_leaves_row (self : ActionRow.t W) (index : Z) (item : W) :
  ActionRow.width self + WrappedComponent.width item > 5 ->
  ActionRow.insert_item index item self = (Raise ValueError, self)
  /\ ActionRow.append_item item self = (Raise ValueError, self)
  /\ (forall index' item' e self',
      ActionRow.insert_item index' item' self = (Raise e, self') -> self' = self)
  /\ (forall X (HX : Holds W X) (i : option Z) (x : result X),
      (forall x', x = Ok x' -> hold x' = item) ->
      exists e, ActionRow.add_item i x self = (Raise e, self))
  /\ (forall E (HE : PartialEmojiLike E) (HB : Holds W (Button.t E))
        token i style label disabled custom_id emoji,
      (forall b : Button.t E,
         ActionRow.width self + WrappedComponent.width (hold b) > 5) ->
      exists e, ActionRow.add_button token i style label disabled custom_id emoji self
                = (Raise e, self))
  /\ (forall E (HE : PartialEmojiLike E) (HU : Holds W (UrlButton.t E))
        i url label disabled emoji,
      (forall u : UrlButton.t E,
         ActionRow.width self + WrappedComponent.width (hold u) > 5) ->
      exists e, ActionRow.add_url_button i url label disabled emoji self
                = (Raise e, self)).
Proof.
  intros Hfull.
  split; [apply insert_item_full, Hfull|].
  split; [apply append_item_full, Hfull|].
  split; [|split; [|split]].
  - intros index' item' e self'. unfold ActionRow.insert_item.
    destruct (_ >? 5); intros [= <- <-] || intros [= _ <-]; reflexivity.
  - intros X HX i x Hx. apply add_item_full.
    intros x' Hx'. rewrite (Hx x' Hx'). exact Hfull.
  - intros E HE HB token i style label disabled custom_id emoji Hb.
    apply add_item_full. intros b _. apply Hb.
  - intros E HE HU i url label disabled emoji Hu.
    apply add_item_full. intros u _. apply Hu.
Qed.
End packing_edges.

(** *** The packing on concrete components *)


(** C5 (defect of the code): no output is produced.  On a nested sequence,
    and on a single component passed bare, [components_to_rows] raises
    [NameError] at line 857 (every time it is called), so there are no rows
    whose children could be compared with the input.  The loop, entered with
    an empty row, returns rows whose children, concatenated, are the
    components of the input in order. *)
Theorem packing_order_name_error :
  ui.components_to_rows sample_nested
  = Raise (NameError "ConstrainedComponentPayloadT")
  /\ ui.components_to_rows (ui.a_component (item "a"))
     = Raise (NameError "ConstrainedComponentPayloadT")
  /\ ui.pack ui.ActionRow.empty (ui.normalize sample_nested)
     = Ok [ {| ui.ActionRow._children := [item "a"] |};
            {| ui.ActionRow._children := [item "b"; item "c"] |};
            {| ui.ActionRow._children := [item "d"] |} ]
  /\ ui.pack ui.ActionRow.empty (ui.normalize (ui.a_component (item "a")))
     = Ok [ {| ui.ActionRow._children := [item "a"] |} ].
Proof. repeat split. Qed.

(** C6 (defect of the code): on [[item, item, row of 2 items, item]],
    [components_to_rows] raises [NameError] at line 857 instead of returning
    the three rows.  The loop, entered with an empty row, seals the auto row
    of the first two items, passes the explicit row through and puts the
    last item in a new auto row. *)
Theorem explicit_group_name_error :
  ui.components_to_rows sample_input
  = Raise (NameError "ConstrainedComponentPayloadT")
  /\ ui.pack ui.ActionRow.empty (ui.normalize sample_input)
     = Ok [ {| ui.ActionRow._children := [item "a"; item "b"] |};
            sample_explicit_row;
            {| ui.ActionRow._children := [item "e"] |} ].
Proof. split; reflexivity. Qed.

(** C7 (defect of the code): on six items of width 1, [components_to_rows]
    raises [NameError] at line 857 where the claim has two rows and no
    error; on a literal list of six items passed as one group it raises the
    same [NameError], not the [ValueError] of a row that is too wide.  The
    loop, entered with an empty row, returns the rows of five and of one for
    the first input and raises [ValueError] for the second, as the
    constructor of [ActionRow] does on the six items. *)
Theorem overflow_name_error :
  ui.components_to_rows sample_six
  = Raise (NameError "ConstrainedComponentPayloadT")
  /\ ui.components_to_rows sample_literal_six
     = Raise (NameError "ConstrainedComponentPayloadT")
  /\ ui.pack ui.ActionRow.empty (ui.normalize sample_six)
     = Ok [ sample_full_row; {| ui.ActionRow._children := [item "f"] |} ]
  /\ ui.pack ui.ActionRow.empty (ui.normalize sample_literal_six)
     = Raise ValueError
  /\ ui.ActionRow.__init__ (ui.ActionRow.Item <$> sample_six_items)
     = Raise ValueError.
Proof. repeat split. Qed.

(** The loop on concrete components. *)

Lemma pack_capacity_witness :
  Forall ui.ActionRow.capacity
    [ {| ui.ActionRow._children := [item "a"; item "b"] |};
      sample_explicit_row;
      {| ui.ActionRow._children := [item "e"] |} ].
Proof.
  apply (pack_capacity ui.ActionRow.empty (ui.normalize sample_input)).
  - unfold ui.ActionRow.capacity. vm_compute. discriminate.
  - constructor; [|constructor].
    unfold ui.ActionRow.capacity. vm_compute. discriminate.
  - reflexivity.
Defined.

Lemma pack_preserves_order_witness :
  concat (map ui.ActionRow._children
    [ {| ui.ActionRow._children := [item "a"; item "b"] |};
      sample_explicit_row;
      {| ui.ActionRow._children := [item "e"] |} ])
  = [item "a"; item "b"; item "c"; item "d"; item "e"].
Proof.
  apply (pack_preserves_order ui.ActionRow.empty (ui.normalize sample_input)).
  - constructor.
  - repeat constructor.
  - reflexivity.
Defined.

Lemma pack_seals_before_explicit_group_witness :
  ui.pack ui.ActionRow.empty (ui.normalize sample_input)
  = Ok [ {| ui.ActionRow._children := [item "a"; item "b"] |};
         sample_explicit_row;
         {| ui.ActionRow._children := [item "e"] |} ].
Proof.
  apply (pack_seals_before_explicit_group (item "a") (item "b") (item "e")
           sample_explicit_row); reflexivity.
Defined.

Lemma pack_overflow_new_row_or_error_witness :
  ui.pack ui.ActionRow.empty (ui.normalize sample_six)
  = Ok [ sample_full_row; {| ui.ActionRow._children := [item "f"] |} ]
  /\ ui.pack ui.ActionRow.empty (ui.normalize sample_literal_six)
     = Raise ValueError.
Proof.
  destruct (pack_overflow_new_row_or_error
    (item "a") (item "b") (item "c") (item "d") (item "e") (item "f"))
    as (Hsix & Hseq & _).
  - repeat constructor.
  - split; [exact Hsix|exact Hseq].
Defined.

Lemma failed_insert_leaves_row_witness :
  ui.ActionRow.insert_item 2 (item "f") sample_full_row
  = (Raise ValueError, sample_full_row)
  /\ ui.ActionRow.append_item (item "f") sample_full_row
     = (Raise ValueError, sample_full_row).
Proof.
  destruct (failed_insert_leaves_row sample_full_row 2 (item "f"))
    as (Hins & Happ & _).
  - reflexivity.
  - split; [exact Hins|exact Happ].
Defined.

(** ** Equality of select options *)

(** C9, as stated, fails: two [SelectOption] objects built by two
    constructor calls with the same arguments have the same attributes and
    compare unequal. *)
Lemma select_option_eq_not_by_value :
  let '(a, next) := construct sample_option 0 in
  let '(b, _) := construct sample_option next in
  attributes a = attributes b /\ object.__eq__ a b = false.
Proof. split; reflexivity. Qed.

(** C9, amended: [SelectOption] defines no [__eq__], so [==] is identity:
    two select options compare equal exactly when they are the same object,
    whatever their attributes; an object compares equal to itself, and two
    objects built by successive constructor calls compare unequal. *)
Theorem select_option_eq_identity {E} (a b : instance (SelectOption.t E)) :
  (object.__eq__ a b = true <-> id_ a = id_ b)
  /\ object.__eq__ a a = true
  /\ (forall (x y : SelectOption.t E) (next : nat),
      let '(p, next') := construct x next in
      let '(q, _) := construct y next' in
      object.__eq__ p q = false).
Proof.
  unfold object.__eq__. split; [apply Nat.eqb_eq|].
  split; [apply Nat.eqb_refl|].
  intros x y next. cbn. apply Nat.eqb_neq. lia.
Qed.

(** * Further properties of the codec *)

Section normal_form.
Context `{PartialEmojiLaws E}.

Lemma SelectOption_normalizes (o : SelectOption.t E) :
  SelectOption.from_dict (SelectOption.to_dict o) = Ok (normal_option o).
Proof.
  destruct o as [label value [[|a s]|] [e|] dflt];
    unfold SelectOption.to_dict, SelectOption.from_dict, SelectOption.__init__,
      normal_option, normal_emoji;
    unfold_getters;
    cbn [SelectOption.label SelectOption.value SelectOption.description
         SelectOption.emoji SelectOption.default str_truthy normal_str];
    try destruct (emoji_truthy e);
    simplify_map_eq; rewrite ?emoji_from_to; reflexivity.
Qed.

Lemma UrlButton_normalizes (b : UrlButton.t E) :
  UrlButton_ <$> UrlButton.from_payload (UrlButton.to_dict b) = Ok (normal (UrlButton_ b)).
Proof.
  destruct b as [url dis [[|a s]|] [e|]];
    unfold UrlButton.to_dict, UrlButton.from_payload, normal, normal_emoji;
    unfold_getters;
    cbn [UrlButton.label UrlButton.emoji UrlButton.url UrlButton.disabled
         str_truthy normal_str];
    try destruct (emoji_truthy e);
    simplify_map_eq; rewrite ?emoji_from_to; reflexivity.
Qed.

Lemma Button_normalizes (b : Button.t E) :
  Button_ <$> Button.from_payload (Button.to_dict b) = Ok (normal (Button_ b)).
Proof.
  destruct b as [style cid dis [[|a s]|] [e|]];
    unfold Button.to_dict, Button.from_payload, normal, normal_emoji;
    unfold_getters;
    cbn [Button.label Button.emoji Button.style Button.custom_id
         Button.disabled str_truthy normal_str];
    try destruct (emoji_truthy e);
    simplify_map_eq; rewrite ?emoji_from_to; reflexivity.
Qed.

Lemma BaseSelectMenu_normalizes (type : Z) (s : BaseSelectMenu.t) :
  BaseSelectMenu.from_payload (BaseSelectMenu.to_dict type s) = Ok (normal_select s).
Proof.
  destruct s as [cid [[|a p]|] mn mx dis]; reflexivity.
Qed.

Lemma options_normalize (l : list (SelectOption.t E)) :
  mapM StringSelectMenu.option_from_json
    (map (fun op => JObj (SelectOption.to_dict op)) l) = Ok (map normal_option l).
Proof.
  induction l as [|o l IH]; [reflexivity|].
  cbn [map mapM StringSelectMenu.option_from_json].
  rewrite SelectOption_normalizes. cbn [mbind result_bind].
  rewrite IH. reflexivity.
Qed.

Lemma StringSelectMenu_normalizes (s : StringSelectMenu.t E) :
  StringSelectMenu_ <$> StringSelectMenu.from_payload (StringSelectMenu.to_dict s)
  = Ok (normal (StringSelectMenu_ s)).
Proof.
  destruct s as [base opts].
  unfold StringSelectMenu.to_dict, StringSelectMenu.from_payload.
  cbn [StringSelectMenu.base StringSelectMenu.options normal].
  rewrite !BaseSelectMenu_from_payload_insert by done.
  rewrite BaseSelectMenu_normalizes. cbn [mbind result_bind].
  rewrite lookup_insert_eq. unfold fmap at 2, list_fmap.
  fold (map (fun op : SelectOption.t E => JObj (SelectOption.to_dict op)) opts).
  rewrite options_normalize. reflexivity.
Qed.

Lemma ChannelSelectMenu_normalizes (s : ChannelSelectMenu.t) :
  ChannelSelectMenu_ (E:=E) <$> ChannelSelectMenu.from_payload (ChannelSelectMenu.to_dict s)
  = Ok (normal (ChannelSelectMenu_ s)).
Proof.
  destruct s as [base types].
  unfold ChannelSelectMenu.to_dict, ChannelSelectMenu.from_payload.
  cbn [ChannelSelectMenu.base ChannelSelectMenu.channel_types normal].
  assert (BaseSelectMenu.to_dict ComponentType.channel_select base
          !! "channel_types" = None) as Hnone.
  { destruct base as [cid [[|a p]|] mn mx dis]; reflexivity. }
  destruct types as [[|t ts]|].
  - rewrite !BaseSelectMenu_from_payload_insert by done.
    rewrite BaseSelectMenu_normalizes. cbn [mbind result_bind].
    rewrite lookup_insert_ne by done. rewrite Hnone. reflexivity.
  - rewrite !BaseSelectMenu_from_payload_insert by done.
    rewrite BaseSelectMenu_normalizes. cbn [mbind result_bind].
    rewrite lookup_insert_eq.
    change (JList (JInt <$> t :: ts)) with (JList (JInt t :: (JInt <$> ts))).
    cbn [py_truthy].
    change (JInt t :: (JInt <$> ts)) with (JInt <$> t :: ts).
    rewrite channel_types_roundtrip. reflexivity.
  - rewrite !BaseSelectMenu_from_payload_insert by done.
    rewrite BaseSelectMenu_normalizes. cbn [mbind result_bind].
    rewrite lookup_insert_ne by done. rewrite Hnone. reflexivity.
Qed.

Lemma mapM_map_Ok_with {A B C} (f : B -> result C) (g : A -> B) (h : A -> C)
    (l : list A) :
  Forall (fun x => f (g x) = Ok (h x)) l -> mapM f (map g l) = Ok (map h l).
Proof.
  induction 1 as [|x l Hx _ IH]; [reflexivity|].
  cbn [map mapM]. rewrite Hx. cbn [mbind result_bind]. rewrite IH. reflexivity.
Qed.

Lemma factory_normal (x : Component E) :
  _component_factory (JObj (to_dict x)) = Ok (normal x).
Proof.
  induction x as [children IH|b|b|s|t|s|s|s|s] using Component_ind';
    cbn [to_dict].
  - rewrite _component_factory_unfold.
    unfold factory_body, ActionRowComponent.from_payload, getitem.
    cbn [normal]. simplify_map_eq. cbn [py_eq_int Z.eqb Pos.eqb].
    rewrite (mapM_map_Ok_with _ _ normal); [reflexivity|exact IH].
  - rewrite factory_UrlButton. apply UrlButton_normalizes.
  - rewrite factory_Button. apply Button_normalizes.
  - rewrite factory_StringSelectMenu. apply StringSelectMenu_normalizes.
  - rewrite factory_TextInput, TextInput_roundtrip. reflexivity.
  - destruct (factory_BaseSelectMenu (E:=E) s) as (Hf & _ & _).
    rewrite Hf, BaseSelectMenu_normalizes. reflexivity.
  - destruct (factory_BaseSelectMenu (E:=E) s) as (_ & Hf & _).
    rewrite Hf, BaseSelectMenu_normalizes. reflexivity.
  - destruct (factory_BaseSelectMenu (E:=E) s) as (_ & _ & Hf).
    rewrite Hf, BaseSelectMenu_normalizes. reflexivity.
  - rewrite factory_ChannelSelectMenu. apply ChannelSelectMenu_normalizes.
Qed.

Lemma set_str_normal (o : option string) (k : string) (payload : dict) :
  set_str (normal_str o) k payload = set_str o k payload.
Proof. destruct o as [[|a s]|]; reflexivity. Qed.

Lemma set_emoji_normal (o : option E) (payload : dict) :
  set_emoji (normal_emoji o) payload = set_emoji o payload.
Proof.
  destruct o as [e|]; [|reflexivity]. cbn [normal_emoji set_emoji].
  destruct (emoji_truthy e) eqn:He; cbn [set_emoji]; rewrite ?He; reflexivity.
Qed.

Lemma BaseSelectMenu_to_dict_normal (type : Z) (s : BaseSelectMenu.t) :
  BaseSelectMenu.to_dict type (normal_select s) = BaseSelectMenu.to_dict type s.
Proof.
  unfold BaseSelectMenu.to_dict, normal_select.
  cbn [BaseSelectMenu.placeholder BaseSelectMenu.custom_id
       BaseSelectMenu.min_values BaseSelectMenu.max_values BaseSelectMenu.disabled].
  apply set_str_normal.
Qed.

Lemma SelectOption_to_dict_normal (o : SelectOption.t E) :
  SelectOption.to_dict (normal_option o) = SelectOption.to_dict o.
Proof.
  unfold SelectOption.to_dict, normal_option.
  cbn [SelectOption.label SelectOption.value SelectOption.description
       SelectOption.emoji SelectOption.default].
  rewrite set_str_normal, set_emoji_normal. reflexivity.
Qed.

(** X2: an encoding does not tell a component from its normal form, so
    that encoding, decoding and encoding again gives the first encoding. *)
Theorem encode_decode_encode (x : Component E) :
  to_dict (normal x) = to_dict x
  /\ (to_dict <$> _component_factory (JObj (to_dict x))) = Ok (to_dict x).
Proof.
  assert (to_dict (normal x) = to_dict x) as Hn.
  { induction x as [children IH|b|b|s|t|s|s|s|s] using Component_ind';
      cbn [normal to_dict].
    - do 3 f_equal. rewrite map_map. apply map_ext_Forall.
      eapply Forall_impl; [exact IH|]. intros c Hc. cbn. rewrite Hc. reflexivity.
    - unfold UrlButton.to_dict.
      cbn [UrlButton.label UrlButton.emoji UrlButton.url UrlButton.disabled].
      rewrite set_str_normal, set_emoji_normal. reflexivity.
    - unfold Button.to_dict.
      cbn [Button.label Button.emoji Button.style Button.custom_id Button.disabled].
      rewrite set_str_normal, set_emoji_normal. reflexivity.
    - unfold StringSelectMenu.to_dict.
      cbn [StringSelectMenu.base StringSelectMenu.options].
      rewrite BaseSelectMenu_to_dict_normal. do 2 f_equal.
      induction (StringSelectMenu.options s) as [|o l IHl]; [reflexivity|].
      cbn [map fmap list_fmap] in *.
      rewrite SelectOption_to_dict_normal, IHl. reflexivity.
    - reflexivity.
    - apply BaseSelectMenu_to_dict_normal.
    - apply BaseSelectMenu_to_dict_normal.
    - apply BaseSelectMenu_to_dict_normal.
    - unfold ChannelSelectMenu.to_dict.
      cbn [ChannelSelectMenu.base ChannelSelectMenu.channel_types].
      rewrite BaseSelectMenu_to_dict_normal.
      destruct (ChannelSelectMenu.channel_types s) as [[|t ts]|]; reflexivity. }
  split; [exact Hn|].
  rewrite factory_normal. cbn. rewrite Hn. reflexivity.
Qed.

Lemma normal_str_fixed (o : option string) :
  normal_str o = o <-> str_kept o = true.
Proof. destruct o as [[|a s]|]; cbn; split; congruence. Qed.

Lemma normal_emoji_fixed (o : option E) :
  normal_emoji o = o <-> emoji_kept o = true.
Proof.
  destruct o as [e|]; cbn; [|split; congruence].
  destruct (emoji_truthy e); split; congruence.
Qed.

Lemma normal_select_fixed (s : BaseSelectMenu.t) :
  normal_select s = s <-> select_kept s = true.
Proof.
  unfold select_kept. rewrite <- normal_str_fixed.
  destruct s as [cid p mn mx dis]. unfold normal_select. cbn. split.
  - intros [= Hp]. exact Hp.
  - intros ->. reflexivity.
Qed.

Lemma normal_option_fixed (o : SelectOption.t E) :
  normal_option o = o <-> option_kept o = true.
Proof.
  unfold option_kept. rewrite andb_true_iff, <- normal_str_fixed, <- normal_emoji_fixed.
  destruct o as [label value d e dflt]. unfold normal_option. cbn. split.
  - intros [= Hd He]. auto.
  - intros [-> ->]. reflexivity.
Qed.

Lemma map_fixed {A} (f : A -> A) (p : A -> bool) (l : list A) :
  Forall (fun x => f x = x <-> p x = true) l ->
  map f l = l <-> forallb p l = true.
Proof.
  induction 1 as [|x l Hx _ IH]; cbn [map forallb]; [tauto|].
  rewrite andb_true_iff, <- Hx, <- IH. split.
  - intros [= Hfx Hl]. auto.
  - intros [-> ->]. reflexivity.
Qed.

Lemma normal_fixed (x : Component E) : normal x = x <-> kept x = true.
Proof.
  induction x as [children IH|b|b|s|t|s|s|s|s] using Component_ind';
    cbn [normal kept].
  - rewrite <- (map_fixed normal kept children IH). split.
    + intros [= Hc]. exact Hc.
    + intros ->. reflexivity.
  - rewrite andb_true_iff, <- normal_str_fixed, <- normal_emoji_fixed.
    destruct b as [url dis l e]. cbn. split.
    + intros [= Hl He]. auto.
    + intros [-> ->]. reflexivity.
  - rewrite andb_true_iff, <- normal_str_fixed, <- normal_emoji_fixed.
    destruct b as [style cid dis l e]. cbn. split.
    + intros [= Hl He]. auto.
    + intros [-> ->]. reflexivity.
  - rewrite andb_true_iff, <- normal_select_fixed.
    rewrite <- (map_fixed normal_option option_kept (StringSelectMenu.options s))
      by (apply Forall_forall; intros o _; apply normal_option_fixed).
    destruct s as [base opts]. cbn. split.
    + intros [= Hb Ho]. auto.
    + intros [-> ->]. reflexivity.
  - tauto.
  - rewrite <- normal_select_fixed. split; [intros [= Hs]; exact Hs|intros ->; reflexivity].
  - rewrite <- normal_select_fixed. split; [intros [= Hs]; exact Hs|intros ->; reflexivity].
  - rewrite <- normal_select_fixed. split; [intros [= Hs]; exact Hs|intros ->; reflexivity].
  - rewrite andb_true_iff, <- normal_select_fixed.
    destruct s as [base types]. cbn. split.
    + intros [= Hb Ht]. split; [exact Hb|]. destruct types as [[|t ts]|]; congruence.
    + intros [-> Ht]. destruct types as [[|t ts]|]; congruence.
Qed.

(** X1: decoding the encoding of any component never raises and gives the
    component with its empty optional attributes (an empty label,
    placeholder or description, a falsy emoji, an empty channel list)
    replaced by [None]; so the round trip gives the component back exactly
    when it has no such attribute. *)
Theorem decode_encode_normalizes (x : Component E) :
  _component_factory (JObj (to_dict x)) = Ok (normal x)
  /\ (_component_factory (JObj (to_dict x)) = Ok x <-> kept x = true).
Proof.
  split; [apply factory_normal|].
  rewrite factory_normal, <- normal_fixed. split; congruence.
Qed.
End normal_form.

Section tags.
Context `{PartialEmojiLike E}.

Lemma to_dict_type (x : Component E) :
  to_dict x !! "type" = Some (JInt (type_of x)).
Proof.
  destruct x as [children|b|b|s|t|s|s|s|s]; cbn [to_dict type_of].
  - reflexivity.
  - destruct b as [url dis [[|a l]|] [e|]]; unfold UrlButton.to_dict;
      cbn [UrlButton.label UrlButton.emoji set_str set_emoji str_truthy];
      try destruct (emoji_truthy e); reflexivity.
  - destruct b as [style cid dis [[|a l]|] [e|]]; unfold Button.to_dict;
      cbn [Button.label Button.emoji set_str set_emoji str_truthy];
      try destruct (emoji_truthy e); reflexivity.
  - apply StringSelectMenu_to_dict_type.
  - destruct t as [cid style label [mn|] [mx|] req [v|] [p|]]; reflexivity.
  - apply BaseSelectMenu_to_dict_type.
  - apply BaseSelectMenu_to_dict_type.
  - apply BaseSelectMenu_to_dict_type.
  - apply ChannelSelectMenu_to_dict_type.
Qed.

(** X3: every encoding carries the tag of its class under [type], a tag
    between 1 and 8; and the component that the factory decodes from a
    payload has the class of the payload's tag, so that encoding it writes a
    tag that compares equal to the one read. *)
Theorem factory_preserves_tag (w : dict) (x : Component E) :
  _component_factory (JObj w) = Ok x ->
  (exists tag, w !! "type" = Some tag /\ py_eq_int tag (type_of x) = true)
  /\ to_dict x !! "type" = Some (JInt (type_of x))
  /\ 1 <= type_of x <= 8.
Proof.
  intros Hx. split; [|split; [apply to_dict_type|]].
  - rewrite _component_factory_unfold in Hx. unfold factory_body, getitem in Hx.
    destruct (w !! "type") as [tag|]; [|discriminate]. cbn [mbind result_bind] in Hx.
    exists tag. split; [reflexivity|].
    repeat match type of Hx with
      | (if ?c then _ else _) = _ => destruct c eqn:?
      end;
      try discriminate;
      [unfold ActionRowComponent.from_payload in Hx;
       apply bind_Ok in Hx as (children & _ & Hx); injection Hx as <-;
       assumption
      |apply fmap_Ok in Hx as (b & _ & ->); cbn [type_of]; assumption..].
  - destruct x; cbn [type_of];
      unfold ComponentType.action_row, ComponentType.button,
        ComponentType.string_select, ComponentType.text_input,
        ComponentType.user_select, ComponentType.role_select,
        ComponentType.mentionable_select, ComponentType.channel_select; lia.
Qed.
End tags.

(** ** Missing keys *)

Lemma bind_Raise {A B} (c : result A) (k : A -> result B) (e : exn) :
  c ≫= k = Raise e -> c = Raise e \/ exists a, c = Ok a /\ k a = Raise e.
Proof. destruct c as [a|e']; cbn; [eauto|]. intros [= ->]. auto. Qed.

Lemma getitem_str_KeyError (w : dict) (key k : string) :
  getitem w key ≫= as_str = Raise (KeyError k) -> w !! k = None /\ k = key.
Proof.
  unfold getitem. destruct (w !! key) as [[]|] eqn:Hw; cbn; try discriminate.
  intros [= <-]. auto.
Qed.

Lemma getitem_int_KeyError (w : dict) (key k : string) :
  getitem w key ≫= as_int = Raise (KeyError k) -> w !! k = None /\ k = key.
Proof.
  unfold getitem. destruct (w !! key) as [[]|] eqn:Hw; cbn; try discriminate.
  intros [= <-]. auto.
Qed.

Lemma get_opt_str_KeyError (w : dict) (key k : string) :
  get_opt_str w key <> Raise (KeyError k).
Proof. unfold get_opt_str. destruct (w !! key) as [[]|]; discriminate. Qed.

Lemma get_opt_int_KeyError (w : dict) (key k : string) :
  get_opt_int w key <> Raise (KeyError k).
Proof. unfold get_opt_int. destruct (w !! key) as [[]|]; discriminate. Qed.

Lemma get_bool_KeyError (w : dict) (key k : string) (d : bool) :
  get_bool w key d <> Raise (KeyError k).
Proof. unfold get_bool. destruct (w !! key) as [[]|]; discriminate. Qed.

Lemma get_int_KeyError (w : dict) (key k : string) (d : Z) :
  get_int w key d <> Raise (KeyError k).
Proof. unfold get_int. destruct (w !! key) as [[]|]; discriminate. Qed.

(** Follow a decoder to the statement that raised the [KeyError]. *)
Ltac key_error Hr :=
  repeat (apply bind_Raise in Hr as [Hr|(? & _ & Hr)];
    [first [apply getitem_str_KeyError in Hr as [? ->]; cbn; auto
           |apply getitem_int_KeyError in Hr as [? ->]; cbn; auto
           |exfalso; revert Hr;
            first [apply get_opt_str_KeyError|apply get_opt_int_KeyError
                  |apply get_bool_KeyError|apply get_int_KeyError]]
    |]);
  try discriminate Hr.

Lemma mapM_Raise {A B} (f : A -> result B) (l : list A) (e : exn) :
  mapM f l = Raise e -> exists a, a ∈ l /\ f a = Raise e.
Proof.
  induction l as [|a l IH]; cbn [mapM]; [discriminate|].
  intros Hr. apply bind_Raise in Hr as [Hr|(b & _ & Hr)].
  - exists a. split; [left|exact Hr].
  - apply bind_Raise in Hr as [Hr|(bs & _ & Hr)]; [|discriminate].
    destruct (IH Hr) as (a' & Ha' & Hf). exists a'. split; [right; exact Ha'|exact Hf].
Qed.

Section key_errors.
Context `{PartialEmojiLike E}.

Lemma SelectOption_KeyError (data : dict) (k : string) :
  SelectOption.from_dict (E:=E) data = Raise (KeyError k) ->
  data !! k = None /\ In k ["label"; "value"].
Proof. intros Hr. unfold SelectOption.from_dict in Hr. key_error Hr. Qed.

Lemma BaseSelectMenu_KeyError (w : dict) (k : string) :
  BaseSelectMenu.from_payload w = Raise (KeyError k) ->
  w !! k = None /\ k = "custom_id".
Proof. intros Hr. unfold BaseSelectMenu.from_payload in Hr. key_error Hr. Qed.

(** X4: a decoder raises [KeyError] only for a key that its class requires
    and that the payload lacks: [style] or [custom_id] for a button, [url]
    for a URL button, [custom_id] for a select menu (the base class and the
    channel select), [custom_id] or [label] for a text input, [label] or
    [value] for a select option; a string select raises it for [custom_id],
    or for the [label] or [value] that one of its options lacks.  An
    optional key never does. *)
Theorem key_error_is_required_key (w : dict) (k : string) :
  (Button.from_payload (E:=E) w = Raise (KeyError k) ->
   w !! k = None /\ In k ["style"; "custom_id"])
  /\ (UrlButton.from_payload (E:=E) w = Raise (KeyError k) ->
      w !! k = None /\ k = "url")
  /\ (BaseSelectMenu.from_payload w = Raise (KeyError k) ->
      w !! k = None /\ k = "custom_id")
  /\ (TextInput.from_payload w = Raise (KeyError k) ->
      w !! k = None /\ In k ["custom_id"; "label"])
  /\ (SelectOption.from_dict (E:=E) w = Raise (KeyError k) ->
      w !! k = None /\ In k ["label"; "value"])
  /\ (StringSelectMenu.from_payload (E:=E) w = Raise (KeyError k) ->
      (w !! k = None /\ k = "custom_id")
      \/ exists options data,
           w !! "options" = Some (JList options) /\ JObj data ∈ options
           /\ data !! k = None /\ In k ["label"; "value"])
  /\ (ChannelSelectMenu.from_payload w = Raise (KeyError k) ->
      w !! k = None /\ k = "custom_id").
Proof.
  split; [|split; [|split; [|split; [|split; [|split]]]]]; intros Hr.
  - unfold Button.from_payload in Hr. key_error Hr.
  - unfold UrlButton.from_payload in Hr. key_error Hr.
  - apply BaseSelectMenu_KeyError, Hr.
  - unfold TextInput.from_payload in Hr. key_error Hr.
  - apply SelectOption_KeyError, Hr.
  - unfold StringSelectMenu.from_payload in Hr.
    apply bind_Raise in Hr as [Hr|(base & _ & Hr)];
      [left; apply BaseSelectMenu_KeyError, Hr|].
    apply bind_Raise in Hr as [Hr|(os & _ & Hr)]; [|discriminate].
    destruct (w !! "options") as [[| | | |options|]|] eqn:Hoptions; try discriminate.
    apply mapM_Raise in Hr as (option & Hin & Hr).
    destruct option as [| | | | |data]; try discriminate.
    right. exists options, data.
    split; [reflexivity|]. split; [exact Hin|].
    apply SelectOption_KeyError, Hr.
  - unfold ChannelSelectMenu.from_payload in Hr.
    apply bind_Raise in Hr as [Hr|(base & _ & Hr)];
      [apply BaseSelectMenu_KeyError, Hr|].
    exfalso.
    apply bind_Raise in Hr as [Hr|(types & _ & Hr)]; [|discriminate].
    destruct (w !! "channel_types") as [v|]; [|discriminate].
    destruct (py_truthy v); [|discriminate].
    destruct v as [| | | |l|]; try discriminate.
    destruct (mapM (fun t => try_enum <$> as_int t) l) as [zs|e] eqn:Hl;
      [discriminate|].
    injection Hr as ->.
    apply mapM_Raise in Hl as (t & _ & Ht). destruct t; discriminate.
Qed.
End key_errors.

(** ** Rows of components on the wire *)

Lemma mapM_Ok_Forall2 {A B} (f : A -> result B) (l : list A) (k : list B) :
  mapM f l = Ok k <-> Forall2 (fun a b => f a = Ok b) l k.
Proof.
  revert k. induction l as [|a l IH]; intros k; cbn [mapM].
  - split.
    + intros [= <-]. constructor.
    + intros Hk. inversion Hk. reflexivity.
  - split.
    + intros Hk. apply bind_Ok in Hk as (b & Hb & Hk).
      apply bind_Ok in Hk as (k' & Hk' & Hk). injection Hk as <-.
      constructor; [exact Hb|]. apply IH, Hk'.
    + intros Hk. inversion Hk as [|a' b l' k' Hb Hk']; subst.
      rewrite Hb. cbn [mbind result_bind].
      apply IH in Hk'. rewrite Hk'. reflexivity.
Qed.

Lemma mapM_first_failure {A B} (f : A -> result B) (l1 l2 : list A) (a : A) (e : exn) :
  Forall (fun x => exists y, f x = Ok y) l1 -> f a = Raise e ->
  mapM f (l1 ++ a :: l2) = Raise e.
Proof.
  intros Hl1 Ha. induction Hl1 as [|x l1 [y Hx] _ IH]; cbn [app mapM].
  - rewrite Ha. reflexivity.
  - rewrite Hx. cbn [mbind result_bind]. rewrite IH. reflexivity.
Qed.

Section wire_rows.
Context `{PartialEmojiLike E}.

(** X5: an action-row payload decodes to the row of its decoded children,
    in order, and only when every child decodes (rows inside rows included:
    the factory is applied to each child); without a [components] key it
    decodes to the empty row, and the exception of the first child that
    fails is the exception of the row. *)
Theorem action_row_decodes_children (w : dict) :
  (w !! "components" = None ->
   ActionRowComponent.from_payload (E:=E) w = Ok (ActionRow_ []))
  /\ (forall l x, w !! "components" = Some (JList l) ->
      (ActionRowComponent.from_payload w = Ok x <->
       exists children : list (Component E),
         x = ActionRow_ children
         /\ Forall2 (fun d c => _component_factory d = Ok c) l children))
  /\ (forall l1 d l2 e, w !! "components" = Some (JList (l1 ++ d :: l2)) ->
      Forall (fun d' => exists c : Component E, _component_factory d' = Ok c) l1 ->
      _component_factory (E:=E) d = Raise e ->
      ActionRowComponent.from_payload (E:=E) w = Raise e).
Proof.
  unfold ActionRowComponent.from_payload. split; [|split].
  - intros ->. reflexivity.
  - intros l x ->. split.
    + intros Hx. apply bind_Ok in Hx as (children & Hc & Hx). injection Hx as <-.
      exists children. split; [reflexivity|]. apply mapM_Ok_Forall2, Hc.
    + intros (children & -> & Hc). apply mapM_Ok_Forall2 in Hc.
      rewrite Hc. reflexivity.
  - intros l1 d l2 e -> Hl1 Hd.
    rewrite (mapM_first_failure _ l1 l2 d e Hl1 Hd). reflexivity.
Qed.

Lemma _SelectMenuPayload_insert (k : string) (v : json) (w : dict) :
  k ∉ ["custom_id"; "placeholder"; "min_values"; "max_values"; "disabled"] ->
  _SelectMenuPayload (<[k := v]> w) = _SelectMenuPayload w.
Proof.
  rewrite !not_elem_of_cons. intros (? & ? & ? & ? & ? & _).
  unfold _SelectMenuPayload, required_key, not_required_key.
  rewrite !lookup_insert_ne by done. reflexivity.
Qed.

Lemma BaseSelectMenu_to_dict_declared (type : Z) (s : BaseSelectMenu.t) :
  _SelectMenuPayload (BaseSelectMenu.to_dict type s) = true.
Proof. destruct s as [cid [[|a p]|] mn mx dis]; reflexivity. Qed.

Lemma options_declared (l : list (SelectOption.t E)) :
  forallb (is_dict SelectOptionPayload)
    ((fun op => JObj (SelectOption.to_dict op)) <$> l) = true.
Proof.
  induction l as [|o l IH]; [reflexivity|].
  cbn [fmap list_fmap forallb is_dict]. apply andb_true_intro. split; [|exact IH].
  destruct o as [label value [[|a d]|] [e|] dflt]; unfold SelectOption.to_dict;
    cbn [SelectOption.description SelectOption.emoji set_str set_emoji str_truthy];
    try destruct (emoji_truthy e); reflexivity.
Qed.

(** X6: the encoders write payloads that follow the declarations of
    [disnake/types/components.py]: every required key is present, every
    key has the declared type and [type] is the literal of the class.  The
    literal sets of [style] are the exception: the payload of a button
    follows [ButtonPayload] exactly when its style is one of 1, 2, 3, 4, and
    the [style] of a text input is in [TextInputStyle] exactly when it is 1
    or 2. *)
Theorem encodings_follow_declarations :
  (forall b : Button.t E,
     ButtonPayload (Button.to_dict b) = bool_decide (Button.style b ∈ [1; 2; 3; 4]))
  /\ (forall b : UrlButton.t E, UrlButtonPayload (UrlButton.to_dict b) = true)
  /\ (forall o : SelectOption.t E, SelectOptionPayload (SelectOption.to_dict o) = true)
  /\ (forall type s,
      BaseSelectMenuPayload (BaseSelectMenu.to_dict type s)
      = bool_decide (type ∈ [3; 5; 6; 7; 8]))
  /\ (forall s : StringSelectMenu.t E,
      StringSelectMenuPayload (StringSelectMenu.to_dict s) = true)
  /\ (forall s,
      UserSelectMenuPayload (BaseSelectMenu.to_dict ComponentType.user_select s) = true
      /\ RoleSelectMenuPayload (BaseSelectMenu.to_dict ComponentType.role_select s) = true
      /\ MentionableSelectMenuPayload
           (BaseSelectMenu.to_dict ComponentType.mentionable_select s) = true)
  /\ (forall s, ChannelSelectMenuPayload (ChannelSelectMenu.to_dict s) = true)
  /\ (forall t,
      TextInputPayload (TextInput.to_dict t) = true
      /\ required_key (TextInput.to_dict t) "style" TextInputStyleT
         = bool_decide (TextInput.style t ∈ [1; 2])).
Proof.
  assert (forall type s, BaseSelectMenu.to_dict type s !! "type" = Some (JInt type))
    as Htype.
  { intros type [cid [[|a p]|] mn mx dis]; reflexivity. }
  split; [|split; [|split; [|split; [|split; [|split; [|split]]]]]].
  - intros [style cid dis label emoji].
    transitivity (ButtonStyleT (JInt style) && true && true && true && true);
      [|rewrite !andb_true_r; reflexivity].
    destruct label as [[|a l]|], emoji as [e|]; unfold Button.to_dict;
      cbn [Button.label Button.emoji set_str set_emoji str_truthy];
      try destruct (emoji_truthy e); reflexivity.
  - intros [url dis [[|a l]|] [e|]]; unfold UrlButton.to_dict;
      cbn [UrlButton.label UrlButton.emoji set_str set_emoji str_truthy];
      try destruct (emoji_truthy e); reflexivity.
  - intros [label value [[|a d]|] [e|] dflt]; unfold SelectOption.to_dict;
      cbn [SelectOption.description SelectOption.emoji set_str set_emoji str_truthy];
      try destruct (emoji_truthy e); reflexivity.
  - intros type s. unfold BaseSelectMenuPayload, required_key.
    rewrite BaseSelectMenu_to_dict_declared, Htype. reflexivity.
  - intros s. unfold StringSelectMenuPayload, StringSelectMenu.to_dict, required_key.
    rewrite !_SelectMenuPayload_insert by not_a_key.
    rewrite BaseSelectMenu_to_dict_declared.
    rewrite lookup_insert_ne, lookup_insert_eq, lookup_insert_eq by done.
    cbn [is_list_of andb is_literal]. apply options_declared.
  - intros s. unfold UserSelectMenuPayload, RoleSelectMenuPayload,
      MentionableSelectMenuPayload, required_key.
    rewrite !BaseSelectMenu_to_dict_declared, !Htype. repeat split.
  - intros s. unfold ChannelSelectMenuPayload, ChannelSelectMenu.to_dict,
      required_key, not_required_key.
    destruct (ChannelSelectMenu.channel_types s) as [[|t ts]|].
    + rewrite _SelectMenuPayload_insert by not_a_key.
      rewrite BaseSelectMenu_to_dict_declared, lookup_insert_eq.
      rewrite lookup_insert_ne by done.
      destruct (ChannelSelectMenu.base s) as [cid [[|a p]|] mn mx dis]; reflexivity.
    + rewrite !_SelectMenuPayload_insert by not_a_key.
      rewrite BaseSelectMenu_to_dict_declared.
      rewrite lookup_insert_ne, lookup_insert_eq, lookup_insert_eq by done.
      cbn [is_literal is_list_of andb Z.eqb Pos.eqb]. change (8 =? 8) with true.
      cbn [andb forallb is_int]. clear. induction ts as [|t' ts IH]; [reflexivity|].
      cbn [fmap list_fmap forallb is_int andb] in *. exact IH.
    + rewrite _SelectMenuPayload_insert by not_a_key.
      rewrite BaseSelectMenu_to_dict_declared, lookup_insert_eq.
      rewrite lookup_insert_ne by done.
      destruct (ChannelSelectMenu.base s) as [cid [[|a p]|] mn mx dis]; reflexivity.
  - intros [cid style label [mn|] [mx|] req [v|] [p|]]; split; reflexivity.
Qed.
End wire_rows.

(** * Further properties of the rows *)

Section row_methods.
Import ui.
Context `{WrappedComponent.t W}.

(** X7: an insertion that fits adds the item and nothing else: the row is
    one longer and wider by the width of the item.  The item lands at
    [index] when [0 <= index <= len], at the end for a larger index, before
    the element that a negative index designates, and at the front when the
    negative index reaches before the start. *)
Theorem insert_item_position (index : Z) (item : W) (self : ActionRow.t W) :
  ActionRow.width self + WrappedComponent.width item <= 5 ->
  exists self',
    ActionRow.insert_item index item self = (Ok tt, self')
    /\ ActionRow.__len__ self' = ActionRow.__len__ self + 1
    /\ ActionRow.width self' = ActionRow.width self + WrappedComponent.width item
    /\ let n := ActionRow.__len__ self in
       let children := ActionRow._children self in
       let children' := ActionRow._children self' in
       (0 <= index <= n ->
          children' !! Z.to_nat index = Some item
          /\ delete (Z.to_nat index) children' = children)
       /\ (n < index -> children' = children ++ [item])
       /\ (- n <= index < 0 ->
          children' !! Z.to_nat (index + n) = Some item
          /\ delete (Z.to_nat (index + n)) children' = children)
       /\ (index < - n -> children' = item :: children).
Proof.
  intros Hfits. eexists. split; [apply insert_item_fits, Hfits|].
  unfold ActionRow.__len__. cbn [ActionRow._children].
  destruct self as [l]. cbn [ActionRow._children].
  assert (forall i, (i <= length l)%nat ->
            (take i l ++ item :: drop i l) !! i = Some item
            /\ delete i (take i l ++ item :: drop i l) = l) as Hpos.
  { intros i Hi. split.
    - rewrite lookup_app_r by (rewrite length_take; lia).
      rewrite length_take. replace (i - i `min` length l)%nat with 0%nat by lia.
      reflexivity.
    - replace i with (length (take i l)) at 1 by (rewrite length_take; lia).
      rewrite delete_middle. apply take_drop. }
  split; [|split].
  - unfold list_insert_py. rewrite length_app, length_take. cbn [length].
    rewrite length_drop. lia.
  - rewrite !width_children. cbn [ActionRow._children].
    apply total_width_insert.
  - cbv zeta. unfold list_insert_py.
    split; [|split; [|split]].
    + intros [Hlo Hhi].
      assert ((index <? 0) = false) as Hlt by (apply Z.ltb_ge; lia).
      rewrite Hlt. cbv iota. rewrite Hlt.
      assert ((index >? Z.of_nat (length l)) = false) as ->
        by (rewrite Z.gtb_ltb; apply Z.ltb_ge; lia).
      apply Hpos. lia.
    + intros Hbig.
      assert ((index <? 0) = false) as Hlt by (apply Z.ltb_ge; lia).
      rewrite Hlt. cbv iota. rewrite Hlt.
      assert ((index >? Z.of_nat (length l)) = true) as ->
        by (rewrite Z.gtb_ltb; apply Z.ltb_lt; lia).
      rewrite Nat2Z.id, firstn_all, drop_all. reflexivity.
    + intros [Hlo Hhi].
      assert ((index <? 0) = true) as -> by (apply Z.ltb_lt; lia).
      assert ((index + Z.of_nat (length l) <? 0) = false) as ->
        by (apply Z.ltb_ge; lia).
      assert ((index + Z.of_nat (length l) >? Z.of_nat (length l)) = false) as ->
        by (rewrite Z.gtb_ltb; apply Z.ltb_ge; lia).
      apply Hpos. lia.
    + intros Hsmall.
      assert ((index <? 0) = true) as -> by (apply Z.ltb_lt; lia).
      assert ((index + Z.of_nat (length l) <? 0) = true) as ->
        by (apply Z.ltb_lt; lia).
      reflexivity.
Qed.
End row_methods.

Section removal_proofs.
Import ui.
Context `{WrappedComponent.t W} `{EqDecision W}.

Lemma list_remove_py_None (x : W) (l : list W) :
  list_remove_py x l = None <-> x ∉ l.
Proof.
  induction l as [|y l IH]; cbn [list_remove_py].
  - split; [intros _; apply not_elem_of_nil|reflexivity].
  - destruct (decide (y = x)) as [->|Hne].
    + split; [discriminate|]. intros Hx. exfalso. apply Hx. left.
    + rewrite not_elem_of_cons. destruct (list_remove_py x l) as [l'|]; cbn.
      * split; [discriminate|]. intros [_ Hx]. apply IH in Hx. discriminate.
      * split; [|reflexivity]. intros _. split; [congruence|]. apply IH. reflexivity.
Qed.

(** Removing [x] deletes its first occurrence. *)
Lemma list_remove_py_Some (x : W) (l l' : list W) :
  list_remove_py x l = Some l' <->
  exists j, l !! j = Some x /\ (forall j', (j' < j)%nat -> l !! j' <> Some x)
            /\ l' = delete j l.
Proof.
  revert l'. induction l as [|y l IH]; intros l'; cbn [list_remove_py].
  - split; [discriminate|]. intros (j & Hj & _). discriminate Hj.
  - destruct (decide (y = x)) as [->|Hne].
    + split.
      * intros [= <-]. exists 0%nat.
        split; [reflexivity|split; [intros j' Hj'; lia|reflexivity]].
      * intros (j & Hj & Hfirst & ->). destruct j as [|j]; [reflexivity|].
        exfalso. apply (Hfirst 0%nat); [lia|reflexivity].
    + split.
      * intros Hr. destruct (list_remove_py x l) as [l0|] eqn:Hl; [|discriminate].
        injection Hr as <-. destruct (proj1 (IH l0) eq_refl) as (j & Hj & Hfirst & ->).
        exists (S j). split; [exact Hj|split; [|reflexivity]].
        intros [|j'] Hj'; cbn; [congruence|]. apply Hfirst. lia.
      * intros (j & Hj & Hfirst & ->). destruct j as [|j]; [cbn in Hj; congruence|].
        cbn in Hj. rewrite (proj2 (IH (delete j l))); [reflexivity|].
        exists j. split; [exact Hj|split; [|reflexivity]].
        intros j' Hj'. apply (Hfirst (S j')). lia.
Qed.

Lemma total_width_delete (l : list W) (j : nat) (x : W) :
  l !! j = Some x ->
  ActionRow.total_width (delete j l) = ActionRow.total_width l - WrappedComponent.width x.
Proof.
  revert j. induction l as [|y l IH]; intros [|j] Hj; try discriminate.
  - injection Hj as ->. change (delete 0%nat (x :: l)) with l.
    rewrite total_width_cons. lia.
  - cbn in Hj. change (delete (S j) (y :: l)) with (y :: delete j l).
    rewrite !total_width_cons, (IH j Hj). lia.
Qed.

Lemma remove_item_present (item : W) (self : ActionRow.t W) :
  item ∈ ActionRow._children self ->
  exists j,
    ActionRow._children self !! j = Some item
    /\ (forall j', (j' < j)%nat -> ActionRow._children self !! j' <> Some item)
    /\ ActionRow.remove_item item self
       = (Ok tt, {| ActionRow._children := delete j (ActionRow._children self) |})
    /\ ActionRow.width {| ActionRow._children := delete j (ActionRow._children self) |}
       = ActionRow.width self - WrappedComponent.width item.
Proof.
  intros Hx. unfold ActionRow.remove_item.
  destruct (list_remove_py item (ActionRow._children self)) as [l'|] eqn:Hl.
  - apply list_remove_py_Some in Hl as (j & Hj & Hfirst & ->).
    exists j. split; [exact Hj|split; [exact Hfirst|split; [reflexivity|]]].
    rewrite !width_children. cbn [ActionRow._children].
    apply total_width_delete, Hj.
  - apply list_remove_py_None in Hl. contradiction.
Qed.

(** X8: [remove_item] removes the first occurrence of the item, making the
    row one shorter and narrower by the width of the item; when the item is
    not in the row it raises [ValueError] and leaves the row as it was; and
    removing an item that was just inserted into a row that did not hold it
    gives the row back. *)
Theorem remove_item_first_occurrence (item : W) (self : ActionRow.t W) :
  (item ∉ ActionRow._children self ->
   ActionRow.remove_item item self = (Raise ValueError, self))
  /\ (item ∈ ActionRow._children self ->
      exists j,
        ActionRow._children self !! j = Some item
        /\ (forall j', (j' < j)%nat -> ActionRow._children self !! j' <> Some item)
        /\ ActionRow.remove_item item self
           = (Ok tt, {| ActionRow._children := delete j (ActionRow._children self) |})
        /\ ActionRow.width {| ActionRow._children := delete j (ActionRow._children self) |}
           = ActionRow.width self - WrappedComponent.width item)
  /\ (forall index,
      item ∉ ActionRow._children self ->
      ActionRow.width self + WrappedComponent.width item <= 5 ->
      ActionRow.remove_item item (ActionRow.insert_item index item self).2
      = (Ok tt, self)).
Proof.
  split; [|split].
  - intros Hx. unfold ActionRow.remove_item.
    rewrite (proj2 (list_remove_py_None _ _) Hx). reflexivity.
  - apply remove_item_present.
  - intros index Hx Hfits. rewrite insert_item_fits by exact Hfits. cbn [snd].
    unfold ActionRow.remove_item. cbn [ActionRow._children].
    destruct self as [l]. cbn [ActionRow._children] in *.
    unfold list_insert_py. set (i := Z.to_nat _).
    assert (list_remove_py item (take i l ++ item :: drop i l) = Some l) as ->;
      [|reflexivity].
    apply list_remove_py_Some. exists (length (take i l)).
    split; [|split].
    + rewrite lookup_app_r by lia. rewrite Nat.sub_diag. reflexivity.
    + intros j' Hj'. rewrite lookup_app_l by exact Hj'.
      intros Hin. apply Hx. apply list_elem_of_lookup. exists j'.
      rewrite lookup_take_Some in Hin. tauto.
    + rewrite delete_middle. symmetry. apply take_drop.
Qed.
End removal_proofs.

Section pop_proofs.
Import ui.
Context `{WrappedComponent.t W} `{EqDecision W}.

Lemma py_index_out (n index : Z) :
  index < - n \/ n <= index -> 0 <= n -> py_index n index = None.
Proof.
  intros Hout Hn. unfold py_index.
  destruct (Z.ltb_spec index 0) as [Hneg|Hpos].
  - destruct Hout as [Hout|Hout]; [|lia].
    assert ((index + n <? 0) = true) as -> by (apply Z.ltb_lt; lia). reflexivity.
  - destruct Hout as [Hout|Hout]; [lia|].
    assert ((index <? 0) = false) as -> by (apply Z.ltb_ge; lia).
    assert ((index >=? n) = true) as -> by (apply Z.geb_le; lia). reflexivity.
Qed.

Lemma py_index_in (n index : Z) :
  - n <= index < n ->
  exists i, py_index n index = Some i /\ (Z.of_nat i < n)
            /\ Z.of_nat i = (if index <? 0 then index + n else index).
Proof.
  intros Hin. unfold py_index.
  destruct (Z.ltb_spec index 0) as [Hneg|Hpos].
  - assert ((index + n <? 0) = false) as -> by (apply Z.ltb_ge; lia).
    assert ((index + n >=? n) = false) as ->.
    { destruct (Z.geb_spec (index + n) n); [lia|reflexivity]. }
    eexists. split; [reflexivity|]. lia.
  - assert ((index <? 0) = false) as -> by (apply Z.ltb_ge; lia).
    assert ((index >=? n) = false) as ->.
    { destruct (Z.geb_spec index n); [lia|reflexivity]. }
    eexists. split; [reflexivity|]. lia.
Qed.

(** X9: [pop(index)] raises [IndexError], the row unchanged, when the index
    is out of range ([index < -len] or [index >= len]).  Otherwise it returns
    the component at that position (a negative index counting from the end)
    and removes the first occurrence of that component, which is the
    position itself when no component is held twice; it raises nothing
    else. *)
Theorem pop_removes_first_occurrence (index : Z) (self : ActionRow.t W) :
  let n := ActionRow.__len__ self in
  let children := ActionRow._children self in
  (index < - n \/ n <= index -> ActionRow.pop index self = (Raised IndexError, self))
  /\ (- n <= index < n ->
      exists (i j : nat) (component : W),
        Z.of_nat i = (if index <? 0 then index + n else index)
        /\ children !! i = Some component
        /\ children !! j = Some component
        /\ (j <= i)%nat
        /\ (forall j', (j' < j)%nat -> children !! j' <> Some component)
        /\ ActionRow.pop index self
           = (Returned component, {| ActionRow._children := delete j children |})
        /\ (NoDup children -> j = i)).
Proof.
  cbv zeta. unfold ActionRow.__len__. split.
  - intros Hout. unfold ActionRow.pop, ActionRow.__getitem__.
    rewrite py_index_out by (exact Hout || lia). reflexivity.
  - intros Hin. destruct (py_index_in _ _ Hin) as (i & Hi & Hlt & Hval).
    destruct (lookup_lt_is_Some_2 (ActionRow._children self) i) as [c Hc]; [lia|].
    assert (c ∈ ActionRow._children self) as Hmem
      by (apply list_elem_of_lookup; eauto).
    destruct (remove_item_present c self Hmem) as (j & Hj & Hfirst & Hrun & _).
    exists i, j, c. split; [exact Hval|]. split; [exact Hc|]. split; [exact Hj|].
    assert (j <= i)%nat as Hle.
    { destruct (Nat.le_gt_cases j i) as [?|Hgt]; [assumption|].
      exfalso. exact (Hfirst i Hgt Hc). }
    split; [exact Hle|]. split; [exact Hfirst|]. split.
    + unfold ActionRow.pop, ActionRow.__getitem__. rewrite Hi, Hc, Hrun. reflexivity.
    + intros Hnd. eapply NoDup_lookup; eassumption.
Qed.
End pop_proofs.

Section invariant.
Import ui.
Context `{WrappedComponent.t W} `{EqDecision W}.

Lemma remove_item_capacity (item : W) (self : ActionRow.t W) :
  (forall c : W, 0 <= WrappedComponent.width c) ->
  ActionRow.capacity self ->
  ActionRow.capacity (ActionRow.remove_item item self).2.
Proof.
  intros Hnn Hcap. unfold ActionRow.remove_item.
  destruct (list_remove_py item (ActionRow._children self)) as [l'|] eqn:Hl;
    cbn [snd]; [|exact Hcap].
  apply list_remove_py_Some in Hl as (j & Hj & _ & ->).
  unfold ActionRow.capacity in *. rewrite width_children in *.
  cbn [ActionRow._children]. rewrite (total_width_delete _ _ _ Hj).
  specialize (Hnn item). lia.
Qed.

Lemma after_call_capacity (self : ActionRow.t W) (c : call W) :
  (forall c : W, 0 <= WrappedComponent.width c) ->
  ActionRow.capacity self -> ActionRow.capacity (after_call self c).
Proof.
  intros Hnn Hcap. destruct c as [index item|item| |item|index]; cbn [after_call].
  - apply insert_item_capacity, Hcap.
  - apply insert_item_capacity, Hcap.
  - apply capacity_empty.
  - apply remove_item_capacity; assumption.
  - unfold ActionRow.pop.
    destruct (ActionRow.__getitem__ index self) as [component|e]; [|exact Hcap].
    pose proof (remove_item_capacity component self Hnn Hcap) as Hrem.
    destruct (ActionRow.remove_item component self) as [[[]|e] self']; exact Hrem.
Qed.

(** X10: a row keeps the capacity invariant through its whole life: built
    by the constructor and changed by any sequence of calls of
    [insert_item], [append_item], [clear_items], [remove_item] and [pop],
    whether they raise or not, its width is at most 5, the widths of the
    components being non-negative. *)
Theorem row_capacity_invariant (components : list (ActionRow.member W))
    (self : ActionRow.t W) (calls : list (call W)) :
  (forall c : W, 0 <= WrappedComponent.width c) ->
  ActionRow.__init__ components = Ok self ->
  ActionRow.capacity (after_calls self calls).
Proof.
  intros Hnn Hinit. apply init_spec in Hinit as [Hcap _].
  unfold after_calls. revert self Hcap.
  induction calls as [|c calls IH]; intros self Hcap; [exact Hcap|].
  cbn [foldl]. apply IH, after_call_capacity; assumption.
Qed.

(** X11: [walk_components] yields every component of every row exactly
    once, rows in order and components in order within their row, each
    paired with the row that holds it. *)
Theorem walk_components_spec (action_rows : list (ActionRow.t W)) :
  map snd (ActionRow.walk_components action_rows)
  = concat (map ActionRow._children action_rows)
  /\ Forall (fun p => p.1 ∈ action_rows /\ p.2 ∈ ActionRow._children p.1)
       (ActionRow.walk_components action_rows)
  /\ map fst (ActionRow.walk_components action_rows)
     = concat (map (fun row => replicate (length (ActionRow._children row)) row)
                 action_rows).
Proof.
  unfold ActionRow.walk_components.
  assert (forall (row : ActionRow.t W) (l : list W),
            (component ← l; [(row, component)]) = map (fun c => (row, c)) l) as Hrow.
  { intros row l. induction l as [|c l IH]; [reflexivity|].
    cbn [mbind list_bind app map] in *. rewrite IH. reflexivity. }
  induction action_rows as [|row rows (IHs & IHm & IHf)];
    [split; [reflexivity|split; [constructor|reflexivity]]|].
  cbn [mbind list_bind map concat]. rewrite Hrow.
  split; [|split].
  - rewrite map_app, IHs, map_map. cbn [snd]. rewrite map_id. reflexivity.
  - apply Forall_app. split.
    + apply Forall_forall. intros p Hp. apply list_elem_of_In, in_map_iff in Hp
        as (c & <- & Hc). cbn [fst snd]. split; [left|apply list_elem_of_In, Hc].
    + eapply Forall_impl; [exact IHm|]. intros p [Hp1 Hp2]. split; [right|]; assumption.
  - rewrite map_app, IHf, map_map. cbn [fst]. f_equal.
    induction (ActionRow._children row) as [|c l IHl]; [reflexivity|].
    cbn [map length replicate]. rewrite IHl. reflexivity.
Qed.
End invariant.

(** * Further properties of the packing *)

Section acceptance_proofs.
Import ui.
Context `{WrappedComponent.t W}.
Hypothesis width_nonneg : forall c : W, 0 <= WrappedComponent.width c.

Lemma total_width_nonneg' (l : list W) : 0 <= ActionRow.total_width l.
Proof.
  induction l as [|c l IH]; [reflexivity|].
  rewrite total_width_cons. specialize (width_nonneg c). lia.
Qed.

Lemma append_all_fits (l : list W) (self : ActionRow.t W) :
  ActionRow.width self + ActionRow.total_width l <= 5 ->
  ActionRow.append_all (ActionRow.Item <$> l) self
  = (Ok tt, {| ActionRow._children := ActionRow._children self ++ l |}).
Proof.
  revert self. induction l as [|c l IH]; intros self Hfits.
  - cbn. rewrite app_nil_r. destruct self. reflexivity.
  - cbn [fmap list_fmap ActionRow.append_all].
    rewrite total_width_cons in Hfits. pose proof (total_width_nonneg' l).
    rewrite append_item_fits by lia.
    change (list_fmap W (ActionRow.member W) ActionRow.Item l)
      with (ActionRow.Item <$> l).
    rewrite IH.
    + cbn [ActionRow._children]. rewrite <- app_assoc. reflexivity.
    + rewrite width_children. cbn [ActionRow._children].
      rewrite total_width_app, total_width_cons. cbn.
      rewrite width_children in Hfits. lia.
Qed.

Lemma init_Ok_iff (components : list (ActionRow.member W)) :
  (exists r, ActionRow.__init__ components = Ok r) <-> fits_a_row components.
Proof.
  unfold fits_a_row. split.
  - intros [r Hr]. unfold ActionRow.__init__ in Hr.
    pose proof (append_all_spec components ActionRow.empty capacity_empty) as Hspec.
    destruct (ActionRow.append_all components ActionRow.empty) as [[[]|e] self];
      [|discriminate].
    destruct Hspec as (Hcap & Hch & Hitems). split.
    + rewrite Hitems. intros Hin. apply list_elem_of_fmap in Hin as (c & Hc & _).
      discriminate.
    + unfold ActionRow.capacity in Hcap. rewrite width_children, Hch in Hcap.
      exact Hcap.
  - intros [Hnc Hw].
    assert (components = ActionRow.Item <$> items_of components) as Hitems.
    { clear Hw. induction components as [|[c|] ms IH]; [reflexivity| |].
      - cbn. f_equal. apply IH. intros Hin. apply Hnc. right. exact Hin.
      - exfalso. apply Hnc. left. }
    unfold ActionRow.__init__. rewrite Hitems, append_all_fits by (cbn; lia).
    eauto.
Qed.

Lemma step_Ok_iff (st : locals) (component : entry W) :
  (exists st', step st component = Ok st') <-> accepted component.
Proof.
  destruct st as [rows auto].
  pose proof (total_width_nonneg' (ActionRow._children auto)) as Hauto.
  rewrite <- width_children in Hauto.
  destruct component as [c|r|cs|]; cbn [accepted].
  - destruct (Z_le_gt_dec (ActionRow.width auto + WrappedComponent.width c) 5)
      as [Hfits|Hfull].
    + rewrite step_Wrapped_fits by exact Hfits. split; [intros _; lia|eauto].
    + rewrite step_Wrapped_full by exact Hfull.
      destruct (Z_le_gt_dec (WrappedComponent.width c) 5) as [Hc|Hc].
      * rewrite init_single by exact Hc. split; [intros _; exact Hc|eauto].
      * rewrite init_single_full by exact Hc. split; [intros [? [=]]|lia].
  - cbn [step]. destruct (ActionRow.width auto >? 0); split; eauto.
  - rewrite <- init_Ok_iff. cbn [step].
    destruct (ActionRow.width auto >? 0);
      destruct (ActionRow.__init__ cs) as [r|e]; cbn [mbind result_bind];
      split; eauto; intros [? [=]].
  - cbn [step]. destruct (ActionRow.width auto >? 0); split;
      solve [intros [? [=]]|intros []].
Qed.

Lemma loop_Ok_iff (components : list (entry W)) (st : locals) :
  (exists st', loop components st = Ok st') <-> Forall accepted components.
Proof.
  revert st. induction components as [|c cs IH]; intros st; cbn [loop].
  - split; [constructor|eauto].
  - rewrite Forall_cons, <- (step_Ok_iff st c). split.
    + intros [st' Hloop]. apply bind_Ok in Hloop as (st1 & Hstep & Hloop).
      split; [eauto|]. apply (IH st1). eauto.
    + intros [[st1 Hstep] Hcs]. rewrite Hstep. cbn [mbind result_bind].
      apply IH, Hcs.
Qed.
End acceptance_proofs.

Section acceptance_claims.
Import ui.
Context `{WrappedComponent.t W}.

(** X12: the constructor of [ActionRow] returns a row exactly when every
    argument is a component and the widths add up to at most 5; the row then
    holds the arguments in order.  The widths of the components are
    non-negative. *)
Theorem constructor_succeeds_iff (components : list (ActionRow.member W)) :
  (forall c : W, 0 <= WrappedComponent.width c) ->
  ((exists r, ActionRow.__init__ components = Ok r) <-> fits_a_row components)
  /\ (forall r, ActionRow.__init__ components = Ok r ->
      ActionRow._children r = items_of components
      /\ components = ActionRow.Item <$> ActionRow._children r).
Proof.
  intros Hnn. split; [apply init_Ok_iff, Hnn|].
  intros r Hr. unfold ActionRow.__init__ in Hr.
  pose proof (append_all_spec components ActionRow.empty capacity_empty) as Hspec.
  destruct (ActionRow.append_all components ActionRow.empty) as [[[]|e] self];
    [|discriminate].
  injection Hr as <-. destruct Hspec as (_ & Hch & Hitems).
  cbn [ActionRow._children ActionRow.empty app] in Hch.
  split; [exact Hch|]. rewrite Hch. exact Hitems.
Qed.

(** X13: the loop and the final seal of [components_to_rows] (lines
    859-887), whatever the auto row they are entered with, return rows
    exactly when every entry is accepted: a plain component of width at most
    5, a row, or a sequence that the constructor of [ActionRow] takes; they
    raise otherwise.  The widths of the components are non-negative. *)
Theorem pack_succeeds_iff (auto_row : ActionRow.t W) (components : list (entry W)) :
  (forall c : W, 0 <= WrappedComponent.width c) ->
  (exists rows, pack auto_row components = Ok rows)
  <-> Forall accepted components.
Proof.
  intros Hnn. rewrite <- (loop_Ok_iff Hnn components ([], auto_row)).
  unfold pack. split.
  - intros [rows Hrows]. apply bind_Ok in Hrows as (st & Hloop & _). eauto.
  - intros [[rows auto] ->]. cbn [mbind result_bind].
    destruct (ActionRow.width auto >? 0); eauto.
Qed.
End acceptance_claims.

Section chunks.
Import ui.
Context `{WrappedComponent.t W}.

Lemma unit_total_width (l : list W) :
  unit_widths l -> ActionRow.total_width l = Z.of_nat (length l).
Proof.
  induction 1 as [|c l Hc _ IH]; [reflexivity|].
  rewrite total_width_cons, Hc, IH. cbn [length]. lia.
Qed.

Lemma loop_flat_unit (l : list W) (acc : list (ActionRow.t W)) (auto : ActionRow.t W) :
  unit_widths l -> unit_widths (ActionRow._children auto) ->
  (length (ActionRow._children auto) <= 5)%nat ->
  exists sealed auto',
    loop (Wrapped <$> l) (acc, auto) = Ok (acc ++ sealed, auto')
    /\ unit_widths (ActionRow._children auto')
    /\ (length (ActionRow._children auto') <= 5)%nat
    /\ (l <> [] -> (1 <= length (ActionRow._children auto'))%nat)
    /\ Forall (fun r => length (ActionRow._children r) = 5%nat) sealed
    /\ concat (map ActionRow._children sealed) ++ ActionRow._children auto'
       = ActionRow._children auto ++ l.
Proof.
  revert acc auto. induction l as [|c l IH]; intros acc auto Hl Hauto Hlen.
  - exists [], auto. cbn [fmap list_fmap loop]. rewrite !app_nil_r.
    repeat split; auto. congruence.
  - apply Forall_cons in Hl as [Hc Hl]. cbn [fmap list_fmap loop].
    pose proof (unit_total_width _ Hauto) as Hw. rewrite <- width_children in Hw.
    destruct (decide (length (ActionRow._children auto) = 5%nat)) as [Hfull|Hroom].
    + rewrite step_Wrapped_full by lia. rewrite init_single by lia.
      cbn [mbind result_bind].
      destruct (IH (acc ++ [auto]) {| ActionRow._children := [c] |} Hl)
        as (sealed & auto' & Hloop & Hu & Hle & Hne & Hfive & Hcat).
      { constructor; [exact Hc|constructor]. }
      { cbn. lia. }
      exists (auto :: sealed), auto'.
      change (list_fmap W (entry W) Wrapped l) with (Wrapped <$> l).
      rewrite Hloop, <- app_assoc. split; [reflexivity|].
      split; [exact Hu|]. split; [exact Hle|]. split.
      * intros _. destruct l as [|c' l'].
        -- cbn [fmap list_fmap loop] in Hloop. injection Hloop as Hacc <-.
           cbn. lia.
        -- apply Hne. discriminate.
      * split; [constructor; assumption|].
        cbn [map concat]. rewrite <- app_assoc, Hcat. reflexivity.
    + rewrite step_Wrapped_fits by lia. cbn [mbind result_bind].
      destruct (IH acc {| ActionRow._children := ActionRow._children auto ++ [c] |} Hl)
        as (sealed & auto' & Hloop & Hu & Hle & Hne & Hfive & Hcat).
      { cbn [ActionRow._children]. apply Forall_app. split; [exact Hauto|].
        constructor; [exact Hc|constructor]. }
      { cbn [ActionRow._children]. rewrite length_app. cbn. lia. }
      exists sealed, auto'.
      change (list_fmap W (entry W) Wrapped l) with (Wrapped <$> l).
      rewrite Hloop. split; [reflexivity|].
      split; [exact Hu|]. split; [exact Hle|]. split.
      * intros _. destruct l as [|c' l'].
        -- cbn [fmap list_fmap loop] in Hloop. injection Hloop as Hacc <-.
           cbn [ActionRow._children]. rewrite length_app. cbn. lia.
        -- apply Hne. discriminate.
      * split; [exact Hfive|].
        rewrite Hcat. cbn [ActionRow._children]. rewrite <- app_assoc. reflexivity.
Qed.

(** X14: the loop and the final seal of [components_to_rows] (lines
    859-887), entered with an empty auto row, cut a flat sequence of
    components of width 1 into rows of five: the children of the rows,
    concatenated, are the sequence; every row but the last holds exactly 5
    components and the last holds between 1 and 5, so that [n] components
    give [(n + 4) / 5] rows. *)
Theorem pack_flat_rows_of_five (l : list W) :
  unit_widths l ->
  exists rows,
    pack ActionRow.empty (Wrapped <$> l) = Ok rows
    /\ concat (map ActionRow._children rows) = l
    /\ Forall (fun r => length (ActionRow._children r) = 5%nat) (removelast rows)
    /\ (forall r, last rows = Some r ->
        (1 <= length (ActionRow._children r) <= 5)%nat)
    /\ Z.of_nat (length rows) = (Z.of_nat (length l) + 4) / 5.
Proof.
  intros Hl.
  destruct (loop_flat_unit l [] ActionRow.empty Hl)
    as (sealed & auto & Hloop & Hu & Hle & Hne & Hfive & Hcat);
    [constructor|cbn; lia|].
  cbn [app ActionRow._children ActionRow.empty] in Hloop, Hcat.
  assert (length l = (5 * length sealed + length (ActionRow._children auto))%nat)
    as Hcount.
  { rewrite <- Hcat, length_app. f_equal.
    clear -Hfive. induction Hfive as [|r rs Hr _ IH]; [reflexivity|].
    cbn [map concat length]. rewrite length_app, Hr, IH. lia. }
  unfold pack. rewrite Hloop. cbn [mbind result_bind].
  pose proof (unit_total_width _ Hu) as Hw. rewrite <- width_children in Hw.
  destruct l as [|c l].
  - cbn [fmap list_fmap loop] in Hloop. injection Hloop as <- <-.
    exists [].
    split; [reflexivity|split; [reflexivity|split; [constructor|]]].
    split; [intros r' [=]|reflexivity].
  - specialize (Hne ltac:(discriminate)).
    assert ((ActionRow.width auto >? 0) = true) as ->
      by (rewrite Z.gtb_ltb; apply Z.ltb_lt; lia).
    exists (sealed ++ [auto]). split; [reflexivity|].
    split; [rewrite map_app, concat_app; cbn; rewrite app_nil_r; exact Hcat|].
    split; [rewrite removelast_last; exact Hfive|].
    split.
    + intros r Hr. rewrite last_snoc in Hr. injection Hr as <-. lia.
    + rewrite length_app, Hcount. cbn [length].
      apply Z.div_unique with
        (r := Z.of_nat (length (ActionRow._children auto)) - 1); lia.
Qed.
End chunks.

(** * Further properties of the UI layer *)

Section encoding_rows.
Import ui.
Context `{WrappedComponent.t W} `{PartialEmojiLaws E} `{Underlying W E}.

(** X15: [ActionRow.to_dict] writes an action-row payload: the tag 1 and,
    under [components], the encodings of the underlying components of the
    row, in order; the factory decodes the payload to the row of the
    underlying components, in normal form. *)
Theorem row_to_dict_decodes (row : ActionRow.t W) :
  row_to_dict row !! "type" = Some (JInt 1)
  /\ row_to_dict row !! "components"
     = Some (JList ((fun c => JObj (to_dict (_underlying c)))
                      <$> ActionRow._children row))
  /\ _component_factory (JObj (row_to_dict row))
     = Ok (ActionRow_ ((fun c => normal (_underlying c)) <$> ActionRow._children row)).
Proof.
  unfold row_to_dict, row_underlying. split; [reflexivity|].
  split.
  - cbn [to_dict]. rewrite map_map. reflexivity.
  - rewrite factory_normal. cbn [normal]. rewrite map_map. reflexivity.
Qed.

(** X23: [components_to_rows] and [components_to_dict], which calls it,
    raise [NameError] on every argument: also on one that the loop would
    reject with [TypeError] or [ValueError], and on the empty sequence. *)
Theorem packing_entry_points_raise (components : NestedComponents W) :
  components_to_rows components = Raise (NameError "ConstrainedComponentPayloadT")
  /\ components_to_dict components
     = Raise (NameError "ConstrainedComponentPayloadT").
Proof.
  split; [apply components_to_rows_NameError|].
  unfold components_to_dict. rewrite components_to_rows_NameError. reflexivity.
Qed.
End encoding_rows.

Section buttons.
Import ui.
Context `{PartialEmojiLike E}.

Lemma check_row_Ok (row : option Z) :
  (exists r, check_row row = Ok r) <->
  match row with Some v => 0 <= v < 5 | None => True end.
Proof.
  destruct row as [v|]; cbn [check_row]; [|split; eauto].
  destruct (Z.gtb_spec 5 v), (Z.geb_spec v 0); cbn [andb]; split;
    eauto; try lia; intros [? [=]].
Qed.

(** X16: the constructor of the UI [Button] returns a button exactly when
    the style is not [url], the emoji is a string, an emoji object or
    [None], and the row is [None] or within 0..4; it raises [ValueError] for
    the style and the row and [TypeError] for the emoji.  Without a
    [custom_id] the button takes the generated token and is not persistent;
    with one it keeps it and is persistent. *)
Theorem button_constructor (token : string) (style : Z) (label : option string)
    (disabled : bool) (custom_id : option string)
    (emoji : option (emoji_arg E)) (row : option Z) :
  ((exists b, Button.__init__ token style label disabled custom_id emoji row = Ok b)
   <-> style <> ButtonStyle.url
       /\ emoji <> Some emoji_other
       /\ match row with Some v => 0 <= v < 5 | None => True end)
  /\ (forall b, Button.__init__ token style label disabled custom_id emoji row = Ok b ->
      ButtonComponent.custom_id (Button._underlying b)
      = match custom_id with Some c => c | None => token end
      /\ Button.persistent b = match custom_id with Some _ => true | None => false end
      /\ ButtonComponent.style (Button._underlying b) = style
      /\ ButtonComponent.label (Button._underlying b) = label
      /\ ButtonComponent.disabled (Button._underlying b) = disabled
      /\ Button._row b = row)
  /\ (style = ButtonStyle.url ->
      Button.__init__ token style label disabled custom_id emoji row = Raise ValueError)
  /\ (style <> ButtonStyle.url -> emoji = Some emoji_other ->
      Button.__init__ token style label disabled custom_id emoji row = Raise TypeError).
Proof.
  unfold Button.__init__.
  destruct (Z.eqb_spec style ButtonStyle.url) as [Hurl|Hstyle].
  - split; [|split; [|split]].
    + split; [intros [b [=]]|intros [Hs _]; contradiction].
    + intros b [=].
    + reflexivity.
    + contradiction.
  - split; [|split; [|split]].
    + rewrite <- check_row_Ok.
      destruct emoji as [[s|e|]|]; cbn [normalize_emoji mbind result_bind];
        destruct (check_row row) as [r|err]; cbn [mbind result_bind];
        (split; [intros [b Hb]; try discriminate Hb; repeat split; eauto; congruence
                |intros (_ & He & [r' Hr]); try congruence; eauto]).
    + intros b Hb. apply bind_Ok in Hb as (em & _ & Hb).
      apply bind_Ok in Hb as (r & Hr & Hb). injection Hb as <-.
      cbn. repeat split.
      destruct row as [v|]; cbn [check_row] in Hr;
        [destruct ((5 >? v) && (v >=? 0))|]; congruence.
    + contradiction.
    + intros _ ->. reflexivity.
Qed.

(** X17: rebuilding a UI button from a decoded [Button] component gives a
    persistent button without a row whose underlying component is the
    component itself, unless the style of the component is [url], in which
    case the constructor raises [ValueError]; rebuilding a [UrlButton]
    always succeeds.  The generated token is not used. *)
Theorem from_component_underlying (token : string)
    (button : ButtonComponent.t E) (url_button : UrlButtonComponent.t E) :
  (ButtonComponent.style button <> ButtonStyle.url ->
   Button.from_component token button
   = Ok {| Button._underlying := button; Button._row := None;
           Button._provided_custom_id := true |})
  /\ (ButtonComponent.style button = ButtonStyle.url ->
      Button.from_component token button = Raise ValueError)
  /\ UrlButton.from_component url_button
     = Ok {| UrlButton._underlying := url_button; UrlButton._row := None |}.
Proof.
  unfold Button.from_component, Button.__init__, UrlButton.from_component,
    UrlButton.__init__.
  split; [|split].
  - intros Hstyle.
    destruct (Z.eqb_spec (ButtonComponent.style button) ButtonStyle.url);
      [contradiction|].
    destruct button as [style cid dis l [e|]]; reflexivity.
  - intros ->. reflexivity.
  - destruct url_button as [url dis l [e|]]; reflexivity.
Qed.
End buttons.

(** * [mixins.py] *)

Section mixin_proofs.
Context {class : Type} `{EqDecision class} (issubclass : class -> class -> bool).

(** X18: the two comparison methods of [EqualityComparable] agree ([!=] is
    the negation of [==], as methods and as operators), and objects that
    compare equal have the same hash.  Through the operator, [a == b] holds
    exactly when the two objects are of one class and have the same [id], so
    that [==] is reflexive, symmetric and transitive.  Called directly, the
    method is not symmetric: for [b] of a proper subclass of the class of
    [a] and with the same [id], [a.__eq__(b)] is [True] and [b.__eq__(a)] is
    [False]; the operator tries [b.__eq__(a)] first and is [False] both
    ways.  [issubclass] is reflexive and antisymmetric. *)
Theorem equality_comparable (a b c : mixins.object (class:=class)) :
  (forall k : class, issubclass k k = true) ->
  (forall k1 k2 : class,
     issubclass k1 k2 = true -> issubclass k2 k1 = true -> k1 = k2) ->
  mixins.__ne__ issubclass a b = negb (mixins.__eq__ issubclass a b)
  /\ mixins.ne_op issubclass a b = negb (mixins.eq_op issubclass a b)
  /\ (mixins.eq_op issubclass a b = true
      <-> mixins.__class__ a = mixins.__class__ b /\ mixins.id a = mixins.id b)
  /\ mixins.eq_op issubclass a a = true
  /\ mixins.eq_op issubclass a b = mixins.eq_op issubclass b a
  /\ (mixins.eq_op issubclass a b = true -> mixins.eq_op issubclass b c = true ->
      mixins.eq_op issubclass a c = true)
  /\ (mixins.eq_op issubclass a b = true -> mixins.__hash__ a = mixins.__hash__ b)
  /\ (mixins.proper_subclass issubclass (mixins.__class__ b) (mixins.__class__ a) = true ->
      mixins.id a = mixins.id b ->
      mixins.__eq__ issubclass a b = true /\ mixins.__eq__ issubclass b a = false
      /\ mixins.eq_op issubclass a b = false /\ mixins.eq_op issubclass b a = false).
Proof.
  intros Hrefl Hanti.
  assert (forall x y : mixins.object (class:=class),
            mixins.eq_op issubclass x y = true
            <-> mixins.__class__ x = mixins.__class__ y /\ mixins.id x = mixins.id y)
    as Heq.
  { intros x y.
    unfold mixins.eq_op, mixins.proper_subclass, mixins.__eq__, mixins.isinstance.
    destruct (decide (mixins.__class__ y = mixins.__class__ x)) as [Hk|Hk].
    - rewrite bool_decide_eq_true_2 by exact Hk. cbn [negb andb].
      rewrite Hk, Hrefl. cbn [andb]. rewrite Z.eqb_eq. split; [auto|tauto].
    - rewrite bool_decide_eq_false_2 by exact Hk. cbn [negb andb].
      destruct (issubclass (mixins.__class__ y) (mixins.__class__ x)) eqn:Hsub.
      + destruct (issubclass (mixins.__class__ x) (mixins.__class__ y)) eqn:Hsup.
        * exfalso. apply Hk. apply Hanti; assumption.
        * cbn [andb]. split; [discriminate|]. intros [Hxy _]. congruence.
      + cbn [andb]. split; [discriminate|]. intros [Hxy _]. congruence. }
  assert (forall x y : mixins.object (class:=class),
            mixins.eq_op issubclass x y = mixins.eq_op issubclass y x) as Hsym.
  { intros x y. apply eq_true_iff_eq. rewrite !Heq. intuition congruence. }
  split; [|split; [|split; [|split; [|split; [|split; [|split]]]]]].
  - unfold mixins.__ne__, mixins.__eq__. rewrite negb_andb. reflexivity.
  - unfold mixins.ne_op, mixins.eq_op, mixins.__ne__, mixins.__eq__.
    destruct (mixins.proper_subclass _ _ _); rewrite negb_andb; reflexivity.
  - apply Heq.
  - apply Heq. auto.
  - apply Hsym.
  - rewrite !Heq. intuition congruence.
  - rewrite Heq. intros [_ Hid]. unfold mixins.__hash__. rewrite Hid. reflexivity.
  - intros Hproper Hid. pose proof Hproper as Hsub.
    unfold mixins.proper_subclass in Hsub.
    apply andb_prop in Hsub as [Hne Hsub]. apply negb_true_iff in Hne.
    apply bool_decide_eq_false in Hne.
    assert (mixins.eq_op issubclass a b = false) as Hab.
    { apply not_true_is_false. rewrite Heq. intros [Hk _]. congruence. }
    split; [|split; [|split; [exact Hab|rewrite <- Hsym; exact Hab]]].
    + unfold mixins.__eq__, mixins.isinstance. rewrite Hsub, Hid, Z.eqb_refl.
      reflexivity.
    + unfold mixins.__eq__, mixins.isinstance.
      destruct (issubclass (mixins.__class__ a) (mixins.__class__ b)) eqn:Hsup;
        [|reflexivity].
      exfalso. apply Hne. apply Hanti; assumption.
Qed.
End mixin_proofs.

(** * The further properties on concrete values *)

Lemma decode_encode_normalizes_witness :
  let x : Component string :=
    Button_ {| Button.style := 1; Button.custom_id := "x";
               Button.disabled := false; Button.label := Some "";
               Button.emoji := None |} in
  _component_factory (JObj (to_dict x))
  = Ok (Button_ {| Button.style := 1; Button.custom_id := "x";
                   Button.disabled := false; Button.label := None;
                   Button.emoji := None |}).
Proof.
  intros x. destruct (decode_encode_normalizes x) as [Hn _]. exact Hn.
Defined.

Lemma encode_decode_encode_witness :
  (to_dict <$> _component_factory (JObj (to_dict sample_row)))
  = Ok (to_dict sample_row).
Proof. exact (proj2 (encode_decode_encode sample_row)). Defined.

Lemma factory_preserves_tag_witness :
  let w : dict := {[ "type" := JBool true; "components" := JList [] ]} in
  exists tag, w !! "type" = Some tag
              /\ py_eq_int tag (type_of (ActionRow_ (E:=string) [])) = true.
Proof.
  intros w.
  destruct (factory_preserves_tag (E:=string) w (ActionRow_ [])) as (Htag & _).
  - reflexivity.
  - exact Htag.
Defined.

Lemma key_error_is_required_key_witness :
  let w : dict := {[ "type" := JInt 2; "style" := JInt 1 ]} in
  Button.from_payload (E:=string) w = Raise (KeyError "custom_id")
  /\ w !! "custom_id" = None.
Proof.
  intros w.
  assert (Button.from_payload (E:=string) w = Raise (KeyError "custom_id")) as Hr
    by reflexivity.
  split; [exact Hr|].
  destruct (key_error_is_required_key (E:=string) w "custom_id") as (Hb & _).
  exact (proj1 (Hb Hr)).
Defined.

Lemma action_row_decodes_children_witness :
  ActionRowComponent.from_payload (E:=string) {[ "type" := JInt 1 ]}
  = Ok (ActionRow_ [])
  /\ ActionRowComponent.from_payload (E:=string)
       {[ "type" := JInt 1;
          "components" := JList [JObj {[ "type" := JInt 5; "custom_id" := JStr "u" ]};
                                 JObj {[ "type" := JInt 2 ]}] ]}
     = Raise (KeyError "style").
Proof.
  split.
  - destruct (action_row_decodes_children (E:=string) {[ "type" := JInt 1 ]})
      as (Habs & _).
    apply Habs. reflexivity.
  - destruct (action_row_decodes_children (E:=string)
      {[ "type" := JInt 1;
         "components" := JList [JObj {[ "type" := JInt 5; "custom_id" := JStr "u" ]};
                                JObj {[ "type" := JInt 2 ]}] ]})
      as (_ & _ & Hfail).
    apply (Hfail [JObj {[ "type" := JInt 5; "custom_id" := JStr "u" ]}]
                 (JObj {[ "type" := JInt 2 ]}) []).
    + reflexivity.
    + constructor; [|constructor]. eexists. reflexivity.
    + reflexivity.
Defined.

Lemma insert_item_position_witness :
  exists self',
    ui.ActionRow.insert_item (-1) (item "x") sample_explicit_row = (Ok tt, self')
    /\ ui.ActionRow._children self' = [item "c"; item "x"; item "d"].
Proof.
  destruct (insert_item_position (-1) (item "x") sample_explicit_row)
    as (self' & Hrun & _); [vm_compute; discriminate|].
  exists self'. split; [exact Hrun|].
  vm_compute in Hrun. injection Hrun as <-. reflexivity.
Defined.

Lemma remove_item_first_occurrence_witness :
  ui.ActionRow.remove_item "z" {| ui.ActionRow._children := ["a"; "b"; "a"] |}
  = (Raise ValueError, {| ui.ActionRow._children := ["a"; "b"; "a"] |})
  /\ ui.ActionRow.remove_item "a"
       (ui.ActionRow.insert_item 1 "a" {| ui.ActionRow._children := ["b"; "c"] |}).2
     = (Ok tt, {| ui.ActionRow._children := ["b"; "c"] |}).
Proof.
  split.
  - destruct (remove_item_first_occurrence "z"
      {| ui.ActionRow._children := ["a"; "b"; "a"] |}) as (Habs & _).
    apply Habs. cbn. rewrite !not_elem_of_cons. repeat split; try discriminate.
    apply not_elem_of_nil.
  - destruct (remove_item_first_occurrence "a"
      {| ui.ActionRow._children := ["b"; "c"] |}) as (_ & _ & Hrt).
    apply Hrt.
    + cbn. rewrite !not_elem_of_cons. repeat split; try discriminate.
      apply not_elem_of_nil.
    + vm_compute. discriminate.
Defined.

Lemma pop_removes_first_occurrence_witness :
  ui.ActionRow.pop 3 {| ui.ActionRow._children := ["a"; "b"; "a"] |}
  = (Raised IndexError, {| ui.ActionRow._children := ["a"; "b"; "a"] |})
  /\ exists (j : nat) (component : string),
       ui.ActionRow.pop (-1) {| ui.ActionRow._children := ["a"; "b"; "a"] |}
       = (Returned component,
          {| ui.ActionRow._children := delete j ["a"; "b"; "a"] |}).
Proof.
  destruct (pop_removes_first_occurrence 3
    {| ui.ActionRow._children := ["a"; "b"; "a"] |}) as (Hout & _).
  destruct (pop_removes_first_occurrence (-1)
    {| ui.ActionRow._children := ["a"; "b"; "a"] |}) as (_ & Hin).
  split.
  - apply Hout. right. vm_compute. discriminate.
  - destruct Hin as (i & j & c & _ & _ & _ & _ & _ & Hrun & _).
    + split; vm_compute; [discriminate|reflexivity].
    + exists j, c. exact Hrun.
Defined.

Lemma row_capacity_invariant_witness :
  ui.ActionRow.capacity
    (ui.after_calls {| ui.ActionRow._children := ["a"; "b"] |}
       [ui.call_append_item "c"; ui.call_pop 0; ui.call_remove_item "z";
        ui.call_insert_item 9 "d"; ui.call_clear_items; ui.call_append_item "e"]).
Proof.
  apply (row_capacity_invariant [ui.ActionRow.Item "a"; ui.ActionRow.Item "b"]).
  - intros c. cbn. lia.
  - reflexivity.
Defined.

Lemma constructor_succeeds_iff_witness :
  exists r, ui.ActionRow.__init__ (ui.ActionRow.Item <$> ["a"; "b"; "c"]) = Ok r.
Proof.
  destruct (constructor_succeeds_iff (ui.ActionRow.Item <$> ["a"; "b"; "c"]))
    as [Hiff _].
  - intros c. cbn. lia.
  - apply Hiff. split.
    + cbn. rewrite !not_elem_of_cons. repeat split; try discriminate.
      apply not_elem_of_nil.
    + vm_compute. discriminate.
Defined.

Lemma pack_succeeds_iff_witness :
  exists rows,
    ui.pack ui.ActionRow.empty
      [ui.Wrapped "a"; ui.Row {| ui.ActionRow._children := ["b"] |};
       ui.Seq [ui.ActionRow.Item "c"]] = Ok rows.
Proof.
  apply pack_succeeds_iff.
  - intros c. cbn. lia.
  - repeat constructor; try (vm_compute; discriminate).
    cbn. rewrite !not_elem_of_cons. repeat split; try discriminate.
    apply not_elem_of_nil.
Defined.

Lemma pack_flat_rows_of_five_witness :
  exists rows,
    ui.pack ui.ActionRow.empty (ui.Wrapped <$> ["a"; "b"; "c"; "d"; "e"; "f"; "g"])
    = Ok rows
    /\ Z.of_nat (length rows) = 2.
Proof.
  destruct (pack_flat_rows_of_five ["a"; "b"; "c"; "d"; "e"; "f"; "g"])
    as (rows & Hrun & _ & _ & _ & Hcount).
  - repeat constructor.
  - exists rows. split; [exact Hrun|]. rewrite Hcount. reflexivity.
Defined.

Lemma row_to_dict_decodes_witness :
  _component_factory (E:=string)
    (JObj (ui.row_to_dict {| ui.ActionRow._children := [sample_button] |}))
  = Ok (ActionRow_ [Button_ (ui.Button._underlying sample_button)]).
Proof.
  destruct (row_to_dict_decodes (E:=string)
              {| ui.ActionRow._children := [sample_button] |}) as (_ & _ & Hrun).
  exact Hrun.
Defined.

Lemma button_constructor_witness :
  (exists b, ui.Button.__init__ (E:=string) "0f" 2 None false None None (Some 4) = Ok b)
  /\ ui.Button.__init__ (E:=string) "0f" 5 None false None None None
     = Raise ValueError.
Proof.
  destruct (button_constructor (E:=string) "0f" 2 None false None None (Some 4))
    as (Hiff & _).
  destruct (button_constructor (E:=string) "0f" 5 None false None None None)
    as (_ & _ & Hurl & _).
  split.
  - apply Hiff. split; [discriminate|]. split; [discriminate|]. lia.
  - apply Hurl. reflexivity.
Defined.

Lemma from_component_underlying_witness :
  ui.Button.from_component "0f" (ui.Button._underlying sample_button)
  = Ok sample_button.
Proof.
  destruct (from_component_underlying (E:=string) "0f"
    (ui.Button._underlying sample_button)
    {| UrlButton.url := "u"; UrlButton.disabled := false;
       UrlButton.label := None; UrlButton.emoji := None |}) as (Hb & _).
  apply Hb. discriminate.
Defined.

Lemma equality_comparable_witness :
  let a := {| mixins.__class__ := false; mixins.id := 41943040 |} in
  let b := {| mixins.__class__ := true; mixins.id := 41943040 |} in
  mixins.__eq__ sample_issubclass a b = true
  /\ mixins.__eq__ sample_issubclass b a = false
  /\ mixins.eq_op sample_issubclass a b = false
  /\ mixins.eq_op sample_issubclass b a = false
  /\ mixins.eq_op sample_issubclass a a = true.
Proof.
  intros a b.
  destruct (equality_comparable sample_issubclass a b a)
    as (_ & _ & _ & Hrefl & _ & _ & _ & Hasym).
  - intros []; reflexivity.
  - intros [] []; cbn; congruence.
  - destruct Hasym as (Hab & Hba & Hop & Hpo); try reflexivity.
    repeat split; assumption.
Defined.
